(** * Smart Recipe Assistant: the AI response contract layer

    A shallow embedding of the request/response pipeline of the
    repository (input validation with zod, the prompt builder, the
    response parser, the id-assigning mapper, the two route handlers and
    the [useRecipes] client state), with the properties of its
    specification stated and settled against it.

    Conventions of the model.
    - A JavaScript string is a [string]: a sequence of code units, here
      restricted to the range 0..255.
    - A JavaScript number is the exact rational value of its literal
      ([Q]); rounding to IEEE doubles is not modelled.  All the bounds
      the code compares against (0, 1, 12) are exact in both.
    - [undefined] is the [None] of an [option json].
    - The members of an object are kept in insertion order; the numeric
      ordering that engines give to integer-like keys is not modelled,
      and no statement depends on the order.
    - Exceptions and the mutable world (id generator, clock, console and
      provider calls) are threaded by the monad [M]. *)

From Stdlib Require Import ZArith QArith Ascii.
From stdpp Require Import base list strings pretty.

(** ** JavaScript strings *)

Module Str.

Definition nl : string := String "010"%char "".

(** White space of [String.prototype.trim] among the code units 0..255:
    TAB, LF, VT, FF, CR, SP and NBSP. *)
Definition is_space (c : ascii) : bool :=
  match c with
  | "009" | "010" | "011" | "012" | "013" | " " | "160" => true
  | _ => false
  end%char.

Fixpoint trimStart (s : string) : string :=
  match s with
  | "" => ""
  | String c r => if is_space c then trimStart r else s
  end.

Fixpoint trimEnd (s : string) : string :=
  match s with
  | "" => ""
  | String c r =>
      match trimEnd r with
      | "" => if is_space c then "" else String c ""
      | r' => String c r'
      end
  end.

Definition trim (s : string) : string := trimEnd (trimStart s).

(** [Array.prototype.join]. *)
Definition join (sep : string) (l : list string) : string :=
  String.concat sep l.

(** [s.startsWith p]. *)
Definition startsWith (p s : string) : bool := String.prefix p s.

(** [sub] occurs in [s] as a contiguous substring. *)
Definition occurs (sub s : string) : Prop :=
  ∃ a b, s = a +:+ sub +:+ b.

Fixpoint includes (sub s : string) : bool :=
  startsWith sub s ||
  match s with
  | "" => false
  | String _ r => includes sub r
  end.

(** Among the code units 0..255 the upper-case letters are A-Z and the
    accented capitals 192..222 except the multiplication sign 215. *)
Definition toLowerCase_char (c : ascii) : ascii :=
  let n := Ascii.nat_of_ascii c in
  if ((65 <=? n) && (n <=? 90) ||
      (192 <=? n) && (n <=? 222) && negb (n =? 215))%nat
  then Ascii.ascii_of_nat (n + 32) else c.

Fixpoint toLowerCase (s : string) : string :=
  match s with
  | "" => ""
  | String c r => String (toLowerCase_char c) (toLowerCase r)
  end.

End Str.

(** ** Code-fence stripping

    [response.replace(/```json\n?|\n?```/g, '')]: a global replace, scanning
    left to right; at each position the first alternative is tried before
    the second and [\n?] is greedy. *)

Module Fence.

Definition bt3 : string := "```".
Definition open_json : string := "```json".

(** Length of the match of the pattern at the head of [s], if any. *)
Definition match_len (s : string) : option nat :=
  if Str.startsWith (open_json +:+ Str.nl) s then Some 8%nat
  else if Str.startsWith open_json s then Some 7%nat
  else if Str.startsWith (Str.nl +:+ bt3) s then Some 4%nat
  else if Str.startsWith bt3 s then Some 3%nat
  else None.

(** [replace_from k s]: the replacement of every match by the empty
    string, where the first [k] code units of [s] belong to a match
    already found. *)
Fixpoint replace_from (k : nat) (s : string) : string :=
  match s with
  | "" => ""
  | String c r =>
      match k with
      | S k' => replace_from k' r
      | O =>
          match match_len s with
          | Some (S k') => replace_from k' r
          | _ => String c (replace_from 0 r)
          end
      end
  end.

Definition replace_fences (s : string) : string := replace_from 0 s.

(** [const cleanResponse = response.replace(...).trim()] *)
Definition cleanResponse (response : string) : string :=
  Str.trim (replace_fences response).

Definition close_fence : string := Str.nl +:+ bt3.

(** A response wrapped in a Markdown [json] code fence. *)
Definition fenced (t : string) : string :=
  open_json +:+ Str.nl +:+ t +:+ close_fence.

(** The same with a bare fence, without a language tag. *)
Definition fenced_bare (t : string) : string :=
  bt3 +:+ Str.nl +:+ t +:+ close_fence.

End Fence.

(** ** JSON values *)

#[local] Set Warnings "-register-all".

Inductive json : Type :=
| JNull
| JBool (b : bool)
| JNum (q : Q)
| JStr (s : string)
| JArr (items : list json)
| JObj (members : list (string * json)).

(** Own-property lookup in the member list of an object. *)
Fixpoint lookup_member (k : string) (members : list (string * json)) : option json :=
  match members with
  | [] => None
  | (k', v) :: rest => if String.eqb k k' then Some v else lookup_member k rest
  end.

(** [obj[k] = v] on an object: an existing key keeps its position, a new
    key is appended. *)
Fixpoint set_member (k : string) (v : json) (members : list (string * json))
  : list (string * json) :=
  match members with
  | [] => [(k, v)]
  | (k', v') :: rest =>
      if String.eqb k k' then (k', v) :: rest else (k', v') :: set_member k v rest
  end.

Definition truthy (v : option json) : bool :=
  match v with
  | None | Some JNull => false
  | Some (JBool b) => b
  | Some (JNum q) => negb (Qeq_bool q 0)
  | Some (JStr s) => negb (String.eqb s "")
  | Some (JArr _) | Some (JObj _) => true
  end.

Definition Array_isArray (v : option json) : bool :=
  match v with
  | Some (JArr _) => true
  | _ => false
  end.

Fixpoint chars_of (s : string) : list string :=
  match s with
  | "" => []
  | String c r => String c "" :: chars_of r
  end.

(** The own enumerable properties that an object spread [{...v}] copies. *)
Definition spread (v : json) : list (string * json) :=
  match v with
  | JObj members => members
  | JArr items => imap (λ i x, (pretty i, x)) items
  | JStr s => imap (λ i c, (pretty i, JStr c)) (chars_of s)
  | JNull | JBool _ | JNum _ => []
  end.

(** ** A reference JSON reader

    [JSON.parse] belongs to the host; the development is parametric in
    it.  This reader follows the JSON grammar and is used to run the
    model on concrete texts. *)

Definition is_json_ws (c : ascii) : bool :=
  match c with
  | " " | "009" | "010" | "013" => true
  | _ => false
  end%char.

Fixpoint skip_ws (s : string) : string :=
  match s with
  | String c r => if is_json_ws c then skip_ws r else s
  | "" => ""
  end.

Definition digit_of (c : ascii) : option Z :=
  let n := Z.of_nat (nat_of_ascii c) in
  if (48 <=? n)%Z && (n <=? 57)%Z then Some (n - 48)%Z else None.

Definition hex_of (c : ascii) : option Z :=
  let n := Z.of_nat (nat_of_ascii c) in
  if (48 <=? n)%Z && (n <=? 57)%Z then Some (n - 48)%Z
  else if (65 <=? n)%Z && (n <=? 70)%Z then Some (n - 55)%Z
  else if (97 <=? n)%Z && (n <=? 102)%Z then Some (n - 87)%Z
  else None.

(** Reads a maximal run of digits: value so far, number of digits read. *)
Fixpoint read_digits (acc : Z) (n : nat) (s : string) : Z * nat * string :=
  match s with
  | String c r =>
      match digit_of c with
      | Some d => read_digits (10 * acc + d)%Z (S n) r
      | None => (acc, n, s)
      end
  | "" => (acc, n, s)
  end.

Definition pow10 (e : Z) : Q :=
  if (0 <=? e)%Z then inject_Z (10 ^ e) else Qinv (inject_Z (10 ^ (- e))).

Definition head_is (c : ascii) (s : string) : bool :=
  match s with
  | String c' _ => Ascii.eqb c c'
  | "" => false
  end.

Definition tail (s : string) : string :=
  match s with
  | String _ r => r
  | "" => ""
  end.

(** [. digits], optional. *)
Definition read_fraction (s : string) : option (Q * string) :=
  if head_is "." s then
    let '(fp, nf, rest) := read_digits 0 0 (tail s) in
    if (nf =? 0)%nat then None
    else Some (Qmult (inject_Z fp) (pow10 (- Z.of_nat nf)), rest)
  else Some (0%Q, s).

(** [e|E, sign, digits], optional. *)
Definition read_exponent (s : string) : option (Z * string) :=
  if head_is "e" s || head_is "E" s then
    let r := tail s in
    let eneg := head_is "-" r in
    let r1 := if eneg || head_is "+" r then tail r else r in
    let '(ev, ne, rest) := read_digits 0 0 r1 in
    if (ne =? 0)%nat then None
    else Some (if eneg then (- ev)%Z else ev, rest)
  else Some (0%Z, s).

Definition read_number (s : string) : option (Q * string) :=
  let neg := head_is "-" s in
  let s1 := if neg then tail s else s in
  let '(ip, ni, s2) := read_digits 0 0 s1 in
  if (ni =? 0)%nat || (head_is "0" s1 && (1 <? ni)%nat) then None else
  match read_fraction s2 with
  | None => None
  | Some (fq, s3) =>
      match read_exponent s3 with
      | None => None
      | Some (e, s4) =>
          let m := Qmult (Qplus (inject_Z ip) fq) (pow10 e) in
          Some (Qred (if neg then Qopp m else m), s4)
      end
  end.

(** The body of a string literal, after its opening quote. *)
Fixpoint read_string (s : string) : option (string * string) :=
  match s with
  | "" => None
  | String c r =>
      if Ascii.eqb c "034" then Some ("", r)
      else if Ascii.eqb c "\" then
        match r with
        | String e r1 =>
            let simple (x : ascii) :=
              match read_string r1 with
              | Some (body, rest) => Some (String x body, rest)
              | None => None
              end in
            if Ascii.eqb e "034" then simple "034"%char
            else if Ascii.eqb e "\" then simple "\"%char
            else if Ascii.eqb e "/" then simple "/"%char
            else if Ascii.eqb e "b" then simple "008"%char
            else if Ascii.eqb e "f" then simple "012"%char
            else if Ascii.eqb e "n" then simple "010"%char
            else if Ascii.eqb e "r" then simple "013"%char
            else if Ascii.eqb e "t" then simple "009"%char
            else if Ascii.eqb e "u" then
              match r1 with
              | String h1 (String h2 (String h3 (String h4 r2))) =>
                  match hex_of h1, hex_of h2, hex_of h3, hex_of h4 with
                  | Some a, Some b, Some c', Some d =>
                      let u := (((a * 16 + b) * 16 + c') * 16 + d)%Z in
                      if (u <? 256)%Z then
                        match read_string r2 with
                        | Some (body, rest) =>
                            Some (String (ascii_of_nat (Z.to_nat u)) body, rest)
                        | None => None
                        end
                      else None
                  | _, _, _, _ => None
                  end
              | _ => None
              end
            else None
        | "" => None
        end
      else if (nat_of_ascii c <? 32)%nat then None
      else
        match read_string r with
        | Some (body, rest) => Some (String c body, rest)
        | None => None
        end
  end.

Definition read_literal (lit : string) (v : json) (s : string) : option (json * string) :=
  if Str.startsWith lit s
  then Some (v, String.substring (String.length lit) (String.length s) s)
  else None.

Inductive goal := GValue | GItems (acc : list json) | GMembers (acc : list (string * json)).

(** [read fuel g s]: a value, or the rest of an array after its opening
    bracket or a comma, or the rest of an object likewise. *)
Fixpoint read (fuel : nat) (g : goal) (s : string) : option (json * string) :=
  match fuel with
  | O => None
  | S fuel =>
      match g with
      | GValue =>
          match skip_ws s with
          | String c r =>
              if Ascii.eqb c "{" then
                if head_is "}" (skip_ws r) then Some (JObj [], tail (skip_ws r))
                else read fuel (GMembers []) r
              else if Ascii.eqb c "[" then
                if head_is "]" (skip_ws r) then Some (JArr [], tail (skip_ws r))
                else read fuel (GItems []) r
              else if Ascii.eqb c "034" then
                match read_string r with
                | Some (body, rest) => Some (JStr body, rest)
                | None => None
                end
              else if Ascii.eqb c "t" then read_literal "true" (JBool true) (String c r)
              else if Ascii.eqb c "f" then read_literal "false" (JBool false) (String c r)
              else if Ascii.eqb c "n" then read_literal "null" JNull (String c r)
              else
                match read_number (String c r) with
                | Some (q, rest) => Some (JNum q, rest)
                | None => None
                end
          | "" => None
          end
      | GItems acc =>
          match read fuel GValue s with
          | Some (v, rest) =>
              let rest' := skip_ws rest in
              if head_is "," rest' then read fuel (GItems (acc ++ [v])) (tail rest')
              else if head_is "]" rest' then Some (JArr (acc ++ [v]), tail rest')
              else None
          | None => None
          end
      | GMembers acc =>
          match skip_ws s with
          | String c r =>
              if Ascii.eqb c "034" then
                match read_string r with
                | Some (k, rest) =>
                    if head_is ":" (skip_ws rest) then
                      match read fuel GValue (tail (skip_ws rest)) with
                      | Some (v, rest1) =>
                          let rest' := skip_ws rest1 in
                          if head_is "," rest'
                          then read fuel (GMembers (set_member k v acc)) (tail rest')
                          else if head_is "}" rest'
                          then Some (JObj (set_member k v acc), tail rest')
                          else None
                      | None => None
                      end
                    else None
                | None => None
                end
              else None
          | "" => None
          end
      end
  end.

Definition json_read (s : string) : option json :=
  match read (S (String.length s)) GValue s with
  | Some (v, rest) => if String.eqb (skip_ws rest) "" then Some v else None
  | None => None
  end.

(** Test texts are written with an apostrophe where the JSON text has a
    double quote. *)
Definition dq : ascii := "034"%char.

Fixpoint text (s : string) : string :=
  match s with
  | "" => ""
  | String c r => String (if Ascii.eqb c "'"%char then dq else c) (text r)
  end.

(** ** Exceptions and the effect monad *)

Inductive path_elem := PKey (k : string) | PIndex (i : nat).

Record ZodIssue := { path : list path_elem; message : string }.

(** What the code throws.  [Thrown] is a value that is not an [Error]. *)
Inductive exn : Type :=
| ZodError (errors : list ZodIssue)
| SyntaxError (msg : string)
| TypeError (msg : string)
| Error (msg : string)
| RecipeParsingError (msg : string) (originalError : exn)
| RecipeGenerationError (msg : string) (originalError : exn)
| Thrown (what : string).

Definition instanceof_Error (e : exn) : bool :=
  match e with
  | Thrown _ => false
  | _ => true
  end.

Definition exn_name (e : exn) : string :=
  match e with
  | ZodError _ => "ZodError"
  | SyntaxError _ => "SyntaxError"
  | TypeError _ => "TypeError"
  | Error _ => "Error"
  | RecipeParsingError _ _ => "RecipeParsingError"
  | RecipeGenerationError _ _ => "RecipeGenerationError"
  | Thrown _ => ""
  end.

Inductive result (A : Type) : Type :=
| Ok (a : A)
| Throw (e : exn).
Arguments Ok {A} a.
Arguments Throw {A} e.

(** Observable effects, in the order they happen.  [PromptBuilt] records
    a call of a prompt builder (a ghost event: the builder itself is
    pure), [ModelCalled] a request sent to the provider. *)
Inductive event :=
| PromptBuilt (prompt : string)
| ModelCalled (prompt : string)
| ConsoleError (label : string).

Section Effects.

(** [G] is the state of the identifier generator. *)
Context {G : Type}.

Record world := {
  idgen : G;
  clock : Z;
  trace : list event;
}.

Definition M (A : Type) : Type := world → result A * world.

Definition ret {A} (a : A) : M A := λ w, (Ok a, w).

Definition throw {A} (e : exn) : M A := λ w, (Throw e, w).

Definition bind {A B} (c : M A) (k : A → M B) : M B :=
  λ w, match c w with
       | (Ok a, w') => k a w'
       | (Throw e, w') => (Throw e, w')
       end.

(** [try { c } catch (error) { h error }]: the effects of [c] up to the
    throw are kept. *)
Definition try_catch {A} (c : M A) (h : exn → M A) : M A :=
  λ w, match c w with
       | (Ok a, w') => (Ok a, w')
       | (Throw e, w') => h e w'
       end.

Definition lift {A} (r : result A) : M A := λ w, (r, w).

Definition emit (e : event) : M unit :=
  λ w, (Ok tt, {| idgen := idgen w; clock := clock w; trace := trace w ++ [e] |}).

Definition console_error (label : string) : M unit := emit (ConsoleError label).

(** [Date.now()] *)
Definition Date_now : M Q := λ w, (Ok (inject_Z (clock w)), w).

End Effects.

Arguments world : clear implicits.
Arguments M : clear implicits.

Notation "'let*' x := c 'in' k" := (bind c (λ x, k))
  (at level 10, x name, c at level 100, k at level 200, only parsing).
Notation "'do' c 'in' k" := (bind c (λ _, k))
  (at level 10, c at level 100, k at level 200, only parsing).

(** ** zod

    A schema parses an input at a path to a value, or aborts ([None]),
    and reports its issues; the issues of a parse come in the order in
    which zod finds them.  A parse succeeds when it reports no issue. *)

Definition ParseReturn (A : Type) : Type := option A * list ZodIssue.

Definition Schema (A : Type) : Type := list path_elem → option json → ParseReturn A.

Definition parsedType (input : option json) : string :=
  match input with
  | None => "undefined"
  | Some JNull => "null"
  | Some (JBool _) => "boolean"
  | Some (JNum _) => "number"
  | Some (JStr _) => "string"
  | Some (JArr _) => "array"
  | Some (JObj _) => "object"
  end.

Definition issue (p : list path_elem) (m : string) : ZodIssue :=
  {| path := p; message := m |}.

Definition invalid_type {A} (p : list path_elem) (expected : string)
  (input : option json) : ParseReturn A :=
  (None,
   [issue p (match input with
             | None => "Required"
             | Some _ => "Expected " +:+ expected +:+ ", received " +:+ parsedType input
             end)]).

Inductive string_check :=
| SMin (value : nat) (msg : string)
| SMax (value : nat) (msg : string).

Definition run_string_check (p : list path_elem) (s : string) (c : string_check)
  : list ZodIssue :=
  match c with
  | SMin n m => if (String.length s <? n)%nat then [issue p m] else []
  | SMax n m => if (n <? String.length s)%nat then [issue p m] else []
  end.

Definition z_string (checks : list string_check) : Schema string :=
  λ p input,
    match input with
    | Some (JStr s) => (Some s, flat_map (run_string_check p s) checks)
    | _ => invalid_type p "string" input
    end.

Inductive number_check :=
| NMin (value : Q) (inclusive : bool) (msg : string)
| NMax (value : Q) (inclusive : bool) (msg : string).

Definition Qlt_bool (a b : Q) : bool := negb (Qle_bool b a).

Definition run_number_check (p : list path_elem) (x : Q) (c : number_check)
  : list ZodIssue :=
  match c with
  | NMin v inclusive m =>
      if (if inclusive then Qlt_bool x v else Qle_bool x v) then [issue p m] else []
  | NMax v inclusive m =>
      if (if inclusive then Qlt_bool v x else Qle_bool v x) then [issue p m] else []
  end.

Definition z_number (checks : list number_check) : Schema Q :=
  λ p input,
    match input with
    | Some (JNum x) => (Some x, flat_map (run_number_check p x) checks)
    | _ => invalid_type p "number" input
    end.

(** [ParseStatus.mergeArray]: aborted as soon as one item is. *)
Fixpoint merge_values {A} (rs : list (ParseReturn A)) : option (list A) :=
  match rs with
  | [] => Some []
  | (Some a, _) :: rest =>
      match merge_values rest with
      | Some l => Some (a :: l)
      | None => None
      end
  | (None, _) :: _ => None
  end.

Definition all_issues {A} (rs : list (ParseReturn A)) : list ZodIssue :=
  flat_map snd rs.

Definition length_issues (p : list path_elem) (len : nat)
  (minLength maxLength : option (nat * string)) : list ZodIssue :=
  match minLength with
  | Some (n, m) => if (len <? n)%nat then [issue p m] else []
  | None => []
  end ++
  match maxLength with
  | Some (n, m) => if (n <? len)%nat then [issue p m] else []
  | None => []
  end.

Definition z_array {A} (item : Schema A) (minLength maxLength : option (nat * string))
  : Schema (list A) :=
  λ p input,
    match input with
    | Some (JArr items) =>
        let rs := imap (λ i x, item (p ++ [PIndex i]) (Some x)) items in
        (merge_values rs,
         length_issues p (length items) minLength maxLength ++ all_issues rs)
    | _ => invalid_type p "array" input
    end.

Definition quoted (v : string) : string := "'" +:+ v +:+ "'".

Definition joinValues (values : list string) : string :=
  Str.join " | " (quoted <$> values).

Definition z_enum (values : list string) : Schema string :=
  λ p input,
    match input with
    | Some (JStr s) =>
        if bool_decide (s ∈ values) then (Some s, [])
        else (None, [issue p ("Invalid enum value. Expected " +:+ joinValues values
                                +:+ ", received " +:+ quoted s)])
    | _ => invalid_type p (joinValues values) input
    end.

Definition z_default {A} (inner : Schema A) (defaultValue : json) : Schema A :=
  λ p input,
    match input with
    | None => inner p (Some defaultValue)
    | Some _ => inner p input
    end.

Definition z_optional {A} (inner : Schema A) : Schema (option A) :=
  λ p input,
    match input with
    | None => (Some None, [])
    | Some _ => let '(v, iss) := inner p input in (Some <$> v, iss)
    end.

Definition z_record {A} (value : Schema A) : Schema (list (string * A)) :=
  λ p input,
    match input with
    | Some (JObj members) =>
        let rs := (λ kv : string * json,
                     let '(v, iss) := value (p ++ [PKey kv.1]) (Some kv.2) in
                     (pair kv.1 <$> v, iss)) <$> members in
        (merge_values rs, all_issues rs)
    | _ => invalid_type p "object" input
    end.

(** The fields of a [z.object] are all parsed, in the order of the shape,
    before the results are merged. *)
Definition z_object {A} (fields : list path_elem → list (string * json) → ParseReturn A)
  : Schema A :=
  λ p input,
    match input with
    | Some (JObj members) => fields p members
    | _ => invalid_type p "object" input
    end.

Definition field {A} (p : list path_elem) (data : list (string * json))
  (key : string) (schema : Schema A) : ParseReturn A :=
  schema (p ++ [PKey key]) (lookup_member key data).

Definition pr_pure {A} (a : A) : ParseReturn A := (Some a, []).

Definition pr_ap {A B} (f : ParseReturn (A → B)) (x : ParseReturn A) : ParseReturn B :=
  (match f.1, x.1 with
   | Some g, Some a => Some (g a)
   | _, _ => None
   end, f.2 ++ x.2).

Notation "f <&> x" := (pr_ap f x) (at level 58, left associativity).

(** [schema.parse(data)] *)
Definition zod_parse {A} (schema : Schema A) (data : json) : result A :=
  match schema [] (Some data) with
  | (Some a, []) => Ok a
  | (None, []) => Throw (Error "Validation failed but no issues detected.")
  | (_, issues) => Throw (ZodError issues)
  end.

(** ** The data model: [types/recipe.ts] and the schemas of [lib/validations.ts] *)

Module IngredientInput.
Record t := {
  ingredients : list string;
  dietaryFilters : list string;
  servings : Q;
  maxPrepTime : option Q;
}.
End IngredientInput.

Definition DietaryFilter_values : list string :=
  ["vegetarian"; "vegan"; "gluten-free"; "dairy-free"; "keto"; "paleo"].

Definition ingredient_item : Schema string :=
  z_string [SMin 1 "Ingredient cannot be empty"; SMax 50 "Ingredient name too long"].

Definition servings_number : Schema Q :=
  z_number [NMin 1 true "At least 1 serving required";
            NMax 12 true "Maximum 12 servings allowed"].

Definition IngredientInputSchema : Schema IngredientInput.t :=
  z_object (λ p data,
    pr_pure IngredientInput.Build_t
    <&> field p data "ingredients"
          (z_array ingredient_item
             (Some (2%nat, "Please enter at least 2 ingredients"))
             (Some (15%nat, "Maximum 15 ingredients allowed")))
    <&> field p data "dietaryFilters"
          (z_default (z_array (z_enum DietaryFilter_values) None None) (JArr []))
    <&> field p data "servings" (z_default servings_number (JNum 4))
    <&> field p data "maxPrepTime"
          (z_optional
             (z_number [NMin 5 true "Number must be greater than or equal to 5";
                        NMax 240 true "Number must be less than or equal to 240"]))).

Module Ingredient.
Record t := {
  name : string;
  amount : string;
  notes : option string;
}.
End Ingredient.

Module NutritionInfo.
Record t := {
  calories : Q;
  protein : string;
  carbs : string;
  fat : string;
  fiber : string;
  sugar : string;
}.
End NutritionInfo.

Module Recipe.
Record t := {
  id : string;
  name : string;
  description : string;
  cuisine : string;
  prepTime : string;
  cookTime : string;
  totalTime : string;
  difficulty : string;
  servings : Q;
  ingredients : list Ingredient.t;
  instructions : list string;
  nutrition : NutritionInfo.t;
  substitutions : list (string * string);
  tags : list string;
  tips : option string;
  image : option string;
}.
End Recipe.

Definition RecipeSchema : Schema Recipe.t :=
  z_object (λ p data,
    pr_pure Recipe.Build_t
    <&> field p data "id" (z_string [])
    <&> field p data "name" (z_string [SMin 1 "Recipe name is required"])
    <&> field p data "description" (z_string [])
    <&> field p data "cuisine" (z_string [])
    <&> field p data "prepTime" (z_string [])
    <&> field p data "cookTime" (z_string [])
    <&> field p data "totalTime" (z_string [])
    <&> field p data "difficulty" (z_enum ["Easy"; "Medium"; "Hard"])
    <&> field p data "servings"
          (z_number [NMin 0 false "Number must be greater than 0"])
    <&> field p data "ingredients"
          (z_array
             (z_object (λ p data,
                pr_pure Ingredient.Build_t
                <&> field p data "name" (z_string [])
                <&> field p data "amount" (z_string [])
                <&> field p data "notes" (z_optional (z_string []))))
             None None)
    <&> field p data "instructions" (z_array (z_string []) None None)
    <&> field p data "nutrition"
          (z_object (λ p data,
             pr_pure NutritionInfo.Build_t
             <&> field p data "calories" (z_number [])
             <&> field p data "protein" (z_string [])
             <&> field p data "carbs" (z_string [])
             <&> field p data "fat" (z_string [])
             <&> field p data "fiber" (z_string [])
             <&> field p data "sugar" (z_string [])))
    <&> field p data "substitutions" (z_record (z_string []))
    <&> field p data "tags" (z_array (z_string []) None None)
    <&> field p data "tips" (z_optional (z_string []))
    <&> field p data "image" (z_optional (z_string []))).

(** A value satisfies the full structural schema of a Recipe. *)
Definition satisfies_RecipeSchema (v : json) : bool :=
  match zod_parse RecipeSchema v with
  | Ok _ => true
  | Throw _ => false
  end.

(** [app/api/substitutions/route.ts], lines 5-10. *)
Module SubstitutionRequest.
Record t := {
  ingredients : list string;
  dietaryFilters : list string;
  recipeName : option string;
  recipeType : option string;
}.
End SubstitutionRequest.

Definition SubstitutionRequestSchema : Schema SubstitutionRequest.t :=
  z_object (λ p data,
    pr_pure SubstitutionRequest.Build_t
    <&> field p data "ingredients"
          (z_array (z_string []) (Some (1%nat, "At least one ingredient required")) None)
    <&> field p data "dietaryFilters"
          (z_default
             (λ p input,
                let '(v, iss) := z_optional (z_array (z_string []) None None) p input in
                (default [] <$> v, iss))
             (JArr []))
    <&> field p data "recipeName" (z_optional (z_string []))
    <&> field p data "recipeType" (z_optional (z_string []))).

(** ** The prompt templates *)

(** [lib/gemini.ts], lines 57-58, up to the ingredient list. *)
Definition recipe_prompt_intro : string :=
  Eval vm_compute in
  text (Str.join Str.nl
    [
     "";
     "You are a creative and experienced chef assistant. Generate 3 diverse recipe suggestions based on these available ingredients: "
    ]).

(** Lines 58-65, up to the serving count. *)
Definition recipe_prompt_requirements : string :=
  Eval vm_compute in
  text (Str.join Str.nl
    [
     ".";
     "";
     "Requirements:";
     "- Use primarily the provided ingredients (80%+ utilization)";
     "- Each recipe should be unique in cooking style and cuisine";
     "- Include accurate prep time, cook time, and difficulty level";
     "- Provide detailed step-by-step cooking instructions";
     "- Include complete nutritional information per serving ("
    ]).

(** Lines 65-66. *)
Definition recipe_prompt_substitutions : string :=
  Eval vm_compute in
  text (Str.join Str.nl
    [
     " servings total)";
     "- Suggest 2-3 ingredient substitutions for dietary flexibility";
     ""
    ]).

(** Lines 67-80, after the dietary clause and up to the serving count. *)
Definition recipe_prompt_shape : string :=
  Eval vm_compute in
  text (Str.join Str.nl
    [
     "";
     "";
     "Return response as valid JSON with this exact structure:";
     "{";
     "  'recipes': [";
     "    {";
     "      'name': 'Recipe Name',";
     "      'description': 'Brief appetizing description (max 100 chars)',";
     "      'cuisine': 'cuisine type',";
     "      'prepTime': '15 minutes',";
     "      'cookTime': '30 minutes',";
     "      'totalTime': '45 minutes',";
     "      'difficulty': 'Easy|Medium|Hard',";
     "      'servings': "
    ]).

(** Lines 80-110, the rest of the template. *)
Definition recipe_prompt_rest : string :=
  Eval vm_compute in
  text (Str.join Str.nl
    [
     ",";
     "      'ingredients': [";
     "        {";
     "          'name': 'ingredient name',";
     "          'amount': '1 cup',";
     "          'notes': 'optional preparation notes'";
     "        }";
     "      ],";
     "      'instructions': [";
     "        'Detailed step 1',";
     "        'Detailed step 2'";
     "      ],";
     "      'nutrition': {";
     "        'calories': 350,";
     "        'protein': '25g',";
     "        'carbs': '30g',";
     "        'fat': '15g',";
     "        'fiber': '5g',";
     "        'sugar': '8g'";
     "      },";
     "      'substitutions': {";
     "        'ingredient name': 'substitute option'";
     "      },";
     "      'tags': ['quick', 'healthy'],";
     "      'tips': 'Optional cooking tips or variations'";
     "    }";
     "  ]";
     "}";
     "";
     "Ensure all JSON is properly formatted and parseable. Do not include any text outside the JSON structure.";
     "    "
    ]).

(** Line 67 of the template. *)
Definition dietary_clause (dietaryFilters : list string) : string :=
  if (0 <? length dietaryFilters)%nat
  then "- Must comply with: " +:+ Str.join ", " dietaryFilters +:+ " dietary requirements"
  else "".

(** [app/api/substitutions/route.ts], lines 63-64, up to the ingredient list. *)
Definition subst_prompt_intro : string :=
  Eval vm_compute in
  text (Str.join Str.nl
    [
     "";
     "You are a culinary expert specializing in ingredient substitutions. Provide smart substitution suggestions for the following ingredients: "
    ]).

(** Lines 64-66. *)
Definition subst_prompt_context : string :=
  Eval vm_compute in
  text (Str.join Str.nl
    [
     ".";
     "";
     "Context:";
     ""
    ]).

(** The end of line 67. *)
Definition subst_prompt_nl1 : string :=
  Eval vm_compute in
  text (Str.join Str.nl
    [
     "";
     ""
    ]).

(** The end of line 68. *)
Definition subst_prompt_nl2 : string :=
  Eval vm_compute in
  text (Str.join Str.nl
    [
     "";
     ""
    ]).

(** Lines 69-100, after the dietary line. *)
Definition subst_prompt_rest : string :=
  Eval vm_compute in
  text (Str.join Str.nl
    [
     "";
     "";
     "For each ingredient, provide:";
     "1. 2-3 suitable substitutions";
     "2. Brief explanation of how it affects the recipe";
     "3. Quantity conversion if different";
     "4. Any preparation notes";
     "";
     "Return response as valid JSON with this structure:";
     "{";
     "  'substitutions': [";
     "    {";
     "      'original': 'ingredient name',";
     "      'alternatives': [";
     "        {";
     "          'substitute': 'substitute ingredient',";
     "          'ratio': '1:1' or '1 cup = 3/4 cup substitute',";
     "          'notes': 'How it affects flavor/texture',";
     "          'availability': 'common|specialty',";
     "          'dietaryTags': ['vegan', 'gluten-free', etc.]";
     "        }";
     "      ]";
     "    }";
     "  ],";
     "  'generalTips': [";
     "    'General substitution tip 1',";
     "    'General substitution tip 2'";
     "  ]";
     "}";
     "";
     "Focus on practical, readily available substitutions that maintain recipe quality.";
     "  "
    ]).

(** ** The identifier generator

    Modelled from the spec: [generateId] of [lib/utils.ts], which is
    imported by [lib/gemini.ts] but is not among the sources.  The spec
    asks for a locally generated identifier that does not collide within
    a single response batch (a time-based or random string generator
    suffices).  A generator is a step function on its own state;
    [ids_from n g] are the identifiers of [n] successive calls. *)

Fixpoint ids_from {G} (generateId : G → string * G) (n : nat) (g : G) : list string :=
  match n with
  | O => []
  | S n' => let '(i, g') := generateId g in i :: ids_from generateId n' g'
  end.

Fixpoint state_after {G} (generateId : G → string * G) (n : nat) (g : G) : G :=
  match n with
  | O => g
  | S n' => state_after generateId n' (generateId g).2
  end.


(** Modelled from the spec: a time-based generator, whose state is a
    tick counter. *)
Definition tick_generateId (n : nat) : string * nat := ("r" +:+ pretty n, S n).

(** ** A reference rendering of numbers

    [Number.prototype.toString] belongs to the host.  This rendering is
    used to run the model: decimal digits, with at most 17 digits of
    fraction. *)

Fixpoint fraction_digits (fuel : nat) (num den : Z) : string :=
  match fuel with
  | O => ""
  | S fuel' =>
      if (num =? 0)%Z then ""
      else pretty (10 * num / den)%Z +:+ fraction_digits fuel' ((10 * num) mod den)%Z den
  end.

Definition show_number (q : Q) : string :=
  let n := Z.abs (Qnum q) in
  let d := Z.pos (Qden q) in
  (if (Qnum q <? 0)%Z then "-" else "") +:+ pretty (n / d)%Z +:+
  (if (n mod d =? 0)%Z then "" else "." +:+ fraction_digits 17 (n mod d)%Z d).

Definition json_parse_ref (s : string) : string + json :=
  match json_read s with
  | Some v => inr v
  | None => inl "Unexpected token"
  end.

(** ** The pipeline: [lib/gemini.ts] and the route handlers *)

Record Response := {
  status : nat;
  body : json;
}.

(** [NextResponse.json(body, { status })] *)
Definition NextResponse_json (b : json) (st : nat) : Response :=
  {| status := st; body := b |}.

Definition path_json (p : list path_elem) : json :=
  JArr ((λ e, match e with
              | PKey k => JStr k
              | PIndex i => JNum (inject_Z (Z.of_nat i))
              end) <$> p).

(** [error.errors] as it is serialised; of each issue the path and the
    message are kept. *)
Definition issues_json (errors : list ZodIssue) : json :=
  JArr ((λ i, JObj [("path", path_json (path i)); ("message", JStr (message i))])
          <$> errors).

Definition exn_message (e : exn) : string :=
  match e with
  | ZodError errors =>
      match errors with
      | [] => ""
      | i :: _ => message i
      end
  | SyntaxError m | TypeError m | Error m
  | RecipeParsingError m _ | RecipeGenerationError m _ => m
  | Thrown _ => ""
  end.

Section Pipeline.

Context {G : Type}.

(** The host and the collaborators of the code:
    - [generateId], see above;
    - [JSON_parse]: the value, or the message of the SyntaxError;
    - [Number_toString]: how a template renders a number;
    - [model_generateContent]: the provider call with the reading of its
      text, which returns the completion or throws. *)
Variable generateId : G → string * G.
Variable JSON_parse : string → string + json.
Variable Number_toString : Q → string.
Variable model_generateContent : string → result string.

Definition generateId_call : M G string :=
  λ w, let '(i, g) := generateId (idgen w) in
       (Ok i, {| idgen := g; clock := clock w; trace := trace w |}).

Definition JSON_parse_call (s : string) : M G json :=
  match JSON_parse s with
  | inr v => ret v
  | inl m => throw (SyntaxError m)
  end.

(** [v.k]: reading a property of [null] throws; other values without the
    property give [undefined]. *)
Definition get_property (v : json) (k : string) : M G (option json) :=
  match v with
  | JNull => throw (TypeError ("Cannot read properties of null (reading '" +:+ k +:+ "')"))
  | JObj members => ret (lookup_member k members)
  | _ => ret None
  end.

(** [l.map(f)] with an effectful callback, in index order. *)
Fixpoint mapM {A B} (f : A → M G B) (l : list A) : M G (list B) :=
  match l with
  | [] => ret []
  | x :: rest => let* y := f x in let* ys := mapM f rest in ret (y :: ys)
  end.

(** [buildRecipePrompt], [lib/gemini.ts] lines 52-111. *)
Definition buildRecipePrompt (ingredients : list string) (dietaryFilters : list string)
  (servings : Q) : string :=
  Str.trim
    (recipe_prompt_intro +:+ Str.join ", " ingredients +:+
     recipe_prompt_requirements +:+ Number_toString servings +:+
     recipe_prompt_substitutions +:+ dietary_clause dietaryFilters +:+
     recipe_prompt_shape +:+ Number_toString servings +:+
     recipe_prompt_rest).

(** [{ ...recipe, id: generateId() }] *)
Definition with_id (recipe : json) (i : string) : json :=
  JObj (set_member "id" (JStr i) (spread recipe)).

(** The Domain Mapper: the callback of [parsed.recipes.map], lines 123-126. *)
Definition assign_id (recipe : json) : M G json :=
  let* i := generateId_call in ret (with_id recipe i).

(** [parseRecipeResponse], lines 113-131. *)
Definition parseRecipeResponse (response : string) : M G (list json) :=
  try_catch
    (let cleanResponse := Fence.cleanResponse response in
     let* parsed := JSON_parse_call cleanResponse in
     let* recipes := get_property parsed "recipes" in
     if negb (truthy recipes) || negb (Array_isArray recipes)
     then throw (Error "Invalid response format: missing recipes array")
     else
       match recipes with
       | Some (JArr items) => mapM assign_id items
       | _ => ret []
       end)
    (λ error,
       do console_error "Failed to parse recipe response:" in
       throw (RecipeParsingError "Failed to parse AI response" error)).

Definition model_call (prompt : string) : M G string :=
  do emit (ModelCalled prompt) in lift (model_generateContent prompt).

(** [generateRecipes], lines 25-40. *)
Definition generateRecipes (ingredients : list string) (dietaryFilters : list string)
  (servings : Q) : M G (list json) :=
  let prompt := buildRecipePrompt ingredients dietaryFilters servings in
  do emit (PromptBuilt prompt) in
  try_catch
    (let* response := model_call prompt in parseRecipeResponse response)
    (λ error,
       do console_error "Gemini API Error:" in
       throw (RecipeGenerationError "Failed to generate recipes" error)).

(** [generateContent], lines 42-50. *)
Definition generateContent (prompt : string) : M G string :=
  try_catch
    (model_call prompt)
    (λ error,
       do console_error "Gemini API Error:" in
       throw (RecipeGenerationError "Failed to generate content" error)).

(** [POST] of [app/api/recipes/route.ts]; [request_json] is the outcome
    of [await request.json()]. *)
Definition POST_recipes (request_json : result json) : M G Response :=
  try_catch
    (let* body := lift request_json in
     let* validatedData := lift (zod_parse IngredientInputSchema body) in
     let* recipes := generateRecipes (IngredientInput.ingredients validatedData)
                  (IngredientInput.dietaryFilters validatedData)
                  (IngredientInput.servings validatedData) in
     let* now := Date_now in
     ret (NextResponse_json
            (JObj [("success", JBool true);
                   ("recipes", JArr recipes);
                   ("totalCount", JNum (inject_Z (Z.of_nat (length recipes))));
                   ("processingTime", JNum now)]) 200))
    (λ error,
       do console_error "API Error:" in
       match error with
       | ZodError errors =>
           ret (NextResponse_json
                  (JObj [("success", JBool false);
                         ("error", JStr "Validation Error");
                         ("message", JStr "Invalid input data");
                         ("details", issues_json errors)]) 400)
       | _ =>
           if instanceof_Error error then
             ret (NextResponse_json
                    (JObj [("success", JBool false);
                           ("error", JStr (exn_name error));
                           ("message", JStr (exn_message error))]) 500)
           else
             ret (NextResponse_json
                    (JObj [("success", JBool false);
                           ("error", JStr "Unknown Error");
                           ("message", JStr "An unexpected error occurred")]) 500)
       end).

(** [${x ? `label${x}` : ''}] for an optional string. *)
Definition optional_line (label : string) (x : option string) : string :=
  match x with
  | Some s => if String.eqb s "" then "" else label +:+ s
  | None => ""
  end.

(** The prompt of [generateSubstitutions], lines 63-100. *)
Definition substitutionPrompt (ingredients dietaryFilters : list string)
  (recipeName recipeType : option string) : string :=
  Str.trim
    (subst_prompt_intro +:+ Str.join ", " ingredients +:+
     subst_prompt_context +:+ optional_line "- Recipe: " recipeName +:+
     subst_prompt_nl1 +:+ optional_line "- Recipe Type: " recipeType +:+
     subst_prompt_nl2 +:+
     (if (0 <? length dietaryFilters)%nat
      then "- Dietary Requirements: " +:+ Str.join ", " dietaryFilters else "") +:+
     subst_prompt_rest).

(** Lines 106-114: from the completion text to the returned value. *)
Definition readSubstitutions (response : string) : M G json :=
  let cleanResponse := Fence.cleanResponse response in
  let* parsed := JSON_parse_call cleanResponse in
  let* substitutions := get_property parsed "substitutions" in
  if negb (truthy substitutions)
  then throw (Error "Invalid substitution response format")
  else ret parsed.

(** [generateSubstitutions], lines 57-119. *)
Definition generateSubstitutions (ingredients dietaryFilters : list string)
  (recipeName recipeType : option string) : M G json :=
  let prompt := substitutionPrompt ingredients dietaryFilters recipeName recipeType in
  do emit (PromptBuilt prompt) in
  try_catch
    (let* response := generateContent prompt in readSubstitutions response)
    (λ error,
       do console_error "Failed to generate substitutions:" in
       throw (Error "Failed to generate ingredient substitutions")).

(** [POST] of [app/api/substitutions/route.ts], lines 12-55. *)
Definition POST_substitutions (request_json : result json) : M G Response :=
  try_catch
    (let* body := lift request_json in
     let* validatedData := lift (zod_parse SubstitutionRequestSchema body) in
     let* substitutions := generateSubstitutions
                        (SubstitutionRequest.ingredients validatedData)
                        (SubstitutionRequest.dietaryFilters validatedData)
                        (SubstitutionRequest.recipeName validatedData)
                        (SubstitutionRequest.recipeType validatedData) in
     let* now := Date_now in
     ret (NextResponse_json
            (JObj [("success", JBool true);
                   ("substitutions", substitutions);
                   ("processingTime", JNum now)]) 200))
    (λ error,
       do console_error "Substitution API Error:" in
       match error with
       | ZodError errors =>
           ret (NextResponse_json
                  (JObj [("success", JBool false);
                         ("error", JStr "Validation Error");
                         ("message", JStr "Invalid input data");
                         ("details", issues_json errors)]) 400)
       | _ =>
           ret (NextResponse_json
                  (JObj [("success", JBool false);
                         ("error", JStr "Substitution Error");
                         ("message",
                          JStr (if instanceof_Error error then exn_message error
                                else "Failed to generate substitutions"))]) 500)
       end).

End Pipeline.

(** The request body that the client sends: [JSON.stringify] of an object
    with the ingredient list and, when present, the other two fields. *)
Definition optional_member (k : string) (v : option json) : list (string * json) :=
  match v with
  | Some x => [(k, x)]
  | None => []
  end.

Definition request_body (ingredients : json) (dietaryFilters servings : option json) : json :=
  JObj (("ingredients", ingredients) ::
        optional_member "dietaryFilters" dietaryFilters ++
        optional_member "servings" servings).

Definition strings_json (l : list string) : json := JArr (JStr <$> l).

(** ** The ingredient form: [components/forms/ingredient-input.tsx] *)

Definition is_letter (c : ascii) : bool :=
  let n := nat_of_ascii c in
  ((65 <=? n) && (n <=? 90) || (97 <=? n) && (n <=? 122))%nat.

Fixpoint all_chars (f : ascii → bool) (s : string) : bool :=
  match s with
  | "" => true
  | String c r => f c && all_chars f r
  end.

(** The allow-list pattern of the ingredient strings, in the words of the
    spec: letters, spaces, hyphens only; length at most 50; non-empty
    after trimming. *)
Definition matches_allow_list (s : string) : bool :=
  all_chars (λ c, is_letter c || Ascii.eqb c " " || Ascii.eqb c "-") s
  && (String.length s <=? 50)%nat
  && negb (String.eqb (Str.trim s) "").

Module Form.

Section Entry.

(** [isValidIngredient] of [lib/utils.ts] is not among the sources; the
    form is parametric in it. *)
Variable isValidIngredient : string → bool.

Record state := {
  ingredients : list string;
  currentIngredient : string;
  dietaryFilters : list string;
  servings : Q;
  validationError : option string;
}.

Definition setValidationError (e : option string) (st : state) : state :=
  {| ingredients := ingredients st;
     currentIngredient := currentIngredient st;
     dietaryFilters := dietaryFilters st;
     servings := servings st;
     validationError := e |}.

(** [addIngredient], lines 26-49. *)
Definition addIngredient (st : state) : state :=
  let trimmed := Str.trim (currentIngredient st) in
  if String.eqb trimmed "" then st
  else if negb (isValidIngredient trimmed) then
    setValidationError
      (Some "Please enter a valid ingredient (letters, spaces, hyphens only)") st
  else if bool_decide (Str.toLowerCase trimmed ∈ ingredients st) then
    setValidationError (Some "This ingredient is already added") st
  else if (15 <=? length (ingredients st))%nat then
    setValidationError (Some "Maximum 15 ingredients allowed") st
  else
    {| ingredients := ingredients st ++ [trimmed];
       currentIngredient := "";
       dietaryFilters := dietaryFilters st;
       servings := servings st;
       validationError := None |}.

Inductive outcome :=
| Submitted (data : IngredientInput.t)
| Rejected (validationError : string).

(** [handleSubmit], lines 62-77: what is passed to [onSubmit], or the
    message that is shown. *)
Definition handleSubmit (st : state) : outcome :=
  match zod_parse IngredientInputSchema
          (request_body (strings_json (ingredients st))
             (Some (strings_json (dietaryFilters st)))
             (Some (JNum (servings st)))) with
  | Ok data => Submitted data
  | Throw (ZodError (i :: _)) =>
      Rejected (if String.eqb (message i) "" then "Invalid input data" else message i)
  | Throw _ => Rejected "Invalid input data"
  end.

End Entry.

End Form.

(** ** The client state: [hooks/use-recipes.ts] *)

Module UseRecipes.

Section Hook.

Context {Recipe : Type}.

Record RecipeState := {
  recipes : list Recipe;
  selectedRecipe : option Recipe;
  loading : bool;
  error : option string;
}.

(** Lines 15-20. *)
Definition initial : RecipeState :=
  {| recipes := []; selectedRecipe := None; loading := false; error := None |}.

(** Line 23, the update at the start of [generateRecipes]. *)
Definition generate_start (prev : RecipeState) : RecipeState :=
  {| recipes := recipes prev; selectedRecipe := selectedRecipe prev;
     loading := true; error := None |}.

(** Lines 40-44; [data_recipes] is [data.recipes], falsy when [None]. *)
Definition generate_success (data_recipes : option (list Recipe)) (prev : RecipeState)
  : RecipeState :=
  {| recipes := default [] data_recipes; selectedRecipe := selectedRecipe prev;
     loading := false; error := error prev |}.

(** Lines 45-51, the update in the catch block. *)
Definition generate_failure (e : exn) (prev : RecipeState) : RecipeState :=
  {| recipes := recipes prev; selectedRecipe := selectedRecipe prev;
     loading := false;
     error := Some (if instanceof_Error e then exn_message e
                    else "Unknown error occurred") |}.

(** Lines 55-57. *)
Definition clearRecipes (prev : RecipeState) : RecipeState :=
  {| recipes := []; selectedRecipe := None;
     loading := loading prev; error := error prev |}.

(** Lines 59-61. *)
Definition selectRecipe (recipe : option Recipe) (prev : RecipeState) : RecipeState :=
  {| recipes := recipes prev; selectedRecipe := recipe;
     loading := loading prev; error := error prev |}.

(** Lines 63-65. *)
Definition clearError (prev : RecipeState) : RecipeState :=
  {| recipes := recipes prev; selectedRecipe := selectedRecipe prev;
     loading := loading prev; error := None |}.

(** The state updates that the hook performs. *)
Inductive update :=
| GenerateStart
| GenerateSuccess (data_recipes : option (list Recipe))
| GenerateFailure (e : exn)
| ClearRecipes
| SelectRecipe (recipe : option Recipe)
| ClearError.

Definition apply (u : update) (prev : RecipeState) : RecipeState :=
  match u with
  | GenerateStart => generate_start prev
  | GenerateSuccess d => generate_success d prev
  | GenerateFailure e => generate_failure e prev
  | ClearRecipes => clearRecipes prev
  | SelectRecipe r => selectRecipe r prev
  | ClearError => clearError prev
  end.

(** The runs of the hook: [pending] counts the calls of [generateRecipes]
    that have started and not yet completed; a completion belongs to a
    call that has started. *)
Inductive step : nat * RecipeState → update → nat * RecipeState → Prop :=
| step_start n s :
    step (n, s) GenerateStart (S n, generate_start s)
| step_success n s d :
    step (S n, s) (GenerateSuccess d) (n, generate_success d s)
| step_failure n s e :
    step (S n, s) (GenerateFailure e) (n, generate_failure e s)
| step_clearRecipes n s :
    step (n, s) ClearRecipes (n, clearRecipes s)
| step_selectRecipe n s r :
    step (n, s) (SelectRecipe r) (n, selectRecipe r s)
| step_clearError n s :
    step (n, s) ClearError (n, clearError s).

Inductive reachable : nat * RecipeState → Prop :=
| reachable_initial : reachable (0%nat, initial)
| reachable_step c u c' : reachable c → step c u c' → reachable c'.

(** The runs in which a call starts only when none is in flight, as the
    form enforces with [canSubmit]. *)
Inductive reachable_one_at_a_time : nat * RecipeState → Prop :=
| one_initial : reachable_one_at_a_time (0%nat, initial)
| one_step c u c' :
    reachable_one_at_a_time c → step c u c' →
    (u = GenerateStart → loading c.2 = false) →
    reachable_one_at_a_time c'.

(** The invariant of the state: no error while loading. *)
Definition settled (s : RecipeState) : Prop := loading s = true → error s = None.

End Hook.

Arguments RecipeState : clear implicits.
Arguments update : clear implicits.

End UseRecipes.


(** ** The vocabulary of the statements *)

(** A parse that aborts has reported an issue. *)
Definition reports {A} (r : ParseReturn A) : Prop := r.1 = None → r.2 ≠ [].

(** What the schema asks of an ingredient string. *)
Definition length_ok (s : string) : Prop := (1 ≤ String.length s ≤ 50)%nat.

(** Input validation succeeds on a request body. *)
Definition validates (body : json) : bool :=
  match zod_parse IngredientInputSchema body with
  | Ok _ => true
  | Throw _ => false
  end.

(** [Number.isInteger] *)
Definition is_integer (q : Q) : bool := (Qnum q mod Z.pos (Qden q) =? 0)%Z.

(** The other two fields of a request are valid, or absent. *)
Definition filters_ok (filters : option (list string)) : Prop :=
  Forall (λ s, s ∈ DietaryFilter_values) (default [] filters).

Definition servings_ok (servings : option Q) : Prop :=
  ∀ q, servings = Some q → (1 <= q ∧ q <= 12)%Q.

(** The 400 response of the routes. *)
Definition validation_error_response (errors : list ZodIssue) : Response :=
  NextResponse_json
    (JObj [("success", JBool false);
           ("error", JStr "Validation Error");
           ("message", JStr "Invalid input data");
           ("details", issues_json errors)]) 400.

(** The events of the prompt builder and of the model invoker. *)
Definition is_model_event (e : event) : bool :=
  match e with
  | PromptBuilt _ | ModelCalled _ => true
  | ConsoleError _ => false
  end.

(** [v.k] when it does not throw. *)
Definition property (k : string) (v : json) : option json :=
  match v with
  | JObj members => lookup_member k members
  | _ => None
  end.

(** The items of an array-typed field [k] of [v], if [v] has one. *)
Definition array_field (k : string) (v : json) : option (list json) :=
  match property k v with
  | Some (JArr items) => Some items
  | _ => None
  end.

(** The world after a [console.error]. *)
Definition logged {G} (label : string) (w : world G) : world G :=
  {| idgen := idgen w; clock := clock w; trace := trace w ++ [ConsoleError label] |}.

(** The outcome of the catch block of [parseRecipeResponse]. *)
Definition parse_failure {G A} (cause : exn) (w : world G) : result A * world G :=
  (Throw (RecipeParsingError "Failed to parse AI response" cause),
   logged "Failed to parse recipe response:" w).

(** Line 120 of [lib/gemini.ts]. *)
Definition missing_recipes : exn := Error "Invalid response format: missing recipes array".

Definition is_SyntaxError (e : exn) : bool :=
  match e with
  | SyntaxError _ => true
  | _ => false
  end.

(** The world after the events [es]. *)
Definition add_events {G} (es : list event) (w : world G) : world G :=
  {| idgen := idgen w; clock := clock w; trace := trace w ++ es |}.

(** Line 117 of [app/api/substitutions/route.ts]. *)
Definition substitution_failure : exn := Error "Failed to generate ingredient substitutions".

(** A world to run the examples in, with the tick generator. *)
Definition world0 : world nat := {| idgen := 0%nat; clock := 0; trace := [] |}.

(** The 200 response of the recipe route. *)
Definition recipes_response (recipes : list json) (now : Z) : Response :=
  NextResponse_json
    (JObj [("success", JBool true);
           ("recipes", JArr recipes);
           ("totalCount", JNum (inject_Z (Z.of_nat (length recipes))));
           ("processingTime", JNum (inject_Z now))]) 200.

(** Scenario 1 of the spec: chicken and rice, no filters, default servings. *)
Definition two_ingredients : json := request_body (strings_json ["chicken"; "rice"]) None None.

(** A completion of the shape that the substitution prompt asks for. *)
Definition documented_completion : string :=
  text "{'substitutions':[{'original':'butter','alternatives':[]}],'generalTips':['tip']}".

(** The opening of the recipe prompt. *)
Definition three_variants : string :=
  "You are a creative and experienced chef assistant. Generate 3 diverse recipe suggestions".

(** ** More of the routes *)

(** What a completion gives to [parseRecipeResponse]: the items of its
    recipes array, or the cause of the failure. *)
Definition completion_recipes (JSON_parse : string → string + json) (response : string)
  : exn + list json :=
  match JSON_parse (Fence.cleanResponse response) with
  | inl m => inl (SyntaxError m)
  | inr JNull => inl (TypeError "Cannot read properties of null (reading 'recipes')")
  | inr v =>
      match array_field "recipes" v with
      | Some items => inr items
      | None => inl missing_recipes
      end
  end.

(** The 500 response of the routes for an error that is an [Error]. *)
Definition error_response (name msg : string) : Response :=
  NextResponse_json
    (JObj [("success", JBool false); ("error", JStr name); ("message", JStr msg)]) 500.

(** The 500 response of the recipe route when the generation fails. *)
Definition generation_error_response : Response :=
  error_response "RecipeGenerationError" "Failed to generate recipes".

(** The 500 response of the substitution route when the generation fails. *)
Definition substitution_error_response : Response :=
  error_response "Substitution Error" "Failed to generate ingredient substitutions".

(** The response of the catch block of the recipe route, lines 123-157. *)
Definition recipes_catch (error : exn) : Response :=
  match error with
  | ZodError errors => validation_error_response errors
  | _ =>
      if instanceof_Error error
      then error_response (exn_name error) (exn_message error)
      else error_response "Unknown Error" "An unexpected error occurred"
  end.

(** The response of the catch block of the substitution route, lines 31-54. *)
Definition substitutions_catch (error : exn) : Response :=
  match error with
  | ZodError errors => validation_error_response errors
  | _ =>
      error_response "Substitution Error"
        (if instanceof_Error error then exn_message error
         else "Failed to generate substitutions")
  end.

(** The 200 response of the substitution route. *)
Definition substitutions_response (substitutions : json) (now : Z) : Response :=
  NextResponse_json
    (JObj [("success", JBool true);
           ("substitutions", substitutions);
           ("processingTime", JNum (inject_Z now))]) 200.

(** A parse has given a value and reported no issue. *)
Definition accepted {A} (r : ParseReturn A) : bool :=
  match r with
  | (Some _, []) => true
  | _ => false
  end.

(** The body of a substitution request, as a client builds it from typed
    values: the members that are absent are left out. *)
Definition substitution_body (ingredients : list string)
  (dietaryFilters : option (list string)) (recipeName recipeType : option string) : json :=
  JObj (("ingredients", strings_json ingredients) ::
        optional_member "dietaryFilters" (strings_json <$> dietaryFilters) ++
        optional_member "recipeName" (JStr <$> recipeName) ++
        optional_member "recipeType" (JStr <$> recipeType)).

(** The prompt that the recipe route builds for validated data. *)
Definition prompt_of (Number_toString : Q → string) (data : IngredientInput.t) : string :=
  buildRecipePrompt Number_toString (IngredientInput.ingredients data)
    (IngredientInput.dietaryFilters data) (IngredientInput.servings data).

(** The model events among the events [es]. *)
Definition model_events (es : list event) : list event := filter (λ e, is_model_event e) es.

(** ** More of the ingredient form *)

(** [removeIngredient], [components/forms/ingredient-input.tsx] lines 51-53:
    [prev.filter((_, i) => i !== index)]. *)
Fixpoint filter_index {A} (keep : nat → bool) (l : list A) : list A :=
  match l with
  | [] => []
  | x :: rest =>
      let kept := filter_index (keep ∘ S) rest in
      if keep 0%nat then x :: kept else kept
  end.

Definition removeIngredient (index : nat) (ingredients : list string) : list string :=
  filter_index (λ i, negb (i =? index)%nat) ingredients.

(** ** [parseInt] *)

Definition is_digit (c : ascii) : bool :=
  let n := nat_of_ascii c in ((48 <=? n) && (n <=? 57))%nat.

(** The longest run of digits of the radix at the head of [s]; [acc] is
    the value read so far, if a digit has been read. *)
Fixpoint read_radix (digit : ascii → option Z) (radix : Z) (acc : option Z) (s : string)
  : option Z :=
  match s with
  | String c r =>
      match digit c with
      | Some d => read_radix digit radix (Some (radix * default 0%Z acc + d)%Z) r
      | None => acc
      end
  | "" => acc
  end.

(** [parseInt(s)] without a radix; [None] is NaN.  The value is the
    integer that the digits denote; JavaScript rounds it to a double:
    the same number up to 2^53, and beyond that a number, or Infinity,
    on the same side of every constant of this program. *)
Definition parseInt (s : string) : option Z :=
  let s1 := Str.trimStart s in
  let neg := head_is "-" s1 in
  let s2 := if neg || head_is "+" s1 then tail s1 else s1 in
  let v := if Str.startsWith "0x" s2 || Str.startsWith "0X" s2
           then read_radix hex_of 16 None (tail (tail s2))
           else read_radix digit_of 10 None s2 in
  (λ z, if neg then (- z)%Z else z) <$> v.

(** [parseInt(s) || d] *)
Definition parseInt_or (d : Z) (s : string) : Z :=
  match parseInt s with
  | Some z => if (z =? 0)%Z then d else z
  | None => d
  end.

Fixpoint filter_chars (keep : ascii → bool) (s : string) : string :=
  match s with
  | "" => ""
  | String c r => if keep c then String c (filter_chars keep r) else filter_chars keep r
  end.

(** [s.replace(/\D/g, '')] *)
Definition digits_only (s : string) : string := filter_chars is_digit s.

Definition digit_or_dot (c : ascii) : bool := is_digit c || Ascii.eqb c ".".


(** The change handler of the servings input, lines 184-185:
    [setServings(parseInt(e.target.value) || 4)]. *)
Definition servings_of_input (value : string) : Q := inject_Z (parseInt_or 4 value).


(** ** The dietary options: [_data/dietary-options.ts] and the filter picker *)

Module DietaryOption.
(** The icon and the two colour classes of an option are left out. *)
Record t := {
  value : string;
  label : string;
  description : string;
}.
End DietaryOption.

Definition DIETARY_OPTIONS : list DietaryOption.t :=
  [ {| DietaryOption.value := "vegetarian"; DietaryOption.label := "Vegetarian";
       DietaryOption.description := "No meat, poultry, or seafood" |};
    {| DietaryOption.value := "vegan"; DietaryOption.label := "Vegan";
       DietaryOption.description := "No animal products whatsoever" |};
    {| DietaryOption.value := "gluten-free"; DietaryOption.label := "Gluten-Free";
       DietaryOption.description := "No wheat, barley, rye, or gluten" |};
    {| DietaryOption.value := "dairy-free"; DietaryOption.label := "Dairy-Free";
       DietaryOption.description := "No milk, cheese, or dairy products" |};
    {| DietaryOption.value := "keto"; DietaryOption.label := "Keto";
       DietaryOption.description := "Low-carb, high-fat ketogenic diet" |};
    {| DietaryOption.value := "paleo"; DietaryOption.label := "Paleo";
       DietaryOption.description := "Natural, unprocessed whole foods" |} ].

(** [Array.prototype.find] *)
Fixpoint find_first {A} (p : A → bool) (l : list A) : option A :=
  match l with
  | [] => None
  | x :: rest => if p x then Some x else find_first p rest
  end.

Definition getDietaryOption (f : string) : option DietaryOption.t :=
  find_first (λ option, String.eqb (DietaryOption.value option) f) DIETARY_OPTIONS.

Definition getDietaryFilterLabels (filters : list string) : list string :=
  (λ f, match getDietaryOption f with
        | Some option => DietaryOption.label option
        | None => f
        end) <$> filters.

(** [handleToggle] of the filter picker, lines 13-19: the list that is
    passed to [onChange]. *)
Definition handleToggle (selectedFilters : list string) (f : string) : list string :=
  if bool_decide (f ∈ selectedFilters)
  then filter (λ g, g ≠ f) selectedFilters
  else selectedFilters ++ [f].

(** ** The runs of the form

    What the user does to the form: typing into the entry field, adding
    the entry, removing an item, ticking an offered dietary option,
    clearing the options and changing the servings input.  Each event is
    handled in the state that the previous one has left. *)

Inductive form_event :=
| Type_ (value : string)
| Add
| Remove (index : nat)
| Toggle (option : DietaryOption.t)
| ClearAll
| Servings (value : string).

Definition form_initial : Form.state :=
  {| Form.ingredients := []; Form.currentIngredient := "";
     Form.dietaryFilters := []; Form.servings := 4; Form.validationError := None |}.

Definition setCurrentIngredient (value : string) (st : Form.state) : Form.state :=
  {| Form.ingredients := Form.ingredients st;
     Form.currentIngredient := value;
     Form.dietaryFilters := Form.dietaryFilters st;
     Form.servings := Form.servings st;
     Form.validationError := Form.validationError st |}.

Definition setIngredients (f : list string → list string) (st : Form.state) : Form.state :=
  {| Form.ingredients := f (Form.ingredients st);
     Form.currentIngredient := Form.currentIngredient st;
     Form.dietaryFilters := Form.dietaryFilters st;
     Form.servings := Form.servings st;
     Form.validationError := Form.validationError st |}.

Definition setDietaryFilters (filters : list string) (st : Form.state) : Form.state :=
  {| Form.ingredients := Form.ingredients st;
     Form.currentIngredient := Form.currentIngredient st;
     Form.dietaryFilters := filters;
     Form.servings := Form.servings st;
     Form.validationError := Form.validationError st |}.

Definition setServings (servings : Q) (st : Form.state) : Form.state :=
  {| Form.ingredients := Form.ingredients st;
     Form.currentIngredient := Form.currentIngredient st;
     Form.dietaryFilters := Form.dietaryFilters st;
     Form.servings := servings;
     Form.validationError := Form.validationError st |}.

Definition form_step (isValidIngredient : string → bool) (st : Form.state) (e : form_event)
  : Form.state :=
  match e with
  | Type_ value => setCurrentIngredient value st
  | Add => Form.addIngredient isValidIngredient st
  | Remove index => setIngredients (removeIngredient index) st
  | Toggle option =>
      setDietaryFilters (handleToggle (Form.dietaryFilters st) (DietaryOption.value option)) st
  | ClearAll => setDietaryFilters [] st
  | Servings value => setServings (servings_of_input value) st
  end.

(** A tick is on one of the offered options. *)
Definition offered (e : form_event) : Prop :=
  match e with
  | Toggle o => o ∈ DIETARY_OPTIONS
  | _ => True
  end.

Definition form_run (isValidIngredient : string → bool) (es : list form_event) : Form.state :=
  foldl (form_step isValidIngredient) form_initial es.

(** What holds of the form in every run. *)
Definition form_ok (isValidIngredient : string → bool) (st : Form.state) : Prop :=
  (length (Form.ingredients st) ≤ 15)%nat ∧
  Forall (λ s, s ≠ "" ∧ isValidIngredient s = true) (Form.ingredients st) ∧
  NoDup (Form.dietaryFilters st) ∧
  filters_ok (Some (Form.dietaryFilters st)) ∧
  is_integer (Form.servings st) = true ∧
  ¬ (Form.servings st == 0)%Q.

(** The verdict of [handleSubmit] by the two things it can still find
    wrong in a run of the form. *)
Definition submit_verdict (st : Form.state) : Form.outcome :=
  if (length (Form.ingredients st) <? 2)%nat
  then Form.Rejected "Please enter at least 2 ingredients"
  else if negb (Qle_bool 1 (Form.servings st))
  then Form.Rejected "At least 1 serving required"
  else if negb (Qle_bool (Form.servings st) 12)
  then Form.Rejected "Maximum 12 servings allowed"
  else Form.Submitted
         {| IngredientInput.ingredients := Form.ingredients st;
            IngredientInput.dietaryFilters := Form.dietaryFilters st;
            IngredientInput.servings := Form.servings st;
            IngredientInput.maxPrepTime := None |}.

(** A recipe that satisfies the schema. *)
Definition plain_recipe : json :=
  JObj [("id", JStr "old"); ("name", JStr "Rice"); ("description", JStr "Boiled rice");
        ("cuisine", JStr "Any"); ("prepTime", JStr "5 minutes");
        ("cookTime", JStr "15 minutes"); ("totalTime", JStr "20 minutes");
        ("difficulty", JStr "Easy"); ("servings", JNum 4);
        ("ingredients", JArr [JObj [("name", JStr "rice"); ("amount", JStr "1 cup")]]);
        ("instructions", JArr [JStr "Boil."]);
        ("nutrition", JObj [("calories", JNum 200); ("protein", JStr "4g");
                            ("carbs", JStr "45g"); ("fat", JStr "0g");
                            ("fiber", JStr "1g"); ("sugar", JStr "0g")]);
        ("substitutions", JObj []); ("tags", JArr [JStr "vegan"])].

(** The same recipe as a record. *)
Definition rice_recipe : Recipe.t :=
  {| Recipe.id := "old"; Recipe.name := "Rice"; Recipe.description := "Boiled rice";
     Recipe.cuisine := "Any"; Recipe.prepTime := "5 minutes";
     Recipe.cookTime := "15 minutes"; Recipe.totalTime := "20 minutes";
     Recipe.difficulty := "Easy"; Recipe.servings := 4;
     Recipe.ingredients :=
       [{| Ingredient.name := "rice"; Ingredient.amount := "1 cup";
           Ingredient.notes := None |}];
     Recipe.instructions := ["Boil."];
     Recipe.nutrition :=
       {| NutritionInfo.calories := 200; NutritionInfo.protein := "4g";
          NutritionInfo.carbs := "45g"; NutritionInfo.fat := "0g";
          NutritionInfo.fiber := "1g"; NutritionInfo.sugar := "0g" |};
     Recipe.substitutions := []; Recipe.tags := ["vegan"];
     Recipe.tips := None; Recipe.image := None |}.


(** ** The suggestion list: [_data/common-ingredients.ts] and
       [components/forms/ingredient-suggestions.tsx] *)

Module IngredientSuggestion.
Record t := {
  name : string;
  category : string;
  common : bool;
}.
End IngredientSuggestion.

Definition suggestion (name category : string) (common : bool) : IngredientSuggestion.t :=
  {| IngredientSuggestion.name := name;
     IngredientSuggestion.category := category;
     IngredientSuggestion.common := common |}.

Definition COMMON_INGREDIENTS : list IngredientSuggestion.t :=
  [ suggestion "chicken breast" "protein" true;
    suggestion "ground beef" "protein" true;
    suggestion "salmon" "protein" true;
    suggestion "eggs" "protein" true;
    suggestion "tofu" "protein" true;
    suggestion "beans" "protein" true;
    suggestion "onions" "vegetable" true;
    suggestion "garlic" "vegetable" true;
    suggestion "tomatoes" "vegetable" true;
    suggestion "bell peppers" "vegetable" true;
    suggestion "carrots" "vegetable" true;
    suggestion "potatoes" "vegetable" true;
    suggestion "spinach" "vegetable" true;
    suggestion "broccoli" "vegetable" true;
    suggestion "rice" "grain" true;
    suggestion "pasta" "grain" true;
    suggestion "bread" "grain" true;
    suggestion "quinoa" "grain" false;
    suggestion "oats" "grain" true;
    suggestion "milk" "dairy" true;
    suggestion "cheese" "dairy" true;
    suggestion "yogurt" "dairy" true;
    suggestion "butter" "dairy" true;
    suggestion "olive oil" "pantry" true;
    suggestion "salt" "pantry" true;
    suggestion "black pepper" "pantry" true;
    suggestion "flour" "pantry" true;
    suggestion "sugar" "pantry" true;
    suggestion "basil" "herb" true;
    suggestion "oregano" "herb" true;
    suggestion "thyme" "herb" true;
    suggestion "rosemary" "herb" false;
    suggestion "paprika" "spice" true;
    suggestion "cumin" "spice" false ].

Definition searchIngredients (query : string) : list IngredientSuggestion.t :=
  let lowercaseQuery := Str.toLowerCase query in
  take 8 (List.filter
            (λ ingredient,
               Str.includes lowercaseQuery
                 (Str.toLowerCase (IngredientSuggestion.name ingredient)))
            COMMON_INGREDIENTS).

Module Suggestions.

(** The effect of lines 28-42: the list that is shown for the debounced
    value of the entry field. *)
Definition suggestions (debouncedValue : string) (excludeIngredients : list string)
  : list string :=
  if (2 <=? String.length debouncedValue)%nat then
    take 6 (List.filter (λ name, negb (bool_decide (name ∈ excludeIngredients)))
              (IngredientSuggestion.name <$> searchIngredients debouncedValue))
  else [].

(** The state of the list: whether it is shown, and the selected index,
    -1 for no selection. *)
Record nav := {
  isVisible : bool;
  selectedIndex : Z;
}.

(** The state that the effect of lines 28-42 leaves for the list [l]. *)
Definition shown (l : list string) : nav :=
  {| isVisible := (0 <? length l)%nat; selectedIndex := -1 |}.

Inductive key := ArrowDown | ArrowUp | Enter | Escape.

(** [handleSelect], lines 85-89, on the state. *)
Definition handleSelect (st : nav) : nav :=
  {| isVisible := false; selectedIndex := -1 |}.

(** [handleKeyDown], lines 44-71, on the state, for the list [l]. *)
Definition handleKeyDown (l : list string) (st : nav) (k : key) : nav :=
  if negb (isVisible st) || (length l =? 0)%nat then st
  else
    let n := Z.of_nat (length l) in
    let prev := selectedIndex st in
    match k with
    | ArrowDown =>
        {| isVisible := isVisible st;
           selectedIndex := if (prev <? n - 1)%Z then (prev + 1)%Z else 0%Z |}
    | ArrowUp =>
        {| isVisible := isVisible st;
           selectedIndex := if (0 <? prev)%Z then (prev - 1)%Z else (n - 1)%Z |}
    | Enter => if (0 <=? prev)%Z then handleSelect st else st
    | Escape => {| isVisible := false; selectedIndex := -1 |}
    end.

(** What Enter passes to [onSelect], if it selects: [suggestions[selectedIndex]],
    which is [None] when the index is outside the list. *)
Definition selection (l : list string) (st : nav) : option (option string) :=
  if negb (isVisible st) || (length l =? 0)%nat then None
  else if (0 <=? selectedIndex st)%Z then Some (l !! Z.to_nat (selectedIndex st))
  else None.

(** The state after the keys [ks], from the state in which the list is
    first shown. *)
Definition after_keys (l : list string) (ks : list key) : nav :=
  foldl (handleKeyDown l) (shown l) ks.

End Suggestions.

(** ** The result filters: [RecipeFilters] *)

Module Filters.

Record FilterState := {
  search : string;
  maxPrepTime : Q;
  servings : list Q;
  difficulty : list string;
  cuisine : list string;
  dietary : list string;
  maxCalories : Q;
}.

(** Lines 72-80 and 164-172. *)
Definition defaultFilters : FilterState :=
  {| search := ""; maxPrepTime := 999; servings := []; difficulty := [];
     cuisine := []; dietary := []; maxCalories := 2000 |}.

Definition lower_includes (searchLower s : string) : bool :=
  Str.includes searchLower (Str.toLowerCase s).

Definition nonempty {A} (l : list A) : bool := (0 <? length l)%nat.

(** The seven tests of [applyFilters], each with the condition under
    which it is applied. *)
Definition search_active (f : FilterState) : bool := negb (String.eqb (search f) "").

Definition search_test (f : FilterState) (recipe : Recipe.t) : bool :=
  let searchLower := Str.toLowerCase (search f) in
  lower_includes searchLower (Recipe.name recipe) ||
  lower_includes searchLower (Recipe.description recipe) ||
  existsb (λ ing, lower_includes searchLower (Ingredient.name ing)) (Recipe.ingredients recipe) ||
  existsb (λ tag, lower_includes searchLower tag) (Recipe.tags recipe).

Definition prepTime_active (f : FilterState) : bool := Qlt_bool (maxPrepTime f) 999.

Definition prepTime_test (f : FilterState) (recipe : Recipe.t) : bool :=
  let prepTime := parseInt_or 0 (digits_only (Recipe.prepTime recipe)) in
  Qle_bool (inject_Z prepTime) (maxPrepTime f).

Definition servings_test (f : FilterState) (recipe : Recipe.t) : bool :=
  existsb (Qeq_bool (Recipe.servings recipe)) (servings f).

Definition difficulty_test (f : FilterState) (recipe : Recipe.t) : bool :=
  bool_decide (Recipe.difficulty recipe ∈ difficulty f).

Definition cuisine_test (f : FilterState) (recipe : Recipe.t) : bool :=
  bool_decide (Recipe.cuisine recipe ∈ cuisine f).

Definition dietary_test (f : FilterState) (recipe : Recipe.t) : bool :=
  forallb (λ diet, bool_decide (diet ∈ Recipe.tags recipe)) (dietary f).

Definition calories_active (f : FilterState) : bool := Qlt_bool (maxCalories f) 2000.

Definition calories_test (f : FilterState) (recipe : Recipe.t) : bool :=
  Qle_bool (NutritionInfo.calories (Recipe.nutrition recipe)) (maxCalories f).

(** [if (c) { filtered = filtered.filter(test) }] *)
Definition filter_if (c : bool) (test : Recipe.t → bool) (filtered : list Recipe.t)
  : list Recipe.t :=
  if c then List.filter test filtered else filtered.

(** [applyFilters], lines 88-146: the list that is passed to [onFilter]. *)
Definition applyFilters (recipes : list Recipe.t) (newFilters : FilterState)
  : list Recipe.t :=
  let filtered := recipes in
  let filtered := filter_if (search_active newFilters) (search_test newFilters) filtered in
  let filtered := filter_if (prepTime_active newFilters) (prepTime_test newFilters) filtered in
  let filtered :=
    filter_if (nonempty (servings newFilters)) (servings_test newFilters) filtered in
  let filtered :=
    filter_if (nonempty (difficulty newFilters)) (difficulty_test newFilters) filtered in
  let filtered :=
    filter_if (nonempty (cuisine newFilters)) (cuisine_test newFilters) filtered in
  let filtered :=
    filter_if (nonempty (dietary newFilters)) (dietary_test newFilters) filtered in
  let filtered := filter_if (calories_active newFilters) (calories_test newFilters) filtered in
  filtered.

Definition count_if (c : bool) (count : nat) : nat := if c then (count + 1)%nat else count.

(** [activeFilterCount], lines 177-183: the reduction over the entries
    of the state, in the order of its keys. *)
Definition activeFilterCount (filters : FilterState) : nat :=
  let count := 0%nat in
  let count := count_if (search_active filters) count in
  let count := count_if (prepTime_active filters) count in
  let count := count_if (nonempty (servings filters)) count in
  let count := count_if (nonempty (difficulty filters)) count in
  let count := count_if (nonempty (cuisine filters)) count in
  let count := count_if (nonempty (dietary filters)) count in
  let count := count_if (calories_active filters) count in
  count.

(** A recipe passes every test that is applied. *)
Definition passes (f : FilterState) (recipe : Recipe.t) : bool :=
  implb (search_active f) (search_test f recipe) &&
  implb (prepTime_active f) (prepTime_test f recipe) &&
  implb (nonempty (servings f)) (servings_test f recipe) &&
  implb (nonempty (difficulty f)) (difficulty_test f recipe) &&
  implb (nonempty (cuisine f)) (cuisine_test f recipe) &&
  implb (nonempty (dietary f)) (dietary_test f recipe) &&
  implb (calories_active f) (calories_test f recipe).

End Filters.

(** ** The download name: [components/recipe/recipe-share.tsx], line 73 *)

Fixpoint map_chars (f : ascii → ascii) (s : string) : string :=
  match s with
  | "" => ""
  | String c r => String (f c) (map_chars f r)
  end.

(** [name.replace(/[^a-z0-9]/gi, '_').toLowerCase()] with the extension. *)
Definition download_stem (name : string) : string :=
  Str.toLowerCase (map_chars (λ c, if is_letter c || is_digit c then c else "_"%char) name).

Definition download_name (name : string) : string := download_stem name +:+ ".txt".

(** ** The client: the call of the route in [hooks/use-recipes.ts] and
       the page handler *)

Module Client.

(** [response.ok] *)
Definition ok (response : Response) : bool :=
  (200 <=? status response)%nat && (status response <=? 299)%nat.

Definition http_error (response : Response) : exn :=
  Error ("HTTP error! status: " +:+ pretty (status response)).

(** Lines 26-52 of the hook: the update that completes a call, from the
    outcome of [fetch].  [None] stands for the outcomes that are not one
    of the updates of the hook.  Two of them the types of the program
    exclude: a message that is truthy and not a string, and a recipes
    member that is truthy and not an array.  The third is a success
    response whose body is null: [data.recipes] is read by the updater
    that is passed to [setState], which runs after the [try] block has
    been left, so the TypeError is not caught and the call is never
    completed. *)
Definition completion (fetched : result Response) : option (UseRecipes.update json) :=
  match fetched with
  | Throw e => Some (UseRecipes.GenerateFailure e)
  | Ok response =>
      if negb (ok response) then
        match body response with
        | JNull =>
            Some (UseRecipes.GenerateFailure
                    (TypeError "Cannot read properties of null (reading 'message')"))
        | errorData =>
            let message := property "message" errorData in
            if truthy message then
              match message with
              | Some (JStr m) => Some (UseRecipes.GenerateFailure (Error m))
              | _ => None
              end
            else Some (UseRecipes.GenerateFailure (http_error response))
        end
      else
        match body response with
        | JNull => None
        | data =>
            let recipes := property "recipes" data in
            if truthy recipes then
              match recipes with
              | Some (JArr items) => Some (UseRecipes.GenerateSuccess (Some items))
              | _ => None
              end
            else Some (UseRecipes.GenerateSuccess None)
        end
  end.

(** [generateRecipes] of the hook, for a call that runs alone. *)
Definition generateRecipes (fetched : result Response) (s : UseRecipes.RecipeState json)
  : option (UseRecipes.RecipeState json) :=
  let started := UseRecipes.generate_start s in
  (λ u, UseRecipes.apply u started) <$> completion fetched.

(** [handleRecipeGeneration] of the page, lines 26-30. *)
Definition handleRecipeGeneration (fetched : result Response)
  (s : UseRecipes.RecipeState json) : option (UseRecipes.RecipeState json) :=
  generateRecipes fetched (UseRecipes.clearError s).

End Client.


(** * Properties *)

(** ** Strings and code fences *)

#[local] Arguments String.append !s1 s2 / : simpl nomatch.

Lemma app_nil_r_s (s : string) : s +:+ "" = s.
Proof. induction s; simpl; congruence. Qed.

Lemma app_assoc_s (a b c : string) : (a +:+ b) +:+ c = a +:+ b +:+ c.
Proof. induction a; simpl; congruence. Qed.

Lemma prefix_cons c p c' s :
  String.prefix (String c p) (String c' s) = true ↔ c = c' ∧ String.prefix p s = true.
Proof.
  simpl. destruct (ascii_dec c c'); split; try tauto; try discriminate.
Qed.

Lemma prefix_length p : ∀ s, String.prefix p s = true → (String.length p ≤ String.length s)%nat.
Proof.
  induction p as [|c p IH]; intros [|c' s] H; simpl; try lia; try discriminate.
  apply prefix_cons in H as [_ H]. apply IH in H. lia.
Qed.

Lemma prefix_app_self p s : String.prefix p (p +:+ s) = true.
Proof.
  induction p as [|c p IH]; simpl; [by destruct s|].
  destruct (ascii_dec c c); [done|congruence].
Qed.

Lemma prefix_app_long p : ∀ s x,
  (String.length p ≤ String.length s)%nat →
  String.prefix p (s +:+ x) = String.prefix p s.
Proof.
  induction p as [|c p IH]; intros [|c' s] x H; simpl in *; try done; try lia.
  - by destruct x.
  - destruct (ascii_dec c c'); [|done]. apply IH. lia.
Qed.

Lemma prefix_app_short p : ∀ s x,
  String.prefix p (s +:+ x) = true →
  (String.length s < String.length p)%nat →
  ∃ p2, p = s +:+ p2 ∧ String.prefix p2 x = true ∧ p2 ≠ "".
Proof.
  induction p as [|c p IH]; intros [|c' s] x H Hlen; simpl in Hlen; try lia.
  - exists (String c p). done.
  - change (String c' s +:+ x) with (String c' (s +:+ x)) in H.
    apply prefix_cons in H as [-> H].
    destruct (IH s x H) as (p2 & -> & ? & ?); [lia|]. by exists p2.
Qed.

Lemma prefix_agree p s :
  String.prefix p (s +:+ Fence.close_fence) = String.prefix p s ∨
  ∃ p2, p = s +:+ p2 ∧ String.prefix p2 Fence.close_fence = true ∧ p2 ≠ "".
Proof.
  destruct (le_lt_dec (String.length p) (String.length s)) as [Hle|Hlt].
  - left. by apply prefix_app_long.
  - destruct (String.prefix p (s +:+ Fence.close_fence)) eqn:E.
    + right. by apply prefix_app_short.
    + left. destruct (String.prefix p s) eqn:E'; [|done].
      apply prefix_length in E'. lia.
Qed.

(** Splits [p = s +:+ p2] for a closed [p] into the cases of [s]. *)
Ltac split_literal H :=
  repeat match type of H with
         | _ = ?s +:+ _ =>
             destruct s; simpl in H;
             [ subst | try discriminate H; injection H as ? H; subst ]
         end.

Lemma match_len_close_fence s :
  s ≠ "" →
  Fence.match_len (s +:+ Fence.close_fence) = Fence.match_len s ∨ s = Fence.open_json.
Proof.
  intros Hs. unfold Fence.match_len, Str.startsWith.
  destruct (prefix_agree (Fence.open_json +:+ Str.nl) s) as [->|(p2 & H & Hp & Hne)].
  2:{ right. unfold Fence.open_json, Fence.bt3, Str.nl in H; simpl in H; split_literal H; try done; vm_compute in Hp; discriminate. }
  destruct (prefix_agree Fence.open_json s) as [->|(p2 & H & Hp & Hne)].
  2:{ unfold Fence.open_json, Fence.bt3, Str.nl in H; simpl in H; split_literal H; try done; vm_compute in Hp; discriminate. }
  destruct (prefix_agree (Str.nl +:+ Fence.bt3) s) as [->|(p2 & H & Hp & Hne)].
  2:{ unfold Fence.open_json, Fence.bt3, Str.nl in H; simpl in H; split_literal H; try done; vm_compute in Hp; discriminate. }
  destruct (prefix_agree Fence.bt3 s) as [->|(p2 & H & Hp & Hne)].
  2:{ unfold Fence.open_json, Fence.bt3, Str.nl in H; simpl in H; split_literal H; try done; vm_compute in Hp; discriminate. }
  by left.
Qed.

Lemma match_len_bound s n : Fence.match_len s = Some n → (n ≤ String.length s)%nat.
Proof.
  unfold Fence.match_len, Str.startsWith. intros H.
  repeat match type of H with
         | (if String.prefix ?p s then _ else _) = _ =>
             let E := fresh in
             destruct (String.prefix p s) eqn:E;
             [ apply prefix_length in E; simpl in E; injection H as <-; exact E |]
         end.
  discriminate.
Qed.

Lemma replace_from_close_fence s : ∀ k,
  (k ≤ String.length s)%nat →
  Fence.replace_from k (s +:+ Fence.close_fence) = Fence.replace_from k s.
Proof.
  induction s as [|c r IH]; intros k Hk.
  - simpl in Hk. assert (k = 0%nat) as -> by lia. reflexivity.
  - destruct k as [|k].
    + destruct (match_len_close_fence (String c r)) as [E | E]; [done| |].
      * change (String c r +:+ Fence.close_fence) with (String c (r +:+ Fence.close_fence)) in *.
        cbn [Fence.replace_from]. rewrite E.
        destruct (Fence.match_len (String c r)) as [[|n]|] eqn:En.
        -- f_equal. apply IH. lia.
        -- apply IH. apply match_len_bound in En. simpl in En. lia.
        -- f_equal. apply IH. lia.
      * rewrite E. reflexivity.
    + change (String c r +:+ Fence.close_fence) with (String c (r +:+ Fence.close_fence)).
      cbn [Fence.replace_from]. apply IH. simpl in Hk. lia.
Qed.

Lemma match_len_open u :
  Fence.match_len (Fence.open_json +:+ Str.nl +:+ u) = Some 8%nat.
Proof.
  unfold Fence.match_len, Str.startsWith.
  by rewrite <- app_assoc_s, prefix_app_self.
Qed.

Lemma replace_from_open u :
  Fence.replace_from 0 (Fence.open_json +:+ Str.nl +:+ u) = Fence.replace_from 0 u.
Proof.
  pose proof (match_len_open u) as H.
  unfold Fence.open_json, Str.nl in *. simpl String.append in *.
  cbn [Fence.replace_from]. by rewrite H.
Qed.

Lemma replace_fences_fenced t :
  Fence.replace_fences (Fence.fenced t) = Fence.replace_fences t.
Proof.
  unfold Fence.replace_fences, Fence.fenced. rewrite replace_from_open.
  apply (replace_from_close_fence t 0). lia.
Qed.

Lemma prefix_bt3_close_fence t :
  String.prefix Fence.bt3 (t +:+ Fence.close_fence) = String.prefix Fence.bt3 t.
Proof.
  destruct (prefix_agree Fence.bt3 t) as [->|(p2 & H & Hp & Hne)]; [done|].
  unfold Fence.bt3 in H. split_literal H; try done; vm_compute in Hp; discriminate.
Qed.

Lemma replace_from_open_bare u :
  String.prefix Fence.bt3 u = false →
  Fence.replace_from 0 (Fence.bt3 +:+ Str.nl +:+ u) = Str.nl +:+ Fence.replace_from 0 u.
Proof.
  intros Hu.
  assert (Fence.match_len (Fence.bt3 +:+ Str.nl +:+ u) = Some 3%nat) as H3.
  { unfold Fence.match_len, Str.startsWith.
    by rewrite (prefix_app_self Fence.bt3 (Str.nl +:+ u)). }
  assert (Fence.match_len (Str.nl +:+ u) = None) as H0.
  { unfold Fence.match_len, Str.startsWith, Fence.open_json, Fence.bt3, Str.nl in *.
    simpl. by rewrite Hu. }
  unfold Fence.bt3, Str.nl in *. simpl String.append in *.
  cbn [Fence.replace_from]. by rewrite H3, H0.
Qed.

Lemma cleanResponse_fenced_bare t :
  String.prefix Fence.bt3 t = false →
  Fence.cleanResponse (Fence.fenced_bare t) = Fence.cleanResponse t.
Proof.
  intros Ht. unfold Fence.cleanResponse, Fence.replace_fences, Fence.fenced_bare.
  rewrite replace_from_open_bare by (by rewrite prefix_bt3_close_fence).
  rewrite replace_from_close_fence by lia. reflexivity.
Qed.

Lemma prefix_app_l a b : ∀ s, String.prefix (a +:+ b) s = true → String.prefix a s = true.
Proof.
  induction a as [|c a IH]; intros [|c' s] H; simpl in *; try done.
  destruct (ascii_dec c c'); [|done]. by apply IH.
Qed.

Lemma includes_cons sub c r :
  Str.includes sub (String c r) = false →
  String.prefix sub (String c r) = false ∧ Str.includes sub r = false.
Proof. cbn [Str.includes]. unfold Str.startsWith. by intros [? ?]%orb_false_elim. Qed.

Lemma includes_prefix sub s : String.prefix sub s = true → Str.includes sub s = true.
Proof. intros H. destruct s; cbn [Str.includes]; unfold Str.startsWith; by rewrite H. Qed.

Lemma match_len_no_backticks c r :
  String.prefix Fence.bt3 (String c r) = false →
  Str.includes Fence.bt3 r = false →
  Fence.match_len (String c r) = None.
Proof.
  intros H1 H2. unfold Fence.match_len, Str.startsWith.
  destruct (String.prefix (Fence.open_json +:+ Str.nl) (String c r)) eqn:E1.
  { apply (prefix_app_l Fence.bt3 ("json" +:+ Str.nl)) in E1. congruence. }
  destruct (String.prefix Fence.open_json (String c r)) eqn:E2.
  { apply (prefix_app_l Fence.bt3 "json") in E2. congruence. }
  destruct (String.prefix (Str.nl +:+ Fence.bt3) (String c r)) eqn:E3.
  { apply prefix_cons in E3 as [_ E3]. apply includes_prefix in E3. congruence. }
  by rewrite H1.
Qed.

Lemma replace_fences_no_backticks s :
  Str.includes Fence.bt3 s = false → Fence.replace_fences s = s.
Proof.
  unfold Fence.replace_fences.
  induction s as [|c r IH]; [done|]. intros [H1 H2]%includes_cons.
  cbn [Fence.replace_from]. rewrite match_len_no_backticks by done.
  f_equal. by apply IH.
Qed.

(** ** Trimming *)

Lemma app_eq_nil_s (a b : string) : a +:+ b = "" → a = "" ∧ b = "".
Proof. destruct a; simpl; [done|discriminate]. Qed.

Lemma trimEnd_app a b :
  Str.trimEnd b ≠ "" → Str.trimEnd (a +:+ b) = a +:+ Str.trimEnd b.
Proof.
  intros Hb. induction a as [|c a IH]; [done|].
  simpl. rewrite IH. destruct (a +:+ Str.trimEnd b) eqn:E; [|done].
  apply app_eq_nil_s in E as [_ E]. contradiction.
Qed.

Lemma trimEnd_app_ne a b : Str.trimEnd b ≠ "" → Str.trimEnd (a +:+ b) ≠ "".
Proof.
  intros Hb. rewrite trimEnd_app by done. intros [_ E]%app_eq_nil_s. contradiction.
Qed.

(** ** Substrings *)

Lemma occurs_refl s : Str.occurs s s.
Proof. exists "", "". simpl. by rewrite app_nil_r_s. Qed.

Lemma occurs_app_l sub a b : Str.occurs sub a → Str.occurs sub (a +:+ b).
Proof.
  intros (x & y & ->). exists x, (y +:+ b). by rewrite !app_assoc_s.
Qed.

Lemma occurs_app_r sub a b : Str.occurs sub b → Str.occurs sub (a +:+ b).
Proof.
  intros (x & y & ->). exists (a +:+ x), y. by rewrite !app_assoc_s.
Qed.

Lemma occurs_trans a b c : Str.occurs a b → Str.occurs b c → Str.occurs a c.
Proof.
  intros (x & y & ->) (x' & y' & ->).
  exists (x' +:+ x), (y +:+ y'). by rewrite !app_assoc_s.
Qed.

Lemma occurs_join sep l i : i ∈ l → Str.occurs i (Str.join sep l).
Proof.
  unfold Str.join. induction l as [|x l IH]; [by intros ?%elem_of_nil|].
  intros [->|Hi]%elem_of_cons.
  - destruct l; simpl; [apply occurs_refl|]. apply occurs_app_l, occurs_refl.
  - destruct l as [|y l]; [by apply elem_of_nil in Hi|].
    change (String.concat sep (x :: y :: l))
      with (x +:+ sep +:+ String.concat sep (y :: l)).
    by apply occurs_app_r, occurs_app_r, IH.
Qed.

(** ** The prompt builder *)

Section PromptFacts.

Variable Number_toString : Q → string.

(** The template without the white space that [trim] removes. *)
Lemma buildRecipePrompt_eq ingredients dietaryFilters servings :
  buildRecipePrompt Number_toString ingredients dietaryFilters servings =
  Str.trimStart recipe_prompt_intro +:+ Str.join ", " ingredients +:+
  recipe_prompt_requirements +:+ Number_toString servings +:+
  recipe_prompt_substitutions +:+ dietary_clause dietaryFilters +:+
  recipe_prompt_shape +:+ Number_toString servings +:+
  Str.trimEnd recipe_prompt_rest.
Proof.
  unfold buildRecipePrompt, Str.trim.
  assert (Str.trimEnd recipe_prompt_rest ≠ "") as Hrest by (by vm_compute).
  set (tl := Str.join ", " ingredients +:+ _).
  assert (Str.trimStart (recipe_prompt_intro +:+ tl)
          = Str.trimStart recipe_prompt_intro +:+ tl) as -> by reflexivity.
  subst tl. by rewrite !trimEnd_app by (repeat apply trimEnd_app_ne; done).
Qed.

Lemma dietary_clause_empty dietaryFilters :
  dietary_clause dietaryFilters = "" ↔ dietaryFilters = [].
Proof.
  unfold dietary_clause. destruct dietaryFilters; simpl; [done|].
  split; discriminate.
Qed.

End PromptFacts.

(** ** zod: a schema that aborts reports an issue *)

Lemma reports_pure {A} (a : A) : reports (pr_pure a).
Proof. by intros ?. Qed.

Lemma reports_ap {A B} (f : ParseReturn (A → B)) (x : ParseReturn A) :
  reports f → reports x → reports (f <&> x).
Proof.
  destruct f as [[g|] fi], x as [[a|] xi]; unfold reports; simpl; intros Hf Hx H;
    try done; intros [E1 E2]%app_eq_nil; naive_solver.
Qed.

Lemma reports_string checks p input : reports (z_string checks p input).
Proof. destruct input as [[]|]; by intros ?. Qed.

Lemma reports_number checks p input : reports (z_number checks p input).
Proof. destruct input as [[]|]; by intros ?. Qed.

Lemma reports_enum values p input : reports (z_enum values p input).
Proof.
  destruct input as [[]|]; try by intros ?.
  unfold z_enum. case_bool_decide; by intros ?.
Qed.

Lemma merge_values_None {A} (rs : list (ParseReturn A)) :
  Forall reports rs → merge_values rs = None → all_issues rs ≠ [].
Proof.
  unfold all_issues. induction 1 as [|[[a|] iss] rs Hr _ IH]; simpl; [done| |].
  - destruct (merge_values rs); [done|]. intros _ [_ E]%app_eq_nil. by apply IH.
  - intros _ [E _]%app_eq_nil. by apply Hr.
Qed.

Lemma Forall_imap {A B} (P : B → Prop) (f : nat → A → B) (l : list A) :
  (∀ i x, P (f i x)) → Forall P (imap f l).
Proof.
  revert f. induction l as [|x l IH]; intros f Hf; simpl; constructor; [apply Hf|].
  apply IH. intros i y. apply Hf.
Qed.

Lemma reports_array {A} (item : Schema A) minLength maxLength p input :
  (∀ q v, reports (item q v)) → reports (z_array item minLength maxLength p input).
Proof.
  intros Hitem. destruct input as [[]|]; try by intros ?.
  unfold z_array, reports. simpl. intros H [_ E]%app_eq_nil. revert E.
  apply merge_values_None; [|done]. apply Forall_imap. intros; apply Hitem.
Qed.

Lemma reports_default {A} (inner : Schema A) d p input :
  (∀ q v, reports (inner q v)) → reports (z_default inner d p input).
Proof. intros H. destruct input; apply H. Qed.

Lemma reports_optional {A} (inner : Schema A) p input :
  (∀ q v, reports (inner q v)) → reports (z_optional inner p input).
Proof.
  intros H. destruct input as [v|]; [|by intros ?].
  unfold z_optional. specialize (H p (Some v)).
  destruct (inner p (Some v)) as [[a|] iss]; [by intros ?|]. intros _. by apply H.
Qed.

Lemma reports_IngredientInputSchema p input : reports (IngredientInputSchema p input).
Proof.
  destruct input as [[]|]; try by intros ?.
  unfold IngredientInputSchema, z_object, field.
  repeat apply reports_ap; try apply reports_pure.
  - apply reports_array. intros; apply reports_string.
  - apply reports_default. intros. apply reports_array. intros; apply reports_enum.
  - apply reports_default. intros; apply reports_number.
  - apply reports_optional. intros; apply reports_number.
Qed.

(** [IngredientInputSchema.parse] returns the data or throws a ZodError
    that carries at least one issue. *)
Lemma IngredientInputSchema_parse_cases body :
  (∃ data, zod_parse IngredientInputSchema body = Ok data ∧
           IngredientInputSchema [] (Some body) = (Some data, [])) ∨
  (∃ i rest v, zod_parse IngredientInputSchema body = Throw (ZodError (i :: rest)) ∧
               IngredientInputSchema [] (Some body) = (v, i :: rest)).
Proof.
  unfold zod_parse. pose proof (reports_IngredientInputSchema [] (Some body)) as H.
  destruct (IngredientInputSchema [] (Some body)) as [[data|] [|i rest]]; simpl in H.
  - left. eauto.
  - right. eauto.
  - by destruct H.
  - right. eauto.
Qed.

(** ** zod: the ingredient list *)


Lemma ingredient_item_ok p s :
  length_ok s → ingredient_item p (Some (JStr s)) = (Some s, []).
Proof.
  intros [H1 H2]. unfold ingredient_item, z_string. simpl.
  destruct (Nat.ltb_spec (String.length s) 1); [lia|].
  destruct (Nat.ltb_spec 50 (String.length s)); [lia|]. done.
Qed.

Lemma ingredient_item_issue p s :
  ¬ length_ok s →
  ∃ m, ingredient_item p (Some (JStr s)) = (Some s, [issue p m]) ∧
       (m = "Ingredient cannot be empty" ∨ m = "Ingredient name too long").
Proof.
  intros H. unfold ingredient_item, z_string, length_ok in *. simpl.
  destruct (Nat.ltb_spec (String.length s) 1);
    destruct (Nat.ltb_spec 50 (String.length s)); try lia; eauto.
Qed.

Lemma items_ok (path_of : nat → list path_elem) (l : list string) :
  Forall length_ok l →
  let rs := imap (λ i x, ingredient_item (path_of i) (Some x)) (JStr <$> l) in
  merge_values rs = Some l ∧ all_issues rs = [].
Proof.
  revert path_of. induction l as [|s l IH]; intros path_of Hl; [done|].
  inversion Hl as [|? ? Hs Hl']; subst.
  destruct (IH (path_of ∘ S) Hl') as [E1 E2].
  cbv zeta in *. rewrite fmap_cons, imap_cons, ingredient_item_ok by done.
  change ((λ i x, ingredient_item (path_of i) (Some x)) ∘ S)
    with (λ i x, ingredient_item ((path_of ∘ S) i) (Some x)).
  unfold all_issues in *. cbn [merge_values flat_map snd app].
  split; [by rewrite E1 | exact E2].
Qed.

Lemma items_issue (path_of : nat → list path_elem) (l : list string) :
  ¬ Forall length_ok l →
  let rs := imap (λ i x, ingredient_item (path_of i) (Some x)) (JStr <$> l) in
  ∃ i m rest, all_issues rs = issue (path_of i) m :: rest ∧
    (m = "Ingredient cannot be empty" ∨ m = "Ingredient name too long").
Proof.
  revert path_of. induction l as [|s l IH]; intros path_of Hl.
  { destruct Hl. constructor. }
  cbv zeta. rewrite fmap_cons, imap_cons. unfold all_issues. cbn [flat_map].
  change ((λ i x, ingredient_item (path_of i) (Some x)) ∘ S)
    with (λ i x, ingredient_item ((path_of ∘ S) i) (Some x)).
  destruct (decide (length_ok s)) as [Hs|Hs].
  - rewrite ingredient_item_ok by done. cbn [snd app].
    destruct (IH (path_of ∘ S)) as (i & m & rest & E & Hm).
    { intros Hl'. apply Hl. by constructor. }
    exists (S i), m, rest. split; [exact E|exact Hm].
  - destruct (ingredient_item_issue (path_of 0%nat) s Hs) as (m & -> & Hm).
    cbn [snd app]. eauto.
Qed.

Lemma z_enum_ok values p s : s ∈ values → z_enum values p (Some (JStr s)) = (Some s, []).
Proof. intros H. unfold z_enum. by rewrite bool_decide_true. Qed.

Lemma enum_items_ok (values : list string) (path_of : nat → list path_elem)
  (l : list string) :
  Forall (λ s, s ∈ values) l →
  let rs := imap (λ i x, z_enum values (path_of i) (Some x)) (JStr <$> l) in
  merge_values rs = Some l ∧ all_issues rs = [].
Proof.
  revert path_of. induction l as [|s l IH]; intros path_of Hl; [done|].
  inversion Hl as [|? ? Hs Hl']; subst.
  destruct (IH (path_of ∘ S) Hl') as [E1 E2].
  cbv zeta in *. rewrite fmap_cons, imap_cons, z_enum_ok by done.
  change ((λ i x, z_enum values (path_of i) (Some x)) ∘ S)
    with (λ i x, z_enum values ((path_of ∘ S) i) (Some x)).
  unfold all_issues in *. cbn [merge_values flat_map snd app].
  split; [by rewrite E1 | exact E2].
Qed.

(** The schema on a request body, field by field. *)
Lemma IngredientInputSchema_request_body ing filters sv :
  IngredientInputSchema [] (Some (request_body ing filters sv)) =
  pr_pure IngredientInput.Build_t
  <&> z_array ingredient_item
        (Some (2%nat, "Please enter at least 2 ingredients"))
        (Some (15%nat, "Maximum 15 ingredients allowed"))
        [PKey "ingredients"] (Some ing)
  <&> z_default (z_array (z_enum DietaryFilter_values) None None) (JArr [])
        [PKey "dietaryFilters"] filters
  <&> z_default servings_number (JNum 4) [PKey "servings"] sv
  <&> (Some None, []).
Proof. destruct filters, sv; reflexivity. Qed.

Lemma ingredients_field_ok l :
  (2 ≤ length l ≤ 15)%nat → Forall length_ok l →
  z_array ingredient_item
    (Some (2%nat, "Please enter at least 2 ingredients"))
    (Some (15%nat, "Maximum 15 ingredients allowed"))
    [PKey "ingredients"] (Some (strings_json l)) = (Some l, []).
Proof.
  intros [H1 H2] Hl. unfold z_array, strings_json, length_issues.
  rewrite length_fmap.
  destruct (Nat.ltb_spec (length l) 2); [lia|].
  destruct (Nat.ltb_spec 15 (length l)); [lia|].
  destruct (items_ok (λ i, [PKey "ingredients"] ++ [PIndex i]) l Hl) as [-> ->].
  done.
Qed.

Lemma filters_field_ok (filters : option (list string)) :
  Forall (λ s, s ∈ DietaryFilter_values) (default [] filters) →
  z_default (z_array (z_enum DietaryFilter_values) None None) (JArr [])
    [PKey "dietaryFilters"] (strings_json <$> filters) = (Some (default [] filters), []).
Proof.
  destruct filters as [l|]; [|done].
  change (strings_json <$> Some l) with (Some (strings_json l)).
  change (default [] (Some l)) with l. intros Hl.
  unfold z_default, z_array, strings_json, length_issues.
  destruct (enum_items_ok DietaryFilter_values
              (λ i, [PKey "dietaryFilters"] ++ [PIndex i]) l Hl) as [-> ->].
  done.
Qed.

Lemma servings_number_result p q :
  servings_number p (Some (JNum q)) =
  (Some q,
   (if Qle_bool 1 q then [] else [issue p "At least 1 serving required"]) ++
   (if Qle_bool q 12 then [] else [issue p "Maximum 12 servings allowed"])).
Proof.
  unfold servings_number, z_number. cbn [flat_map run_number_check].
  unfold Qlt_bool. destruct (Qle_bool 1 q), (Qle_bool q 12); reflexivity.
Qed.

Lemma servings_field_ok (servings : option Q) :
  (∀ q, servings = Some q → 1 <= q ∧ q <= 12)%Q →
  z_default servings_number (JNum 4) [PKey "servings"] (JNum <$> servings)
  = (Some (default 4%Q servings), []).
Proof.
  destruct servings as [q|]; [|done]. intros H. destruct (H q eq_refl) as [H1 H2].
  change (JNum <$> Some q) with (Some (JNum q)). unfold z_default.
  rewrite servings_number_result.
  apply Qle_bool_iff in H1, H2. by rewrite H1, H2.
Qed.

Lemma matches_allow_list_length s : matches_allow_list s = true → length_ok s.
Proof.
  unfold matches_allow_list, length_ok.
  intros [[_ H2]%andb_prop H3]%andb_prop.
  apply Nat.leb_le in H2. split; [|done].
  destruct s; [discriminate H3|simpl; lia].
Qed.


Lemma zod_parse_issues {A} (schema : Schema A) data v i rest :
  schema [] (Some data) = (v, i :: rest) →
  zod_parse schema data = Throw (ZodError (i :: rest)).
Proof. unfold zod_parse. intros ->. by destruct v. Qed.

Lemma zod_parse_ok {A} (schema : Schema A) data a :
  schema [] (Some data) = (Some a, []) → zod_parse schema data = Ok a.
Proof. unfold zod_parse. by intros ->. Qed.

Lemma request_body_ok l filters servings :
  (2 ≤ length l ≤ 15)%nat → Forall length_ok l →
  filters_ok filters → servings_ok servings →
  zod_parse IngredientInputSchema
    (request_body (strings_json l) (strings_json <$> filters) (JNum <$> servings))
  = Ok {| IngredientInput.ingredients := l;
          IngredientInput.dietaryFilters := default [] filters;
          IngredientInput.servings := default 4%Q servings;
          IngredientInput.maxPrepTime := None |}.
Proof.
  intros Hlen Hl Hf Hs. apply zod_parse_ok.
  rewrite IngredientInputSchema_request_body, ingredients_field_ok,
    filters_field_ok, servings_field_ok by done.
  reflexivity.
Qed.

(** The issues of the ingredient list come first among the issues of a
    request body. *)
Lemma request_body_issue l filters sv v i rest :
  z_array ingredient_item
    (Some (2%nat, "Please enter at least 2 ingredients"))
    (Some (15%nat, "Maximum 15 ingredients allowed"))
    [PKey "ingredients"] (Some (strings_json l)) = (v, i :: rest) →
  ∃ rest', zod_parse IngredientInputSchema (request_body (strings_json l) filters sv)
           = Throw (ZodError (i :: rest')).
Proof.
  intros E. eexists. eapply zod_parse_issues.
  rewrite IngredientInputSchema_request_body, E. unfold pr_ap, pr_pure.
  cbn [fst snd app]. reflexivity.
Qed.

Lemma ingredients_field_issue l :
  ((length l < 2)%nat ∨ (15 < length l)%nat ∨ ¬ Forall length_ok l) →
  ∃ v p m rest,
    z_array ingredient_item
      (Some (2%nat, "Please enter at least 2 ingredients"))
      (Some (15%nat, "Maximum 15 ingredients allowed"))
      [PKey "ingredients"] (Some (strings_json l)) = (v, issue p m :: rest) ∧
    ((length l < 2)%nat →
       p = [PKey "ingredients"] ∧ m = "Please enter at least 2 ingredients") ∧
    ((15 < length l)%nat →
       p = [PKey "ingredients"] ∧ m = "Maximum 15 ingredients allowed") ∧
    ((2 ≤ length l ≤ 15)%nat →
       (∃ i, p = [PKey "ingredients"; PIndex i]) ∧
       (m = "Ingredient cannot be empty" ∨ m = "Ingredient name too long")).
Proof.
  intros H. unfold z_array, strings_json, length_issues. rewrite length_fmap.
  destruct (Nat.ltb_spec (length l) 2) as [H2|H2].
  { destruct (Nat.ltb_spec 15 (length l)); [lia|]. cbn [app].
    do 4 eexists. split; [reflexivity|]. repeat split; intros; try lia; done. }
  destruct (Nat.ltb_spec 15 (length l)) as [H15|H15].
  { cbn [app]. do 4 eexists. split; [reflexivity|].
    repeat split; intros; try lia; done. }
  destruct H as [H|[H|H]]; [lia..|].
  destruct (items_issue (λ i, [PKey "ingredients"] ++ [PIndex i]) l H)
    as (i & m & rest & E & Hm).
  cbv zeta in E. rewrite E. cbn [app].
  do 4 eexists. split; [reflexivity|].
  repeat split; intros; try lia; eauto.
Qed.

(** C2 (amended).  The submission schema accepts every ingredient list of
    2 to 15 items whose items have 1 to 50 characters, which covers the
    items that match the allow-list pattern; it rejects a list of fewer
    than 2 or more than 15 items, or with an empty or over-long item,
    with the specific first message of the corresponding check, whatever
    the other fields hold.  The schema checks neither the pattern nor
    duplicates: at entry time [addIngredient] rejects an entry that fails
    the pattern, and an entry whose lower-cased text is already in the
    list, each with its own message. *)
Theorem C2_ingredient_list_validation (isValidIngredient : string → bool)
  (l : list string) :
  ((2 ≤ length l ≤ 15)%nat → Forall length_ok l →
   ∀ filters servings, filters_ok filters → servings_ok servings →
     zod_parse IngredientInputSchema
       (request_body (strings_json l) (strings_json <$> filters) (JNum <$> servings))
     = Ok {| IngredientInput.ingredients := l;
             IngredientInput.dietaryFilters := default [] filters;
             IngredientInput.servings := default 4%Q servings;
             IngredientInput.maxPrepTime := None |}) ∧
  (Forall (λ s, matches_allow_list s = true) l → Forall length_ok l) ∧
  (∀ filters sv,
     ((length l < 2)%nat ∨ (15 < length l)%nat ∨ ¬ Forall length_ok l) →
     ∃ p m rest,
       zod_parse IngredientInputSchema (request_body (strings_json l) filters sv)
       = Throw (ZodError (issue p m :: rest)) ∧
       ((length l < 2)%nat →
          p = [PKey "ingredients"] ∧ m = "Please enter at least 2 ingredients") ∧
       ((15 < length l)%nat →
          p = [PKey "ingredients"] ∧ m = "Maximum 15 ingredients allowed") ∧
       ((2 ≤ length l ≤ 15)%nat →
          (∃ i, p = [PKey "ingredients"; PIndex i]) ∧
          (m = "Ingredient cannot be empty" ∨ m = "Ingredient name too long"))) ∧
  (∀ st : Form.state,
     let trimmed := Str.trim (Form.currentIngredient st) in
     trimmed ≠ "" →
     (isValidIngredient trimmed = false →
      Form.addIngredient isValidIngredient st =
      Form.setValidationError
        (Some "Please enter a valid ingredient (letters, spaces, hyphens only)") st) ∧
     (isValidIngredient trimmed = true →
      Str.toLowerCase trimmed ∈ Form.ingredients st →
      Form.addIngredient isValidIngredient st =
      Form.setValidationError (Some "This ingredient is already added") st)).
Proof.
  split; [|split; [|split]].
  - intros. by apply request_body_ok.
  - intros H. eapply Forall_impl; [exact H|]. apply matches_allow_list_length.
  - intros filters sv H.
    destruct (ingredients_field_issue l H) as (v & p & m & rest & E & H1 & H2 & H3).
    destruct (request_body_issue l filters sv v _ rest E) as [rest' E'].
    exists p, m, rest'. done.
  - intros st trimmed Hne. unfold Form.addIngredient. fold trimmed.
    apply String.eqb_neq in Hne. rewrite Hne. split.
    + by intros ->.
    + intros -> Hin. cbn [negb]. by rewrite bool_decide_true.
Qed.

(** C2, as stated, fails on the code: the schema accepts a list with a
    duplicate item, and a list with an item outside the allow-list
    pattern. *)
Lemma C2_schema_accepts_duplicates :
  validates (request_body (strings_json ["rice"; "rice"]) None None) = true ∧
  matches_allow_list "chicken123" = false ∧
  validates (request_body (strings_json ["chicken123"; "rice"]) None None) = true.
Proof. by vm_compute. Qed.

(** The entry-time duplicate check compares the lower-cased entry with
    the items as they were stored: an entry with a capital is added a
    second time. *)
Example addIngredient_capital_twice :
  Form.ingredients
    (Form.addIngredient matches_allow_list
       {| Form.ingredients := ["Rice"]; Form.currentIngredient := " Rice ";
          Form.dietaryFilters := []; Form.servings := 4;
          Form.validationError := None |})
  = ["Rice"; "Rice"].
Proof. by vm_compute. Qed.

Lemma C2_ingredient_list_validation_witness :
  zod_parse IngredientInputSchema
    (request_body (strings_json ["chicken"; "rice"]) None (Some (JNum 4)))
  = Ok {| IngredientInput.ingredients := ["chicken"; "rice"];
          IngredientInput.dietaryFilters := [];
          IngredientInput.servings := 4%Q;
          IngredientInput.maxPrepTime := None |}.
Proof.
  destruct (C2_ingredient_list_validation matches_allow_list ["chicken"; "rice"])
    as [H _].
  apply (H ltac:(simpl; lia) ltac:(repeat constructor; simpl; lia) None (Some 4%Q)).
  - constructor.
  - intros q [= <-]. split; discriminate.
Defined.

(** ** zod: the serving count *)

Lemma request_body_servings l filters sv :
  (2 ≤ length l ≤ 15)%nat → Forall length_ok l → filters_ok filters →
  zod_parse IngredientInputSchema
    (request_body (strings_json l) (strings_json <$> filters) sv) =
  match z_default servings_number (JNum 4) [PKey "servings"] sv with
  | (Some q, []) =>
      Ok {| IngredientInput.ingredients := l;
            IngredientInput.dietaryFilters := default [] filters;
            IngredientInput.servings := q;
            IngredientInput.maxPrepTime := None |}
  | (None, []) => Throw (Error "Validation failed but no issues detected.")
  | (_, iss) => Throw (ZodError iss)
  end.
Proof.
  intros Hlen Hl Hf. unfold zod_parse.
  rewrite IngredientInputSchema_request_body, ingredients_field_ok,
    filters_field_ok by done.
  destruct (z_default servings_number (JNum 4) [PKey "servings"] sv) as [[q|] iss];
    unfold pr_ap, pr_pure; cbn [fst snd app]; rewrite app_nil_r; by destruct iss.
Qed.

Lemma Qle_bool_false a b : (b < a)%Q → Qle_bool a b = false.
Proof.
  intros H. destruct (Qle_bool a b) eqn:E; [|done].
  apply Qle_bool_iff in E. by apply Qlt_not_le in H.
Qed.

Lemma Qle_bool_true a b : (a <= b)%Q → Qle_bool a b = true.
Proof. apply Qle_bool_iff. Qed.

(** C6 (amended).  For a request whose other fields are valid, the schema
    accepts a servings value exactly when it is a number in [1, 12]
    (integer or not), or absent, in which case it is 4; a number below
    1 is rejected with the minimum-servings message and a number above
    12 with the maximum-servings message, which is also what the form
    shows on submission. *)
Theorem C6_servings_validation (l : list string) (filters : option (list string))
  (Hlen : (2 ≤ length l ≤ 15)%nat) (Hl : Forall length_ok l) (Hf : filters_ok filters) :
  let body sv := request_body (strings_json l) (strings_json <$> filters) sv in
  let data q := {| IngredientInput.ingredients := l;
                   IngredientInput.dietaryFilters := default [] filters;
                   IngredientInput.servings := q;
                   IngredientInput.maxPrepTime := None |} in
  (∀ sv, validates (body sv) = true ↔
         sv = None ∨ ∃ q, sv = Some (JNum q) ∧ (1 <= q)%Q ∧ (q <= 12)%Q) ∧
  zod_parse IngredientInputSchema (body None) = Ok (data 4%Q) ∧
  (∀ q, (1 <= q)%Q → (q <= 12)%Q →
        zod_parse IngredientInputSchema (body (Some (JNum q))) = Ok (data q)) ∧
  (∀ q, (q < 1)%Q →
        zod_parse IngredientInputSchema (body (Some (JNum q))) =
        Throw (ZodError [issue [PKey "servings"] "At least 1 serving required"])) ∧
  (∀ q, (12 < q)%Q →
        zod_parse IngredientInputSchema (body (Some (JNum q))) =
        Throw (ZodError [issue [PKey "servings"] "Maximum 12 servings allowed"])) ∧
  (∀ st : Form.state,
     Form.ingredients st = l → Some (Form.dietaryFilters st) = filters →
     ((Form.servings st < 1)%Q →
      Form.handleSubmit st = Form.Rejected "At least 1 serving required") ∧
     ((12 < Form.servings st)%Q →
      Form.handleSubmit st = Form.Rejected "Maximum 12 servings allowed") ∧
     ((1 <= Form.servings st)%Q → (Form.servings st <= 12)%Q →
      Form.handleSubmit st = Form.Submitted (data (Form.servings st)))).
Proof.
  intros body data. subst body.
  assert (∀ q, (1 <= q)%Q → (q <= 12)%Q →
     zod_parse IngredientInputSchema
       (request_body (strings_json l) (strings_json <$> filters) (Some (JNum q)))
     = Ok (data q)) as Hin.
  { intros q H1 H12. rewrite request_body_servings by done.
    unfold z_default. rewrite servings_number_result.
    by rewrite !Qle_bool_true. }
  assert (∀ q, (q < 1)%Q →
     zod_parse IngredientInputSchema
       (request_body (strings_json l) (strings_json <$> filters) (Some (JNum q)))
     = Throw (ZodError [issue [PKey "servings"] "At least 1 serving required"])) as Hlo.
  { intros q H1. rewrite request_body_servings by done.
    unfold z_default. rewrite servings_number_result.
    rewrite Qle_bool_false by done. rewrite Qle_bool_true; [done|].
    apply Qlt_le_weak. eapply Qlt_trans; [exact H1|done]. }
  assert (∀ q, (12 < q)%Q →
     zod_parse IngredientInputSchema
       (request_body (strings_json l) (strings_json <$> filters) (Some (JNum q)))
     = Throw (ZodError [issue [PKey "servings"] "Maximum 12 servings allowed"])) as Hhi.
  { intros q H12. rewrite request_body_servings by done.
    unfold z_default. rewrite servings_number_result.
    rewrite (Qle_bool_false q 12) by done. rewrite Qle_bool_true; [done|].
    apply Qlt_le_weak. eapply Qlt_trans; [|exact H12]. done. }
  split; [|split; [|split; [|split; [|split]]]]; try done.
  - intros sv. unfold validates. split.
    + destruct sv as [[| |q| | |]|]; try (rewrite request_body_servings by done; done);
        [|by left].
      destruct (Qlt_le_dec q 1) as [H1|H1]; [by rewrite Hlo|].
      destruct (Qlt_le_dec 12 q) as [H12|H12]; [by rewrite Hhi|].
      intros _. right. eauto.
    + intros [->|(q & -> & H1 & H12)]; [|by rewrite Hin].
      by rewrite request_body_servings.
  - by rewrite request_body_servings.
  - intros st Hi Hfs. unfold Form.handleSubmit. rewrite Hi.
    change (Some (strings_json (Form.dietaryFilters st)))
      with (strings_json <$> Some (Form.dietaryFilters st)).
    rewrite Hfs. repeat split.
    + intros H. by rewrite Hlo.
    + intros H. by rewrite Hhi.
    + intros H1 H12. by rewrite Hin.
Qed.

(** C6, as stated, fails on the code: 2.5 servings is accepted. *)
Lemma C6_fractional_servings_accepted :
  is_integer (5 # 2) = false ∧
  zod_parse IngredientInputSchema
    (request_body (strings_json ["chicken"; "rice"]) None (Some (JNum (5 # 2))))
  = Ok {| IngredientInput.ingredients := ["chicken"; "rice"];
          IngredientInput.dietaryFilters := [];
          IngredientInput.servings := 5 # 2;
          IngredientInput.maxPrepTime := None |}.
Proof. by vm_compute. Qed.

(** Scenario 5 of the spec, through the theorem: servings 0 and 13. *)
Lemma C6_servings_validation_witness :
  zod_parse IngredientInputSchema
    (request_body (strings_json ["chicken"; "rice"]) None (Some (JNum 0)))
  = Throw (ZodError [issue [PKey "servings"] "At least 1 serving required"]) ∧
  zod_parse IngredientInputSchema
    (request_body (strings_json ["chicken"; "rice"]) None (Some (JNum 13)))
  = Throw (ZodError [issue [PKey "servings"] "Maximum 12 servings allowed"]).
Proof.
  destruct (C6_servings_validation ["chicken"; "rice"] None
              ltac:(simpl; lia) ltac:(repeat constructor; simpl; lia)
              ltac:(constructor))
    as (_ & _ & _ & Hlo & Hhi & _).
  split; [apply (Hlo 0%Q) | apply (Hhi 13%Q)]; reflexivity.
Defined.

(** ** The recipe route: validation failures *)


(** C7.  When the body of a request fails input validation, the recipe
    route answers 400 with success false and error Validation Error;
    the only effect is the console message of the catch block: no prompt
    is built and the model is not called, and the answer is not a 500. *)
Theorem C7_validation_failure_is_400 {G} (generateId : G → string * G)
  (JSON_parse : string → string + json) (Number_toString : Q → string)
  (model_generateContent : string → result string)
  (body : json) (w : world G) (e : exn) :
  zod_parse IngredientInputSchema body = Throw e →
  ∃ errors new_events,
    e = ZodError errors ∧
    POST_recipes generateId JSON_parse Number_toString model_generateContent (Ok body) w
    = (Ok (validation_error_response errors),
       {| idgen := idgen w; clock := clock w; trace := trace w ++ new_events |}) ∧
    status (validation_error_response errors) = 400%nat ∧
    status (validation_error_response errors) ≠ 500%nat ∧
    new_events = [ConsoleError "API Error:"] ∧
    forallb (λ ev, negb (is_model_event ev)) new_events = true.
Proof.
  intros H.
  destruct (IngredientInputSchema_parse_cases body)
    as [(data & E & _)|(i & rest & v & E & _)]; rewrite E in H; [done|].
  injection H as <-. exists (i :: rest), [ConsoleError "API Error:"].
  repeat split; try done.
  unfold POST_recipes, try_catch, bind, lift. by rewrite E.
Qed.

(** Scenario 2 of the spec: the empty ingredient list. *)
Lemma C7_validation_failure_is_400_witness :
  let w := {| idgen := 0%nat; clock := 0; trace := [] |} in
  ∃ errors,
    POST_recipes tick_generateId json_parse_ref show_number (λ _, Ok "")
      (Ok (request_body (strings_json []) None None)) w
    = (Ok (validation_error_response errors),
       {| idgen := 0%nat; clock := 0; trace := [ConsoleError "API Error:"] |}).
Proof.
  intros w.
  destruct (C7_validation_failure_is_400 tick_generateId json_parse_ref show_number
              (λ _, Ok "") (request_body (strings_json []) None None) w
              (ZodError [issue [PKey "ingredients"] "Please enter at least 2 ingredients"])
              eq_refl)
    as (errors & new_events & _ & E & _ & _ & -> & _).
  exists errors. exact E.
Defined.

(** ** The response parser and the mapper *)


Section ParserFacts.

Context {G : Type}.
Variable generateId : G → string * G.
Variable JSON_parse : string → string + json.

Lemma mapM_assign_id (items : list json) : ∀ w : world G,
  mapM (assign_id generateId) items w =
  (Ok (zip_with with_id items (ids_from generateId (length items) (idgen w))),
   {| idgen := state_after generateId (length items) (idgen w);
      clock := clock w; trace := trace w |}).
Proof.
  induction items as [|x items IH]; intros w; [by destruct w|].
  cbn [mapM length ids_from state_after]. unfold bind at 1.
  unfold assign_id at 1, bind at 1, generateId_call at 1.
  destruct (generateId (idgen w)) as [i g]. unfold ret at 1, bind.
  rewrite IH. reflexivity.
Qed.

Lemma length_ids_from n : ∀ g : G, length (ids_from generateId n g) = n.
Proof.
  induction n as [|n IH]; intros g; [done|]. simpl.
  destruct (generateId g). simpl. by rewrite IH.
Qed.

(** The outcome of [parseRecipeResponse], by cases on what [JSON.parse]
    gives for the cleaned text. *)
Lemma parseRecipeResponse_cases (response : string) (w : world G) :
  parseRecipeResponse generateId JSON_parse response w =
  match JSON_parse (Fence.cleanResponse response) with
  | inl m => parse_failure (SyntaxError m) w
  | inr JNull =>
      parse_failure (TypeError "Cannot read properties of null (reading 'recipes')") w
  | inr v =>
      match array_field "recipes" v with
      | Some items =>
          (Ok (zip_with with_id items (ids_from generateId (length items) (idgen w))),
           {| idgen := state_after generateId (length items) (idgen w);
              clock := clock w; trace := trace w |})
      | None => parse_failure missing_recipes w
      end
  end.
Proof.
  unfold parseRecipeResponse, try_catch, bind at 1, JSON_parse_call.
  destruct (JSON_parse (Fence.cleanResponse response)) as [m|v]; [done|].
  unfold ret at 1, bind at 1.
  destruct v as [| | | | |members]; try done.
  unfold array_field, property, get_property, ret at 1.
  destruct (lookup_member "recipes" members) as [[| b | q | s | items |]|];
    try done.
  - by destruct b.
  - cbn [truthy]. by destruct (Qeq_bool q 0).
  - cbn [truthy]. by destruct (String.eqb s "").
  - cbn [truthy Array_isArray negb orb]. by rewrite mapM_assign_id.
Qed.

End ParserFacts.


(** Runs the monadic plumbing of a goal. *)
Ltac run_M :=
  cbv [bind ret throw try_catch lift emit console_error Date_now];
  cbn [idgen clock trace truthy negb].

Ltac finish_M :=
  cbn [idgen clock trace]; rewrite <- ?app_assoc; reflexivity.

Section SubstitutionFacts.

Context {G : Type}.
Variable JSON_parse : string → string + json.
Variable model_generateContent : string → result string.

(** The outcome of [generateSubstitutions] when the provider returns the
    completion [response]. *)
Lemma generateSubstitutions_cases ingredients dietaryFilters recipeName recipeType
  (response : string) (w : world G) :
  let prompt := substitutionPrompt ingredients dietaryFilters recipeName recipeType in
  model_generateContent prompt = Ok response →
  generateSubstitutions JSON_parse model_generateContent
    ingredients dietaryFilters recipeName recipeType w =
  match JSON_parse (Fence.cleanResponse response) with
  | inr v =>
      if truthy (property "substitutions" v)
      then (Ok v, add_events [PromptBuilt prompt; ModelCalled prompt] w)
      else (Throw substitution_failure,
            add_events [PromptBuilt prompt; ModelCalled prompt;
                        ConsoleError "Failed to generate substitutions:"] w)
  | inl _ => (Throw substitution_failure,
              add_events [PromptBuilt prompt; ModelCalled prompt;
                          ConsoleError "Failed to generate substitutions:"] w)
  end.
Proof.
  intros prompt Hmodel.
  unfold generateSubstitutions. fold prompt.
  unfold bind at 1, emit at 1, try_catch at 1, bind at 1, generateContent,
    try_catch at 1, model_call, bind at 1, emit at 1, lift.
  rewrite Hmodel. unfold readSubstitutions, bind at 1, JSON_parse_call.
  unfold add_events. cbn [idgen clock trace]. rewrite <- !app_assoc. cbn [app].
  destruct (JSON_parse (Fence.cleanResponse response)) as [m|v].
  { run_M. finish_M. }
  destruct v as [| | | | |members]; unfold property, get_property; cbn [truthy negb].
  6:{ destruct (truthy (lookup_member "substitutions" members)) eqn:E;
        run_M; rewrite E; cbn [negb]; finish_M. }
  all: run_M; finish_M.
Qed.

End SubstitutionFacts.

Lemma truthy_array_field k v items : array_field k v = Some items → truthy (property k v) = true.
Proof.
  unfold array_field. by destruct (property k v) as [[]|].
Qed.

(** C3 (amended).  [parseRecipeResponse] fails, with a RecipeParsingError,
    if and only if the cleaned text is not valid JSON or the parsed value
    lacks an array-typed recipes field; the error records its cause, and
    the cause of the missing-field failure is not a SyntaxError; invalid
    JSON never yields an empty list, and an empty recipes array yields
    the empty list.  The substitution variant fails when the cleaned text
    is not valid JSON and when the parsed value has no substitutions
    field or a falsy one, in both cases with one and the same Error, and
    it returns the parsed value when the field is an array. *)
Theorem C3_parser_failure_modes {G} (generateId : G → string * G)
  (JSON_parse : string → string + json) (response : string) (w : world G) :
  let out := parseRecipeResponse generateId JSON_parse response w in
  let parsed := JSON_parse (Fence.cleanResponse response) in
  ((∃ e, out.1 = Throw e) ↔
   (∃ m, parsed = inl m) ∨ (∃ v, parsed = inr v ∧ array_field "recipes" v = None)) ∧
  (∀ m, parsed = inl m → out = parse_failure (SyntaxError m) w ∧ out.1 ≠ Ok []) ∧
  (∀ v, parsed = inr v → array_field "recipes" v = None →
        ∃ cause, out = parse_failure cause w ∧ is_SyntaxError cause = false) ∧
  (∀ v, parsed = inr v → array_field "recipes" v = Some [] → out = (Ok [], w)) ∧
  (∀ (model_generateContent : string → result string)
     ingredients dietaryFilters recipeName recipeType,
     model_generateContent
       (substitutionPrompt ingredients dietaryFilters recipeName recipeType)
     = Ok response →
     let outS := generateSubstitutions JSON_parse model_generateContent
                   ingredients dietaryFilters recipeName recipeType w in
     (∀ m, parsed = inl m → outS.1 = Throw substitution_failure) ∧
     (∀ v, parsed = inr v → truthy (property "substitutions" v) = false →
           outS.1 = Throw substitution_failure) ∧
     (∀ v items, parsed = inr v → array_field "substitutions" v = Some items →
                 outS.1 = Ok v)).
Proof.
  intros out parsed. subst out.
  rewrite parseRecipeResponse_cases. fold parsed.
  split; [|split; [|split; [|split]]].
  - destruct parsed as [m|v].
    + split; [eauto|]. intros _. eexists. reflexivity.
    + destruct (array_field "recipes" v) as [items|] eqn:E.
      * assert (v ≠ JNull) by (by intros ->).
        split.
        -- intros [e He]. by destruct v.
        -- intros [[m Hm]|(v' & [= <-] & Hv)]; congruence.
      * split; [eauto|]. intros _. destruct v; eexists; reflexivity.
  - intros m ->. done.
  - intros v -> Hv. rewrite Hv.
    destruct v; eexists; (split; [reflexivity|done]).
  - intros v -> Hv. rewrite Hv. destruct v; try done. by destruct w.
  - intros model ings filters name type Hmodel outS. subst outS.
    rewrite (generateSubstitutions_cases _ _ _ _ _ _ response) by done.
    fold parsed. repeat split.
    + by intros m ->.
    + by intros v -> ->.
    + intros v items -> Hv. by rewrite (truthy_array_field _ _ _ Hv).
Qed.


(** C3, as stated, fails on the code: in the substitution variant a
    parsed value without the field fails exactly as a text that is not
    JSON does. *)
Lemma C3_substitution_failures_not_distinct :
  let run t := (generateSubstitutions json_parse_ref (λ _, Ok t)
                  ["butter"] [] None None world0).1 in
  json_read "{}" = Some (JObj []) ∧
  json_read "not json" = None ∧
  run "{}" = Throw (Error "Failed to generate ingredient substitutions") ∧
  run "not json" = run "{}".
Proof. by vm_compute. Qed.

(** The guard of the substitution variant is the truthiness of the field:
    a field that is not an array passes it. *)
Example generateSubstitutions_number_field :
  (generateSubstitutions json_parse_ref (λ _, Ok (text "{'substitutions':1}"))
     ["butter"] [] None None world0).1
  = Ok (JObj [("substitutions", JNum 1)]).
Proof. by vm_compute. Qed.

(** Scenario 3 of the spec: the fenced empty array. *)
Lemma C3_parser_failure_modes_witness :
  parseRecipeResponse tick_generateId json_parse_ref
    (Fence.fenced (text "{'recipes':[]}")) world0 = (Ok [], world0).
Proof.
  destruct (C3_parser_failure_modes tick_generateId json_parse_ref
              (Fence.fenced (text "{'recipes':[]}")) world0) as (_ & _ & _ & H & _).
  apply (H (JObj [("recipes", JArr [])])); reflexivity.
Defined.

(** C4 (amended).  For every completion text, the parser applied to the
    text wrapped in a json code fence returns what it returns for the
    text itself, and so it does for a bare fence when the text does not
    begin with a triple backtick.  The stripping step deletes every
    occurrence of a fence delimiter, wherever it stands: apart from the
    trimming it leaves a text unchanged when the text contains no triple
    backtick. *)
Theorem C4_fence_round_trip {G} (generateId : G → string * G)
  (JSON_parse : string → string + json) (t : string) (w : world G) :
  parseRecipeResponse generateId JSON_parse (Fence.fenced t) w
  = parseRecipeResponse generateId JSON_parse t w ∧
  Fence.cleanResponse (Fence.fenced t) = Fence.cleanResponse t ∧
  (Str.startsWith Fence.bt3 t = false →
   parseRecipeResponse generateId JSON_parse (Fence.fenced_bare t) w
   = parseRecipeResponse generateId JSON_parse t w) ∧
  (Str.includes Fence.bt3 t = false → Fence.cleanResponse (Fence.fenced t) = Str.trim t).
Proof.
  assert (Fence.cleanResponse (Fence.fenced t) = Fence.cleanResponse t) as E.
  { unfold Fence.cleanResponse. by rewrite replace_fences_fenced. }
  split; [|split; [done|split]].
  - by rewrite !parseRecipeResponse_cases, E.
  - intros H. by rewrite !parseRecipeResponse_cases, cleanResponse_fenced_bare.
  - intros H. rewrite E. unfold Fence.cleanResponse.
    by rewrite replace_fences_no_backticks.
Qed.

(** C4, as stated, fails on the code: triple backticks inside a string
    value are deleted, so the parser does not return what parsing the
    text directly gives. *)
Lemma C4_interior_backticks_removed :
  let t := text "{'recipes':[{'name':'a```b'}]}" in
  json_read t = Some (JObj [("recipes", JArr [JObj [("name", JStr "a```b")]])]) ∧
  Fence.cleanResponse (Fence.fenced t) = text "{'recipes':[{'name':'ab'}]}" ∧
  Fence.cleanResponse (Fence.fenced t) ≠ Str.trim t ∧
  (parseRecipeResponse tick_generateId json_parse_ref (Fence.fenced t) world0).1
  = Ok [JObj [("name", JStr "ab"); ("id", JStr "r0")]].
Proof. by vm_compute. Qed.

Lemma C4_fence_round_trip_witness :
  Fence.cleanResponse (Fence.fenced (text "{'recipes':[]}")) = text "{'recipes':[]}".
Proof.
  destruct (C4_fence_round_trip tick_generateId json_parse_ref
              (text "{'recipes':[]}") world0) as (_ & _ & _ & H).
  apply H. reflexivity.
Defined.

(** ** The mapper *)

Lemma lookup_set_member_eq k v members :
  lookup_member k (set_member k v members) = Some v.
Proof.
  induction members as [|[k' v'] members IH]; simpl.
  - by rewrite String.eqb_refl.
  - destruct (String.eqb k k') eqn:E; simpl; rewrite E; [done|exact IH].
Qed.

Lemma lookup_set_member_ne k k' v members :
  k' ≠ k → lookup_member k' (set_member k v members) = lookup_member k' members.
Proof.
  intros Hne. induction members as [|[k0 v0] members IH]; simpl.
  - apply String.eqb_neq in Hne. by rewrite Hne.
  - destruct (String.eqb k k0) eqn:E; simpl.
    + apply String.eqb_eq in E as <-.
      apply String.eqb_neq in Hne. by rewrite Hne.
    + by rewrite IH.
Qed.









(** ** The recipe route: success *)


Lemma POST_recipes_success {G} (generateId : G → string * G)
  (JSON_parse : string → string + json) (Number_toString : Q → string)
  (model_generateContent : string → result string)
  (body : json) (data : IngredientInput.t) (response : string) (v : json)
  (items : list json) (w : world G) :
  let prompt := buildRecipePrompt Number_toString (IngredientInput.ingredients data)
                  (IngredientInput.dietaryFilters data) (IngredientInput.servings data) in
  zod_parse IngredientInputSchema body = Ok data →
  model_generateContent prompt = Ok response →
  JSON_parse (Fence.cleanResponse response) = inr v →
  array_field "recipes" v = Some items →
  POST_recipes generateId JSON_parse Number_toString model_generateContent (Ok body) w =
  (Ok (recipes_response
         (zip_with with_id items (ids_from generateId (length items) (idgen w)))
         (clock w)),
   {| idgen := state_after generateId (length items) (idgen w);
      clock := clock w;
      trace := trace w ++ [PromptBuilt prompt; ModelCalled prompt] |}).
Proof.
  intros prompt Hzod Hmodel Hjson Harr.
  unfold POST_recipes, try_catch at 1, bind at 1, lift at 1, bind at 1, lift at 1.
  rewrite Hzod. unfold bind at 1, generateRecipes. fold prompt.
  unfold bind at 1, emit at 1, try_catch at 1, bind at 1, model_call, bind at 1,
    emit at 1, lift at 1.
  rewrite Hmodel, parseRecipeResponse_cases, Hjson, Harr.
  assert (v ≠ JNull) by (by intros ->).
  destruct v; try done; run_M; finish_M.
Qed.

(** C1 (amended).  Every Recipe of the result list that the route returns
    is the element of the same index of the recipes array of the model,
    with an id added.  The elements are not checked against the
    structural schema: whatever they are, they are passed on. *)
Theorem C1_recipes_passed_through {G} (generateId : G → string * G)
  (JSON_parse : string → string + json) (Number_toString : Q → string)
  (model_generateContent : string → result string)
  (body : json) (data : IngredientInput.t) (response : string) (v : json)
  (items : list json) (w : world G) :
  zod_parse IngredientInputSchema body = Ok data →
  model_generateContent
    (buildRecipePrompt Number_toString (IngredientInput.ingredients data)
       (IngredientInput.dietaryFilters data) (IngredientInput.servings data))
  = Ok response →
  JSON_parse (Fence.cleanResponse response) = inr v →
  array_field "recipes" v = Some items →
  ∃ recipes w',
    POST_recipes generateId JSON_parse Number_toString model_generateContent (Ok body) w
    = (Ok (recipes_response recipes (clock w)), w') ∧
    length recipes = length items ∧
    ∀ k item, items !! k = Some item → ∃ i, recipes !! k = Some (with_id item i).
Proof.
  intros Hzod Hmodel Hjson Harr.
  rewrite (POST_recipes_success _ _ _ _ _ _ _ _ _ _ Hzod Hmodel Hjson Harr).
  do 2 eexists. split; [reflexivity|].
  set (ids := ids_from generateId (length items) (idgen w)).
  assert (length ids = length items) as Hlen by apply length_ids_from.
  split.
  - rewrite length_zip_with. lia.
  - intros k item Hk.
    destruct (lookup_lt_is_Some_2 ids k) as [i Hi].
    { rewrite Hlen. by eapply lookup_lt_Some. }
    exists i. by rewrite lookup_zip_with, Hk, Hi.
Qed.


(** C1, as stated, fails on the code: a recipe object with only a name is
    returned, with success, though it does not satisfy the schema. *)
Lemma C1_partial_recipe_returned :
  let partial := JObj [("name", JStr "x"); ("id", JStr "r0")] in
  (POST_recipes tick_generateId json_parse_ref show_number
     (λ _, Ok (text "{'recipes':[{'name':'x'}]}")) (Ok two_ingredients) world0).1
  = Ok (recipes_response [partial] 0) ∧
  satisfies_RecipeSchema partial = false.
Proof. by vm_compute. Qed.

Lemma C1_recipes_passed_through_witness :
  ∃ recipes w',
    POST_recipes tick_generateId json_parse_ref show_number
      (λ _, Ok (text "{'recipes':[{'name':'x'}]}")) (Ok two_ingredients) world0
    = (Ok (recipes_response recipes 0), w') ∧
    length recipes = 1%nat.
Proof.
  destruct (C1_recipes_passed_through tick_generateId json_parse_ref show_number
              (λ _, Ok (text "{'recipes':[{'name':'x'}]}")) two_ingredients
              {| IngredientInput.ingredients := ["chicken"; "rice"];
                 IngredientInput.dietaryFilters := [];
                 IngredientInput.servings := 4%Q;
                 IngredientInput.maxPrepTime := None |}
              (text "{'recipes':[{'name':'x'}]}")
              (JObj [("recipes", JArr [JObj [("name", JStr "x")]])])
              [JObj [("name", JStr "x")]] world0
              eq_refl eq_refl eq_refl eq_refl)
    as (recipes & w' & E & Hlen & _).
  exists recipes, w'. done.
Defined.

(** ** The substitution route *)


Section SubstitutionRoute.

Context {G : Type}.
Variable JSON_parse : string → string + json.
Variable model_generateContent : string → result string.

Lemma generateSubstitutions_Ok ingredients dietaryFilters recipeName recipeType
  (w w' : world G) (v : json) :
  generateSubstitutions JSON_parse model_generateContent
    ingredients dietaryFilters recipeName recipeType w = (Ok v, w') →
  ∃ members, v = JObj members ∧ truthy (lookup_member "substitutions" members) = true.
Proof.
  destruct (model_generateContent
              (substitutionPrompt ingredients dietaryFilters recipeName recipeType))
    as [response|e] eqn:Hmodel.
  - rewrite (generateSubstitutions_cases JSON_parse model_generateContent
               _ _ _ _ response w Hmodel).
    destruct (JSON_parse (Fence.cleanResponse response)) as [m|parsed]; [done|].
    destruct (truthy (property "substitutions" parsed)) eqn:E; [|done].
    intros [= <- _]. destruct parsed; try done. eauto.
  - unfold generateSubstitutions, generateContent, model_call. run_M.
    by rewrite Hmodel.
Qed.

(** Whenever the substitution route answers 200, the substitutions field
    of the body is the whole parsed object, and the body has no
    generalTips field. *)
Lemma POST_substitutions_success_shape (request_json : result json)
  (w w' : world G) (response : Response) :
  POST_substitutions JSON_parse model_generateContent request_json w
  = (Ok response, w') →
  status response = 200%nat →
  (∃ members, property "substitutions" (body response) = Some (JObj members) ∧
              truthy (lookup_member "substitutions" members) = true) ∧
  array_field "substitutions" (body response) = None ∧
  property "generalTips" (body response) = None.
Proof.
  unfold POST_substitutions, try_catch at 1, bind at 1, lift at 1.
  destruct request_json as [data|e].
  2:{ run_M. destruct e; intros [= <- _]; discriminate. }
  unfold bind at 1, lift at 1.
  destruct (zod_parse SubstitutionRequestSchema data) as [validated|e].
  2:{ run_M. destruct e; intros [= <- _]; discriminate. }
  unfold bind at 1.
  destruct (generateSubstitutions _ _ _ _ _ _ w) as [[v|e] w1] eqn:E.
  2:{ run_M. destruct e; intros [= <- _]; discriminate. }
  apply generateSubstitutions_Ok in E as (members & -> & Ht).
  run_M. intros [= <- _] _. unfold array_field. simpl. eauto.
Qed.

End SubstitutionRoute.

(** C5, on the code: for a completion of the documented shape the body
    of the 200 response holds the whole parsed object under
    substitutions; that field is not an array, and the body has no
    generalTips field. *)
Lemma C5_substitutions_response_shape :
  let parsed := JObj [("substitutions",
                       JArr [JObj [("original", JStr "butter");
                                   ("alternatives", JArr [])]]);
                      ("generalTips", JArr [JStr "tip"])] in
  let response := {| status := 200;
                     body := JObj [("success", JBool true);
                                   ("substitutions", parsed);
                                   ("processingTime", JNum 0)] |} in
  json_read documented_completion = Some parsed ∧
  (POST_substitutions (G := nat) json_parse_ref (λ _, Ok documented_completion)
     (Ok (JObj [("ingredients", strings_json ["butter"])])) world0).1
  = Ok response ∧
  array_field "substitutions" (body response) = None ∧
  property "generalTips" (body response) = None.
Proof. by vm_compute. Qed.

(** ** The prompt builder, continued *)


(** C9.  The prompt is a function of its three inputs; it contains the
    ingredient names joined by commas, hence every ingredient name
    verbatim; it opens with the request for 3 recipe suggestions; and
    the dietary clause, the only part that depends on the filters, is
    the empty string exactly when the filter list is empty and otherwise
    names every filter. *)
Theorem C9_prompt_builder (Number_toString : Q → string)
  (ingredients dietaryFilters : list string) (servings : Q) :
  let prompt := buildRecipePrompt Number_toString ingredients dietaryFilters servings in
  (∀ ingredients' dietaryFilters' servings',
     ingredients' = ingredients → dietaryFilters' = dietaryFilters →
     servings' = servings →
     buildRecipePrompt Number_toString ingredients' dietaryFilters' servings' = prompt) ∧
  Str.occurs (Str.join ", " ingredients) prompt ∧
  (∀ i, i ∈ ingredients → Str.occurs i prompt) ∧
  Str.startsWith three_variants prompt = true ∧
  (∃ before after, ∀ filters,
     buildRecipePrompt Number_toString ingredients filters servings
     = before +:+ dietary_clause filters +:+ after) ∧
  (dietary_clause dietaryFilters = "" ↔ dietaryFilters = []) ∧
  (dietaryFilters ≠ [] →
   dietary_clause dietaryFilters
   = "- Must comply with: " +:+ Str.join ", " dietaryFilters +:+ " dietary requirements" ∧
   Str.occurs (dietary_clause dietaryFilters) prompt ∧
   ∀ f, f ∈ dietaryFilters → Str.occurs f prompt).
Proof.
  intros prompt.
  assert (Str.occurs (Str.join ", " ingredients) prompt) as Hjoin.
  { subst prompt. rewrite buildRecipePrompt_eq.
    apply occurs_app_r, occurs_app_l, occurs_refl. }
  assert (Str.occurs (dietary_clause dietaryFilters) prompt) as Hclause.
  { subst prompt. rewrite buildRecipePrompt_eq.
    do 5 apply occurs_app_r. apply occurs_app_l, occurs_refl. }
  split; [by intros ??? -> -> ->|].
  split; [done|].
  split; [intros i Hi; eapply occurs_trans; [by apply occurs_join|done]|].
  split.
  { subst prompt. rewrite buildRecipePrompt_eq.
    change (Str.trimStart recipe_prompt_intro)
      with (three_variants +:+ " based on these available ingredients: ").
    rewrite app_assoc_s. apply prefix_app_self. }
  split.
  { exists (Str.trimStart recipe_prompt_intro +:+ Str.join ", " ingredients +:+
            recipe_prompt_requirements +:+ Number_toString servings +:+
            recipe_prompt_substitutions),
           (recipe_prompt_shape +:+ Number_toString servings +:+
            Str.trimEnd recipe_prompt_rest).
    intros filters. rewrite buildRecipePrompt_eq. by rewrite !app_assoc_s. }
  split; [apply dietary_clause_empty|].
  intros Hne. split; [by destruct dietaryFilters|]. split; [done|].
  intros f Hf. eapply occurs_trans; [|exact Hclause].
  destruct dietaryFilters as [|f0 fs]; [done|]. unfold dietary_clause. cbn [length Nat.ltb Nat.leb].
  apply occurs_app_r, occurs_app_l. by apply occurs_join.
Qed.

Lemma C9_prompt_builder_witness :
  let prompt := buildRecipePrompt show_number ["chicken"; "rice"] ["vegan"; "keto"] 4 in
  Str.occurs "chicken, rice" prompt ∧
  Str.occurs "- Must comply with: vegan, keto dietary requirements" prompt ∧
  Str.occurs "keto" prompt.
Proof.
  intros prompt.
  destruct (C9_prompt_builder show_number ["chicken"; "rice"] ["vegan"; "keto"] 4)
    as (_ & Hjoin & _ & _ & _ & _ & Hclause).
  destruct (Hclause ltac:(discriminate)) as (_ & Hc & Hf).
  split; [exact Hjoin|]. split; [exact Hc|].
  apply Hf. apply elem_of_cons. right. apply elem_of_cons. by left.
Defined.

(** ** The client state *)

Section HookFacts.

Context {Recipe : Type}.

Import UseRecipes.

#[local] Abbreviation state := (RecipeState Recipe).


Lemma apply_settled (u : update Recipe) (s : state) : settled s → settled (apply u s).
Proof. unfold settled. destruct u; simpl; try done. Qed.

Lemma reachable_settled c : reachable (Recipe := Recipe) c → settled c.2.
Proof.
  induction 1 as [|c u c' _ IH Hstep]; [done|].
  destruct Hstep; simpl in *;
    first [ by apply (apply_settled GenerateStart)
          | by apply (apply_settled (GenerateSuccess _))
          | by apply (apply_settled (GenerateFailure _))
          | by apply (apply_settled ClearRecipes)
          | by apply (apply_settled (SelectRecipe _))
          | by apply (apply_settled ClearError) ].
Qed.

Lemma one_at_a_time_pending c :
  reachable_one_at_a_time (Recipe := Recipe) c →
  c.1 = if loading c.2 then 1%nat else 0%nat.
Proof.
  induction 1 as [|c u c' _ IH Hstep Hguard]; [done|].
  destruct Hstep; simpl in *; try done.
  - rewrite Hguard in IH by done. by rewrite IH.
  - destruct (loading s); congruence.
  - destruct (loading s); congruence.
Qed.

(** C10.  Whenever loading is true the error is null: in the initial
    state, after every update from a state where this holds, hence in
    every state the hook reaches.  An update that makes the error
    non-null is the failure update of [generateRecipes], which sets
    loading to false in the same update; when calls are made one at a
    time, loading was true before it. *)
Theorem C10_loading_implies_no_error :
  settled (initial (Recipe := Recipe)) ∧
  (∀ (u : update Recipe) (s : state), settled s → settled (apply u s)) ∧
  (∀ c, reachable (Recipe := Recipe) c → settled c.2) ∧
  (∀ (u : update Recipe) (s : state),
     error s = None → error (apply u s) ≠ None →
     loading (apply u s) = false ∧ ∃ e, u = GenerateFailure e) ∧
  (∀ c u c',
     reachable_one_at_a_time (Recipe := Recipe) c → step c u c' →
     error c.2 = None → error c'.2 ≠ None →
     loading c.2 = true ∧ loading c'.2 = false).
Proof.
  split; [done|]. split; [apply apply_settled|]. split; [apply reachable_settled|].
  split.
  - intros u s Hs Hne. destruct u; simpl in *; try done. eauto.
  - intros c u c' Hc Hstep Hs Hne.
    apply one_at_a_time_pending in Hc.
    destruct Hstep; simpl in *; try done.
    by destruct (loading s).
Qed.

End HookFacts.

Lemma C10_loading_implies_no_error_witness :
  let s := UseRecipes.apply (UseRecipes.GenerateFailure (Error "HTTP error! status: 500"))
             (UseRecipes.apply UseRecipes.GenerateStart (UseRecipes.initial (Recipe := json))) in
  UseRecipes.loading s = false ∧ UseRecipes.error s = Some "HTTP error! status: 500".
Proof.
  intros s.
  destruct (C10_loading_implies_no_error (Recipe := json)) as (_ & _ & _ & H & _).
  destruct (H (UseRecipes.GenerateFailure (Error "HTTP error! status: 500"))
              (UseRecipes.apply UseRecipes.GenerateStart UseRecipes.initial)
              eq_refl ltac:(discriminate)) as [Hl _].
  split; [exact Hl|reflexivity].
Defined.
(** ** The recipe route: every outcome *)

Section RecipeRoute.

Context {G : Type}.
Variable generateId : G → string * G.
Variable JSON_parse : string → string + json.
Variable Number_toString : Q → string.
Variable model_generateContent : string → result string.

Lemma parseRecipeResponse_completion (response : string) (w : world G) :
  parseRecipeResponse generateId JSON_parse response w =
  match completion_recipes JSON_parse response with
  | inr items =>
      (Ok (zip_with with_id items (ids_from generateId (length items) (idgen w))),
       {| idgen := state_after generateId (length items) (idgen w);
          clock := clock w; trace := trace w |})
  | inl cause => parse_failure cause w
  end.
Proof.
  rewrite parseRecipeResponse_cases. unfold completion_recipes.
  destruct (JSON_parse (Fence.cleanResponse response)) as [m|v]; [done|].
  destruct v; try done; by destruct (array_field _ _).
Qed.

Lemma generateRecipes_cases ingredients dietaryFilters servings (w : world G) :
  let prompt := buildRecipePrompt Number_toString ingredients dietaryFilters servings in
  generateRecipes generateId JSON_parse Number_toString model_generateContent
    ingredients dietaryFilters servings w =
  match model_generateContent prompt with
  | Throw e =>
      (Throw (RecipeGenerationError "Failed to generate recipes" e),
       add_events [PromptBuilt prompt; ModelCalled prompt;
                   ConsoleError "Gemini API Error:"] w)
  | Ok response =>
      match completion_recipes JSON_parse response with
      | inr items =>
          (Ok (zip_with with_id items (ids_from generateId (length items) (idgen w))),
           {| idgen := state_after generateId (length items) (idgen w);
              clock := clock w;
              trace := trace w ++ [PromptBuilt prompt; ModelCalled prompt] |})
      | inl cause =>
          (Throw (RecipeGenerationError "Failed to generate recipes"
                    (RecipeParsingError "Failed to parse AI response" cause)),
           add_events [PromptBuilt prompt; ModelCalled prompt;
                       ConsoleError "Failed to parse recipe response:";
                       ConsoleError "Gemini API Error:"] w)
      end
  end.
Proof.
  intros prompt. unfold generateRecipes. fold prompt.
  unfold bind at 1, emit at 1, try_catch at 1, bind at 1, model_call, bind at 1,
    emit at 1, lift at 1.
  destruct (model_generateContent prompt) as [response|e].
  - rewrite parseRecipeResponse_completion.
    destruct (completion_recipes JSON_parse response) as [cause|items].
    + unfold parse_failure, logged, add_events. run_M. finish_M.
    + unfold add_events. cbn [idgen clock trace]. rewrite <- !app_assoc. reflexivity.
  - unfold add_events. run_M. finish_M.
Qed.

Lemma POST_recipes_cases (request_json : result json) (w : world G) :
  POST_recipes generateId JSON_parse Number_toString model_generateContent request_json w =
  match request_json with
  | Throw e => (Ok (recipes_catch e), logged "API Error:" w)
  | Ok body =>
      match zod_parse IngredientInputSchema body with
      | Throw e => (Ok (recipes_catch e), logged "API Error:" w)
      | Ok data =>
          match generateRecipes generateId JSON_parse Number_toString
                  model_generateContent (IngredientInput.ingredients data)
                  (IngredientInput.dietaryFilters data)
                  (IngredientInput.servings data) w with
          | (Ok recipes, w') => (Ok (recipes_response recipes (clock w')), w')
          | (Throw e, w') => (Ok (recipes_catch e), logged "API Error:" w')
          end
      end
  end.
Proof.
  unfold POST_recipes, try_catch at 1, bind at 1, lift at 1.
  destruct request_json as [body|e].
  2:{ unfold bind, console_error, emit, logged. by destruct e. }
  unfold bind at 1, lift at 1.
  destruct (zod_parse IngredientInputSchema body) as [data|e].
  2:{ unfold bind, console_error, emit, logged. by destruct e. }
  unfold bind at 1.
  destruct (generateRecipes _ _ _ _ _ _ _ w) as [[recipes|e] w'].
  - reflexivity.
  - unfold bind, console_error, emit, logged. by destruct e.
Qed.

Lemma status_recipes_catch (e : exn) :
  (status (recipes_catch e) = 400%nat ∨ status (recipes_catch e) = 500%nat) ∧
  property "success" (body (recipes_catch e)) = Some (JBool false).
Proof. destruct e; simpl; auto. Qed.

(** X1.  The recipe route answers every request: the handler never
    throws, whatever the request, the provider and the completion are.
    The status of the answer is 200, 400 or 500, the success member of
    the body tells whether it is 200, the clock is not advanced and the
    trace only grows. *)
Theorem POST_recipes_always_answers (request_json : result json) (w : world G) :
  ∃ response w' new_events,
    POST_recipes generateId JSON_parse Number_toString model_generateContent
      request_json w = (Ok response, w') ∧
    (status response = 200%nat ∨ status response = 400%nat ∨ status response = 500%nat) ∧
    property "success" (body response) = Some (JBool (status response =? 200)%nat) ∧
    clock w' = clock w ∧
    trace w' = trace w ++ new_events.
Proof.
  rewrite POST_recipes_cases.
  assert (∀ e (w1 : world G) es, clock w1 = clock w → trace w1 = trace w ++ es →
    ∃ response w' new_events,
      (Ok (recipes_catch e), logged "API Error:" w1) = (Ok response, w') ∧
      (status response = 200%nat ∨ status response = 400%nat ∨ status response = 500%nat) ∧
      property "success" (body response) = Some (JBool (status response =? 200)%nat) ∧
      clock w' = clock w ∧ trace w' = trace w ++ new_events) as Hcatch.
  { intros e w1 es Hc Ht. eexists _, _, (es ++ [ConsoleError "API Error:"]).
    split; [reflexivity|].
    destruct (status_recipes_catch e) as [Hs Hb].
    split; [tauto|]. split.
    - rewrite Hb. by destruct Hs as [-> | ->].
    - simpl. by rewrite Ht, app_assoc. }
  destruct request_json as [body|e].
  2:{ apply (Hcatch e w []); [done|by rewrite app_nil_r]. }
  destruct (zod_parse IngredientInputSchema body) as [data|e].
  2:{ apply (Hcatch e w []); [done|by rewrite app_nil_r]. }
  rewrite generateRecipes_cases.
  destruct (model_generateContent _) as [response|e].
  - destruct (completion_recipes JSON_parse response) as [cause|items].
    + eapply Hcatch; [reflexivity|]. reflexivity.
    + eexists _, _, _. split; [reflexivity|]. simpl. auto.
  - eapply Hcatch; reflexivity.
Qed.

(** X2.  The route answers 200 exactly when the body passes the input
    validation, the provider returns a completion and the cleaned
    completion parses to a value with a recipes array; the answer then
    counts the recipes of that array. *)
Theorem POST_recipes_200_iff (body : json) (w : world G) :
  let out := POST_recipes generateId JSON_parse Number_toString model_generateContent
               (Ok body) w in
  (∃ response, out.1 = Ok response ∧ status response = 200%nat) ↔
  (∃ data completion items,
     zod_parse IngredientInputSchema body = Ok data ∧
     model_generateContent (prompt_of Number_toString data) = Ok completion ∧
     completion_recipes JSON_parse completion = inr items ∧
     ∃ recipes, out.1 = Ok (recipes_response recipes (clock w)) ∧
                length recipes = length items).
Proof.
  intros out. subst out. rewrite POST_recipes_cases. unfold prompt_of.
  destruct (zod_parse IngredientInputSchema body) as [data|e]; cbn [fst].
  2:{ split.
      - intros (response & [= <-] & Hs). destruct (status_recipes_catch e) as [[H|H] _];
          rewrite H in Hs; discriminate.
      - intros (? & ? & ? & ? & _). discriminate. }
  rewrite generateRecipes_cases.
  destruct (model_generateContent _) as [completion|e] eqn:Hm; cbn [fst].
  2:{ split.
      - intros (response & [= <-] & Hs). discriminate.
      - intros (? & ? & ? & [= <-] & ? & _). congruence. }
  destruct (completion_recipes JSON_parse completion) as [cause|items] eqn:E; cbn [fst].
  { split.
    - intros (response & [= <-] & Hs). discriminate.
    - intros (? & ? & ? & [= <-] & ? & ? & _). congruence. }
  split.
  - intros _. exists data, completion, items. repeat split; try done.
    eexists. split; [reflexivity|].
    rewrite length_zip_with, length_ids_from. lia.
  - intros _. eexists. split; [reflexivity|done].
Qed.

(** X3.  Once the body has passed the input validation, every failure of
    the generation is answered alike: whether the provider throws, the
    completion is not JSON or the recipes array is missing, the answer is
    the one 500 response with the fixed message.  The error of the
    provider and the cause of the parse failure do not reach the client,
    and no identifier is consumed. *)
Theorem POST_recipes_generation_failure_opaque (body : json) (data : IngredientInput.t)
  (w : world G) :
  zod_parse IngredientInputSchema body = Ok data →
  (∃ e, model_generateContent (prompt_of Number_toString data) = Throw e) ∨
  (∃ completion cause,
     model_generateContent (prompt_of Number_toString data) = Ok completion ∧
     completion_recipes JSON_parse completion = inl cause) →
  ∃ w',
    POST_recipes generateId JSON_parse Number_toString model_generateContent (Ok body) w
    = (Ok generation_error_response, w') ∧
    idgen w' = idgen w.
Proof.
  intros Hzod H. rewrite POST_recipes_cases, Hzod, generateRecipes_cases.
  unfold prompt_of in H.
  destruct H as [[e ->]|(completion & cause & -> & ->)]; eexists; split; reflexivity.
Qed.

(** X4.  A request that has passed the input validation costs exactly one
    call of the provider, with the prompt built from the validated data:
    in every outcome the model events of the run are the building of
    that prompt followed by one call with it.  There is no retry. *)
Theorem POST_recipes_calls_model_once (body : json) (data : IngredientInput.t)
  (w : world G) :
  zod_parse IngredientInputSchema body = Ok data →
  ∃ response w' new_events,
    POST_recipes generateId JSON_parse Number_toString model_generateContent (Ok body) w
    = (Ok response, w') ∧
    trace w' = trace w ++ new_events ∧
    model_events new_events =
      [PromptBuilt (prompt_of Number_toString data);
       ModelCalled (prompt_of Number_toString data)].
Proof.
  intros Hzod. rewrite POST_recipes_cases, Hzod, generateRecipes_cases.
  fold (prompt_of Number_toString data).
  destruct (model_generateContent _) as [completion|e].
  - destruct (completion_recipes JSON_parse completion) as [cause|items].
    + eexists _, _, _. split; [reflexivity|]. split.
      * unfold logged, add_events. cbn [trace]. rewrite <- app_assoc. reflexivity.
      * reflexivity.
    + eexists _, _, _. split; [reflexivity|]. split; reflexivity.
  - eexists _, _, _. split; [reflexivity|]. split.
    + unfold logged, add_events. cbn [trace]. rewrite <- app_assoc. reflexivity.
    + reflexivity.
Qed.

(** X5.  A request whose body cannot be read is not answered as a
    validation failure: whatever the reading throws, unless it is a
    ZodError, the answer has status 500, the model is not called, and the
    only effect is the console message.  For the SyntaxError of a body
    that is not JSON the answer carries the name and the message of that
    error. *)
Theorem POST_recipes_unreadable_body (e : exn) (w : world G) :
  (∀ errors, e ≠ ZodError errors) →
  ∃ response,
    POST_recipes generateId JSON_parse Number_toString model_generateContent (Throw e) w
    = (Ok response, logged "API Error:" w) ∧
    status response = 500%nat ∧
    (∀ m, e = SyntaxError m → response = error_response "SyntaxError" m).
Proof.
  intros He. rewrite POST_recipes_cases. eexists. split; [reflexivity|].
  destruct e as [errors| | | | | |]; [by destruct (He errors)|..];
    (split; [done|]); intros ? [=]; by subst.
Qed.

End RecipeRoute.

Lemma POST_recipes_generation_failure_opaque_witness :
  ∃ w',
    POST_recipes tick_generateId json_parse_ref show_number (λ _, Ok "no recipes today")
      (Ok two_ingredients) world0
    = (Ok generation_error_response, w') ∧
    idgen w' = 0%nat.
Proof.
  apply (POST_recipes_generation_failure_opaque tick_generateId json_parse_ref show_number
           (λ _, Ok "no recipes today") two_ingredients
           {| IngredientInput.ingredients := ["chicken"; "rice"];
              IngredientInput.dietaryFilters := [];
              IngredientInput.servings := 4%Q;
              IngredientInput.maxPrepTime := None |} world0).
  - reflexivity.
  - right. exists "no recipes today", (SyntaxError "Unexpected token").
    split; reflexivity.
Defined.

Lemma POST_recipes_calls_model_once_witness :
  ∃ response w' new_events,
    POST_recipes tick_generateId json_parse_ref show_number (λ _, Throw (Error "quota"))
      (Ok two_ingredients) world0
    = (Ok response, w') ∧
    trace w' = [] ++ new_events ∧
    length (model_events new_events) = 2%nat.
Proof.
  destruct (POST_recipes_calls_model_once tick_generateId json_parse_ref show_number
              (λ _, Throw (Error "quota")) two_ingredients
              {| IngredientInput.ingredients := ["chicken"; "rice"];
                 IngredientInput.dietaryFilters := [];
                 IngredientInput.servings := 4%Q;
                 IngredientInput.maxPrepTime := None |} world0 eq_refl)
    as (response & w' & new_events & E & Ht & Hm).
  exists response, w', new_events. rewrite Hm. done.
Defined.

Lemma POST_recipes_unreadable_body_witness :
  ∃ response,
    POST_recipes tick_generateId json_parse_ref show_number (λ _, Ok "")
      (Throw (SyntaxError "Unexpected end of JSON input")) world0
    = (Ok response, logged "API Error:" world0) ∧
    status response = 500%nat.
Proof.
  destruct (POST_recipes_unreadable_body tick_generateId json_parse_ref show_number
              (λ _, Ok "") (SyntaxError "Unexpected end of JSON input") world0)
    as (response & E & Hs & _).
  - intros errors. discriminate.
  - exists response. by split.
Defined.

(** ** The substitution route: every outcome *)

Section SubstitutionRouteOutcomes.

Context {G : Type}.
Variable JSON_parse : string → string + json.
Variable model_generateContent : string → result string.

(** The outcome of [generateSubstitutions] when the provider throws. *)
Lemma generateSubstitutions_provider_throws ingredients dietaryFilters recipeName recipeType
  (e : exn) (w : world G) :
  let prompt := substitutionPrompt ingredients dietaryFilters recipeName recipeType in
  model_generateContent prompt = Throw e →
  generateSubstitutions JSON_parse model_generateContent
    ingredients dietaryFilters recipeName recipeType w =
  (Throw substitution_failure,
   add_events [PromptBuilt prompt; ModelCalled prompt; ConsoleError "Gemini API Error:";
               ConsoleError "Failed to generate substitutions:"] w).
Proof.
  intros prompt Hmodel. unfold generateSubstitutions. fold prompt.
  unfold generateContent, model_call, add_events. run_M. rewrite Hmodel.
  cbn [idgen clock trace]. rewrite <- !app_assoc. reflexivity.
Qed.

Lemma generateSubstitutions_outcome ingredients dietaryFilters recipeName recipeType
  (w : world G) :
  let out := generateSubstitutions JSON_parse model_generateContent
               ingredients dietaryFilters recipeName recipeType w in
  clock out.2 = clock w ∧
  ((∃ v, out.1 = Ok v) ∨ out.1 = Throw substitution_failure).
Proof.
  intros out. subst out.
  destruct (model_generateContent
              (substitutionPrompt ingredients dietaryFilters recipeName recipeType))
    as [response|e] eqn:Hmodel.
  - rewrite (generateSubstitutions_cases JSON_parse model_generateContent
               _ _ _ _ response w Hmodel).
    destruct (JSON_parse (Fence.cleanResponse response)) as [m|v]; [by auto|].
    destruct (truthy (property "substitutions" v)); simpl; eauto.
  - rewrite (generateSubstitutions_provider_throws _ _ _ _ e w Hmodel). auto.
Qed.

Lemma POST_substitutions_cases (request_json : result json) (w : world G) :
  POST_substitutions JSON_parse model_generateContent request_json w =
  match request_json with
  | Throw e => (Ok (substitutions_catch e), logged "Substitution API Error:" w)
  | Ok body =>
      match zod_parse SubstitutionRequestSchema body with
      | Throw e => (Ok (substitutions_catch e), logged "Substitution API Error:" w)
      | Ok data =>
          match generateSubstitutions JSON_parse model_generateContent
                  (SubstitutionRequest.ingredients data)
                  (SubstitutionRequest.dietaryFilters data)
                  (SubstitutionRequest.recipeName data)
                  (SubstitutionRequest.recipeType data) w with
          | (Ok substitutions, w') =>
              (Ok (substitutions_response substitutions (clock w')), w')
          | (Throw e, w') =>
              (Ok (substitutions_catch e), logged "Substitution API Error:" w')
          end
      end
  end.
Proof.
  unfold POST_substitutions, try_catch at 1, bind at 1, lift at 1.
  destruct request_json as [body|e].
  2:{ unfold bind, console_error, emit, logged. by destruct e. }
  unfold bind at 1, lift at 1.
  destruct (zod_parse SubstitutionRequestSchema body) as [data|e].
  2:{ unfold bind, console_error, emit, logged. by destruct e. }
  unfold bind at 1.
  destruct (generateSubstitutions _ _ _ _ _ _ w) as [[v|e] w'].
  - reflexivity.
  - unfold bind, console_error, emit, logged. by destruct e.
Qed.

(** X6.  The substitution route answers every request: the handler never
    throws, and the status of the answer is 200, 400 or 500.  Once the
    body has passed the validation, an answer other than 200 is the one
    500 response with the fixed message, whatever has failed: the
    provider, the reading of the completion as JSON, or the check of its
    substitutions member. *)
Theorem POST_substitutions_always_answers (request_json : result json) (w : world G) :
  ∃ response w',
    POST_substitutions JSON_parse model_generateContent request_json w
    = (Ok response, w') ∧
    (status response = 200%nat ∨ status response = 400%nat ∨ status response = 500%nat) ∧
    (∀ body data, request_json = Ok body →
       zod_parse SubstitutionRequestSchema body = Ok data →
       status response ≠ 200%nat → response = substitution_error_response).
Proof.
  rewrite POST_substitutions_cases.
  assert (∀ e, status (substitutions_catch e) = 400%nat ∨
               status (substitutions_catch e) = 500%nat) as Hcatch
    by (intros []; simpl; auto).
  destruct request_json as [body|e].
  2:{ eexists _, _. split; [reflexivity|]. split; [destruct (Hcatch e); auto|].
      intros ? ? [=]. }
  destruct (zod_parse SubstitutionRequestSchema body) as [data|e] eqn:Hz.
  2:{ eexists _, _. split; [reflexivity|]. split; [destruct (Hcatch e); auto|].
      intros ? ? [= <-]. congruence. }
  pose proof (generateSubstitutions_outcome (SubstitutionRequest.ingredients data)
                (SubstitutionRequest.dietaryFilters data)
                (SubstitutionRequest.recipeName data)
                (SubstitutionRequest.recipeType data) w) as [_ H].
  destruct (generateSubstitutions _ _ _ _ _ _ w) as [[v|e] w']; simpl in H.
  - eexists _, _. split; [reflexivity|]. split; [by left|]. intros ? ? _ _ Hs. by destruct Hs.
  - destruct H as [[v [=]]|[= ->]].
    eexists _, _. split; [reflexivity|]. split; [by right; right|]. done.
Qed.

End SubstitutionRouteOutcomes.

(** ** The schema of the substitution request *)

Lemma z_string_plain p s : z_string [] p (Some (JStr s)) = (Some s, []).
Proof. reflexivity. Qed.

Lemma string_items_ok (path_of : nat → list path_elem) (l : list string) :
  let rs := imap (λ i x, z_string [] (path_of i) (Some x)) (JStr <$> l) in
  merge_values rs = Some l ∧ all_issues rs = [].
Proof.
  revert path_of. induction l as [|s l IH]; intros path_of; [done|].
  destruct (IH (path_of ∘ S)) as [E1 E2].
  cbv zeta in *. rewrite fmap_cons, imap_cons, z_string_plain.
  change ((λ i x, z_string [] (path_of i) (Some x)) ∘ S)
    with (λ i x, z_string [] ((path_of ∘ S) i) (Some x)).
  unfold all_issues in *. cbn [merge_values flat_map snd app].
  split; [by rewrite E1 | exact E2].
Qed.

Lemma string_array_ok p minLength (l : list string) :
  z_array (z_string []) minLength None p (Some (strings_json l))
  = (Some l, length_issues p (length l) minLength None).
Proof.
  unfold z_array, strings_json. rewrite length_fmap.
  destruct (string_items_ok (λ i, p ++ [PIndex i]) l) as [-> ->].
  by rewrite app_nil_r.
Qed.

Lemma SubstitutionRequestSchema_body l filters recipeName recipeType :
  SubstitutionRequestSchema [] (Some (substitution_body l filters recipeName recipeType)) =
  (Some {| SubstitutionRequest.ingredients := l;
           SubstitutionRequest.dietaryFilters := default [] filters;
           SubstitutionRequest.recipeName := recipeName;
           SubstitutionRequest.recipeType := recipeType |},
   if (length l <? 1)%nat
   then [issue [PKey "ingredients"] "At least one ingredient required"] else []).
Proof.
  assert (SubstitutionRequestSchema [] (Some (substitution_body l filters recipeName recipeType))
          = pr_pure SubstitutionRequest.Build_t
            <&> z_array (z_string []) (Some (1%nat, "At least one ingredient required")) None
                  [PKey "ingredients"] (Some (strings_json l))
            <&> (let '(v, iss) :=
                   z_array (z_string []) None None [PKey "dietaryFilters"]
                     (Some (strings_json (default [] filters))) in
                 (default [] <$> (Some <$> v), iss))
            <&> (Some recipeName, [])
            <&> (Some recipeType, [])) as ->.
  { destruct filters, recipeName, recipeType; reflexivity. }
  rewrite !string_array_ok. unfold length_issues, pr_ap, pr_pure. cbn.
  by rewrite !app_nil_r.
Qed.

(** X7.  The schema of the substitution request asks one thing of a body
    built from typed values: that the ingredient list is not empty.  Such
    a body is accepted with the filters defaulting to the empty list and
    the two names kept; the filters are not checked against the dietary
    options, the ingredients are not bounded in number or in length, and
    the empty ingredient list is refused with the one message. *)
Theorem SubstitutionRequestSchema_accepts (l : list string)
  (dietaryFilters : option (list string)) (recipeName recipeType : option string) :
  zod_parse SubstitutionRequestSchema
    (substitution_body l dietaryFilters recipeName recipeType) =
  match l with
  | [] => Throw (ZodError [issue [PKey "ingredients"] "At least one ingredient required"])
  | _ => Ok {| SubstitutionRequest.ingredients := l;
               SubstitutionRequest.dietaryFilters := default [] dietaryFilters;
               SubstitutionRequest.recipeName := recipeName;
               SubstitutionRequest.recipeType := recipeType |}
  end.
Proof.
  unfold zod_parse. rewrite SubstitutionRequestSchema_body. by destruct l.
Qed.

(** ** The mapper and the schema of a recipe *)

Lemma accepted_ap {A B} (f : ParseReturn (A → B)) (x : ParseReturn A) :
  accepted (f <&> x) = accepted f && accepted x.
Proof.
  destruct f as [[g|] [|i fi]], x as [[a|] [|j xi]]; reflexivity.
Qed.

Lemma satisfies_accepted (v : json) :
  satisfies_RecipeSchema v = accepted (RecipeSchema [] (Some v)).
Proof.
  unfold satisfies_RecipeSchema, zod_parse, accepted.
  by destruct (RecipeSchema [] (Some v)) as [[a|] [|i iss]].
Qed.

(** The verdict of the schema on an object is that of its sixteen
    members, each taken alone. *)
Lemma RecipeSchema_accepted_members (members : list (string * json)) :
  accepted (RecipeSchema [] (Some (JObj members))) =
  accepted (z_string [] [PKey "id"] (lookup_member "id" members)) &&
  accepted (RecipeSchema [] (Some (JObj (set_member "id" (JStr "") members)))).
Proof.
  unfold RecipeSchema, z_object, field.
  rewrite !accepted_ap, lookup_set_member_eq.
  rewrite !lookup_set_member_ne by done.
  cbn [app]. rewrite z_string_plain. cbn [accepted pr_pure andb].
  rewrite <- !andb_assoc. reflexivity.
Qed.

(** X8.  The identifier that the mapper assigns plays no part in the
    verdict of the schema of a recipe: an item with one identifier
    satisfies it exactly when the item with any other does; and the
    mapper keeps a valid recipe valid, overwriting the id it had. *)
Theorem with_id_schema_verdict (recipe : json) (i j : string) :
  satisfies_RecipeSchema (with_id recipe i) = satisfies_RecipeSchema (with_id recipe j) ∧
  (satisfies_RecipeSchema recipe = true → satisfies_RecipeSchema (with_id recipe i) = true).
Proof.
  assert (∀ k members,
            accepted (RecipeSchema [] (Some (JObj (set_member "id" (JStr k) members)))) =
            accepted (RecipeSchema [] (Some (JObj (set_member "id" (JStr "") members)))))
    as Hid.
  { intros k members. unfold RecipeSchema, z_object, field.
    rewrite !accepted_ap, !lookup_set_member_eq.
    rewrite !lookup_set_member_ne by done.
    cbn [app]. by rewrite !z_string_plain. }
  rewrite !satisfies_accepted. unfold with_id. split.
  - by rewrite (Hid i), (Hid j).
  - destruct recipe as [| | | | |members]; try done.
    cbn [spread]. rewrite RecipeSchema_accepted_members, (Hid i).
    by intros [_ H]%andb_true_iff.
Qed.

Lemma with_id_schema_verdict_witness :
  satisfies_RecipeSchema (with_id plain_recipe "r0") = true.
Proof.
  apply (with_id_schema_verdict plain_recipe "r0" "r0"). reflexivity.
Defined.

(** ** The ingredient form: runs *)

Lemma filter_index_all {A} (l : list A) : filter_index (λ _, true) l = l.
Proof.
  induction l as [|x l IH]; [done|]. cbn [filter_index].
  change ((λ _ : nat, true) ∘ S) with (λ _ : nat, true). by rewrite IH.
Qed.

Lemma removeIngredient_delete (index : nat) (l : list string) :
  removeIngredient index l = delete index l.
Proof.
  unfold removeIngredient. revert index.
  induction l as [|x l IH]; intros index; [by destruct index|].
  destruct index as [|index]; cbn [filter_index].
  - apply filter_index_all.
  - change (x :: filter_index (λ i, negb (i =? index)%nat) l = x :: delete index l).
    f_equal. apply IH.
Qed.

(** X9.  [removeIngredient] deletes the item at the index and nothing
    else: the list filtered by position is the list with that position
    deleted; an index beyond the list leaves the list as it is; and
    removing the item that was added last gives the list back. *)
Theorem removeIngredient_deletes_one (index : nat) (l : list string) (x : string) :
  removeIngredient index l = delete index l ∧
  ((length l ≤ index)%nat → removeIngredient index l = l) ∧
  ((index < length l)%nat → S (length (removeIngredient index l)) = length l) ∧
  removeIngredient (length l) (l ++ [x]) = l.
Proof.
  rewrite !removeIngredient_delete. repeat split.
  - intros H. revert index H. induction l as [|y l IH]; intros [|index] H; simpl in *;
      try done; try lia. f_equal. apply IH. lia.
  - intros H. rewrite length_delete; [lia|]. by apply lookup_lt_is_Some_2.
  - induction l as [|y l IH]; [done|]. simpl. by rewrite IH.
Qed.

Lemma removeIngredient_deletes_one_witness :
  S (length (removeIngredient 1 ["egg"; "rice"; "salt"])) = 3%nat.
Proof.
  apply (removeIngredient_deletes_one 1 ["egg"; "rice"; "salt"] ""). simpl. lia.
Defined.

Lemma filter_ne_absent (f : string) (l : list string) :
  f ∉ l → filter (λ g, g ≠ f) l = l.
Proof.
  induction l as [|g l IH]; [done|].
  intros [Hne Hin]%not_elem_of_cons.
  rewrite filter_cons_True by (intros ->; by apply Hne). by rewrite IH.
Qed.

Lemma handleToggle_elem_of (selectedFilters : list string) (f g : string) :
  g ∈ handleToggle selectedFilters f ↔
  (g ≠ f ∧ g ∈ selectedFilters) ∨ (g = f ∧ f ∉ selectedFilters).
Proof.
  unfold handleToggle. case_bool_decide as Hin.
  - rewrite list_elem_of_filter. split; [tauto|].
    intros [H|[_ H]]; [tauto|done].
  - rewrite elem_of_app, list_elem_of_singleton. split.
    + intros [H|H]; [left|by right]. split; [|done]. by intros ->.
    + intros [[_ H]|[H _]]; [by left|by right].
Qed.

Lemma handleToggle_NoDup (selectedFilters : list string) (f : string) :
  NoDup selectedFilters → NoDup (handleToggle selectedFilters f).
Proof.
  intros Hnd. unfold handleToggle. case_bool_decide as Hin.
  - by apply NoDup_filter.
  - apply NoDup_app. split; [done|]. split; [|apply NoDup_singleton].
    intros g Hg ->%list_elem_of_singleton. done.
Qed.

(** X10.  [handleToggle] switches the membership of the one filter and of
    no other; it keeps a selection free of repetitions; and toggling a
    filter that was not selected twice gives the selection back. *)
Theorem handleToggle_switches (selectedFilters : list string) (f : string) :
  (∀ g, g ∈ handleToggle selectedFilters f ↔
        (g ≠ f ∧ g ∈ selectedFilters) ∨ (g = f ∧ f ∉ selectedFilters)) ∧
  (NoDup selectedFilters → NoDup (handleToggle selectedFilters f)) ∧
  (f ∉ selectedFilters → handleToggle (handleToggle selectedFilters f) f = selectedFilters).
Proof.
  split; [intros g; apply handleToggle_elem_of|]. split; [apply handleToggle_NoDup|].
  intros Hin. unfold handleToggle. rewrite (bool_decide_false _ Hin).
  rewrite bool_decide_true by (apply elem_of_app; right; by apply list_elem_of_singleton).
  rewrite filter_app, filter_ne_absent by done.
  rewrite filter_cons_False by (intros H; by apply H).
  by rewrite filter_nil, app_nil_r.
Qed.

Lemma handleToggle_switches_witness :
  handleToggle (handleToggle ["vegan"] "keto") "keto" = ["vegan"].
Proof.
  apply (handleToggle_switches ["vegan"] "keto"). by intros [=]%list_elem_of_singleton.
Defined.

Lemma parseInt_or_nonzero (d : Z) (s : string) : d ≠ 0%Z → parseInt_or d s ≠ 0%Z.
Proof.
  intros Hd. unfold parseInt_or. destruct (parseInt s) as [z|]; [|done].
  destruct (Z.eqb_spec z 0); done.
Qed.

Lemma is_integer_inject_Z (z : Z) : is_integer (inject_Z z) = true.
Proof. unfold is_integer. simpl. by rewrite Z.mod_1_r. Qed.

Lemma offered_value (o : DietaryOption.t) :
  o ∈ DIETARY_OPTIONS → DietaryOption.value o ∈ DietaryFilter_values.
Proof.
  assert (Forall (λ o, bool_decide (DietaryOption.value o ∈ DietaryFilter_values) = true)
            DIETARY_OPTIONS) as H by (repeat constructor).
  intros Ho. rewrite Forall_forall in H. apply H in Ho.
  by apply bool_decide_eq_true in Ho.
Qed.

Lemma length_delete_at_most {A} (l : list A) (i : nat) :
  (length (delete i l) ≤ length l)%nat.
Proof.
  revert i. induction l as [|x l IH]; intros [|i]; simpl; try lia.
  specialize (IH i). lia.
Qed.

Section FormRuns.

Variable isValidIngredient : string → bool.

Lemma form_initial_ok : form_ok isValidIngredient form_initial.
Proof.
  unfold form_ok, filters_ok. simpl. repeat split; try done; try lia.
  - constructor.
Qed.

Lemma addIngredient_ok (st : Form.state) :
  form_ok isValidIngredient st → form_ok isValidIngredient (Form.addIngredient isValidIngredient st).
Proof.
  intros (Hlen & Hall & Hnd & Hf & Hi & Hz). unfold Form.addIngredient.
  destruct (String.eqb_spec (Str.trim (Form.currentIngredient st)) "") as [|Hne];
    [done|].
  destruct (isValidIngredient (Str.trim (Form.currentIngredient st))) eqn:Hv;
    cbn [negb]; [|done].
  case_bool_decide; [done|].
  destruct (Nat.leb_spec 15 (length (Form.ingredients st))); [done|].
  unfold form_ok. cbn [Form.ingredients Form.dietaryFilters Form.servings].
  rewrite length_app. cbn [length]. split; [lia|].
  split; [|done]. apply Forall_app. split; [done|]. by repeat constructor.
Qed.

Lemma form_step_ok (st : Form.state) (e : form_event) :
  offered e → form_ok isValidIngredient st → form_ok isValidIngredient (form_step isValidIngredient st e).
Proof.
  intros He Hok. destruct e as [v| |index|o| |v]; cbn [form_step].
  - exact Hok.
  - by apply addIngredient_ok.
  - destruct Hok as (Hlen & Hall & Hrest). unfold form_ok.
    cbn [setIngredients Form.ingredients Form.dietaryFilters Form.servings].
    rewrite removeIngredient_delete. split; [|split; [|exact Hrest]].
    + pose proof (length_delete_at_most (Form.ingredients st) index). lia.
    + by apply Forall_delete.
  - destruct Hok as (Hlen & Hall & Hnd & Hf & Hrest). unfold form_ok.
    cbn [setDietaryFilters Form.ingredients Form.dietaryFilters Form.servings].
    repeat split; try done; try (by apply handleToggle_NoDup); try tauto.
    unfold filters_ok in *. cbn [default] in *. rewrite Forall_forall in *.
    intros g [[_ Hg]|[-> _]]%handleToggle_elem_of; [by apply Hf|]. by apply offered_value.
  - destruct Hok as (Hlen & Hall & Hnd & Hf & Hrest). unfold form_ok.
    cbn [setDietaryFilters Form.ingredients Form.dietaryFilters Form.servings].
    repeat split; try done; try tauto; constructor.
  - destruct Hok as (Hlen & Hall & Hnd & Hf & Hrest). unfold form_ok.
    cbn [setServings Form.ingredients Form.dietaryFilters Form.servings].
    repeat split; try done.
    + apply is_integer_inject_Z.
    + unfold servings_of_input, Qeq. simpl. rewrite Z.mul_1_r.
      by apply parseInt_or_nonzero.
Qed.

Lemma form_steps_ok (es : list form_event) : ∀ st,
  form_ok isValidIngredient st → Forall offered es →
  form_ok isValidIngredient (foldl (form_step isValidIngredient) st es).
Proof.
  induction es as [|e es IH]; intros st Hok Hes; [done|].
  inversion Hes as [|? ? He Hes']; subst. cbn [foldl].
  apply IH; [|done]. by apply form_step_ok.
Qed.

(** X11.  In every run of the form, whatever is typed, added, removed,
    ticked or entered as servings: the list holds at most 15 ingredients,
    each of them non-empty and accepted by [isValidIngredient]; the
    selected filters are free of repetitions and are dietary options of
    the schema; and the servings are a whole number other than 0. *)
Theorem form_run_invariant (es : list form_event) :
  Forall offered es → form_ok isValidIngredient (form_run isValidIngredient es).
Proof.
  intros Hes. unfold form_run.
  apply form_steps_ok; [apply form_initial_ok|exact Hes].
Qed.

(** What the schema asks of the state, after a run. *)
Lemma form_run_submittable (es : list form_event) :
  (∀ s, isValidIngredient s = true → (String.length s ≤ 50)%nat) →
  Forall offered es →
  let st := form_run isValidIngredient es in
  (length (Form.ingredients st) ≤ 15)%nat ∧
  Forall length_ok (Form.ingredients st) ∧
  filters_ok (Some (Form.dietaryFilters st)) ∧
  NoDup (Form.dietaryFilters st) ∧
  is_integer (Form.servings st) = true.
Proof.
  intros Hvalid Hes st.
  destruct (form_steps_ok es form_initial form_initial_ok Hes)
    as (Hlen & Hall & Hnd & Hf & Hi & _).
  split; [done|]. split; [|done].
  eapply Forall_impl; [exact Hall|]. intros s [Hne Hv]. split; [|by apply Hvalid].
  destruct s; [done|simpl; lia].
Qed.

End FormRuns.

Lemma form_run_invariant_witness :
  form_ok matches_allow_list
    (form_run matches_allow_list
       [Type_ " Chicken "; Add; Type_ "rice"; Add; Remove 0;
        Toggle {| DietaryOption.value := "vegan"; DietaryOption.label := "Vegan";
                  DietaryOption.description := "No animal products whatsoever" |};
        Servings "6"]).
Proof.
  apply (form_run_invariant matches_allow_list). repeat constructor.
Defined.

Lemma handleSubmit_verdict (st : Form.state) :
  (length (Form.ingredients st) ≤ 15)%nat →
  Forall length_ok (Form.ingredients st) →
  filters_ok (Some (Form.dietaryFilters st)) →
  Form.handleSubmit st = submit_verdict st.
Proof.
  intros Hlen Hall Hf. unfold Form.handleSubmit, submit_verdict.
  destruct (Nat.ltb_spec (length (Form.ingredients st)) 2) as [Hlt|Hge].
  - destruct (ingredients_field_issue (Form.ingredients st) (or_introl Hlt))
      as (v & p & m & rest & E & Hm & _).
    destruct (Hm Hlt) as [-> ->].
    destruct (request_body_issue _ (Some (strings_json (Form.dietaryFilters st)))
                (Some (JNum (Form.servings st))) _ _ _ E) as [rest' ->].
    reflexivity.
  - change (Some (strings_json (Form.dietaryFilters st)))
      with (strings_json <$> Some (Form.dietaryFilters st)).
    rewrite request_body_servings by (done || lia).
    cbn [z_default]. rewrite servings_number_result.
    destruct (Qle_bool 1 (Form.servings st)), (Qle_bool (Form.servings st) 12);
      reflexivity.
Qed.

(** X12.  After any run of the form, [handleSubmit] can refuse for two
    reasons only: fewer than two ingredients, or servings outside 1..12.
    Otherwise it submits the ingredients, the filters and the servings of
    the state as they are.  The checks of the schema on the number of
    ingredients above 15, on each ingredient and on the filters never
    fire, provided [isValidIngredient] accepts no name longer than 50. *)
Theorem handleSubmit_after_run (isValidIngredient : string → bool)
  (es : list form_event) :
  (∀ s, isValidIngredient s = true → (String.length s ≤ 50)%nat) →
  Forall offered es →
  Form.handleSubmit (form_run isValidIngredient es)
  = submit_verdict (form_run isValidIngredient es).
Proof.
  intros Hvalid Hes.
  destruct (form_run_submittable isValidIngredient es Hvalid Hes)
    as (Hlen & Hall & Hf & _).
  by apply handleSubmit_verdict.
Qed.

Lemma handleSubmit_after_run_witness :
  Form.handleSubmit
    (form_run matches_allow_list [Type_ " Chicken "; Add; Type_ "rice"; Add; Servings "6"])
  = Form.Submitted
      {| IngredientInput.ingredients := ["Chicken"; "rice"];
         IngredientInput.dietaryFilters := [];
         IngredientInput.servings := 6;
         IngredientInput.maxPrepTime := None |}.
Proof.
  rewrite (handleSubmit_after_run matches_allow_list
             [Type_ " Chicken "; Add; Type_ "rice"; Add; Servings "6"]).
  - reflexivity.
  - intros s H. apply matches_allow_list_length in H. unfold length_ok in H. lia.
  - repeat constructor.
Defined.

(** X13.  What the form submits has whole servings: although the schema
    accepts fractional servings, a submission of the form carries a whole
    number between 1 and 12, between 2 and 15 ingredients, and filters
    that are among the dietary options and free of repetitions. *)
Theorem form_submits_whole_servings (isValidIngredient : string → bool)
  (es : list form_event) (data : IngredientInput.t) :
  (∀ s, isValidIngredient s = true → (String.length s ≤ 50)%nat) →
  Forall offered es →
  Form.handleSubmit (form_run isValidIngredient es) = Form.Submitted data →
  is_integer (IngredientInput.servings data) = true ∧
  (1 <= IngredientInput.servings data ∧ IngredientInput.servings data <= 12)%Q ∧
  (2 ≤ length (IngredientInput.ingredients data) ≤ 15)%nat ∧
  NoDup (IngredientInput.dietaryFilters data) ∧
  filters_ok (Some (IngredientInput.dietaryFilters data)).
Proof.
  intros Hvalid Hes.
  destruct (form_run_submittable isValidIngredient es Hvalid Hes)
    as (Hlen & Hall & Hf & Hnd & Hi).
  rewrite handleSubmit_verdict by done. unfold submit_verdict.
  destruct (Nat.ltb_spec (length (Form.ingredients (form_run isValidIngredient es))) 2);
    [done|].
  destruct (Qle_bool 1 _) eqn:H1; [|done].
  destruct (Qle_bool _ 12) eqn:H12; [|done].
  intros [= <-]. simpl. apply Qle_bool_iff in H1, H12. repeat split; try done; lia.
Qed.

Lemma form_submits_whole_servings_witness :
  is_integer 6 = true ∧ (1 <= 6 ∧ 6 <= 12)%Q.
Proof.
  destruct (form_submits_whole_servings matches_allow_list
              [Type_ " Chicken "; Add; Type_ "rice"; Add; Servings "6"]
              {| IngredientInput.ingredients := ["Chicken"; "rice"];
                 IngredientInput.dietaryFilters := [];
                 IngredientInput.servings := 6;
                 IngredientInput.maxPrepTime := None |})
    as (H1 & H2 & _).
  - intros s H. apply matches_allow_list_length in H. unfold length_ok in H. lia.
  - repeat constructor.
  - reflexivity.
  - split; [exact H1|exact H2].
Defined.

(** ** The dietary options and the suggestions *)

Lemma find_first_Some {A} (p : A → bool) (l : list A) (x : A) :
  find_first p l = Some x → p x = true ∧ x ∈ l.
Proof.
  induction l as [|y l IH]; [done|]. cbn [find_first].
  destruct (p y) eqn:Hy.
  - intros [= ->]. split; [done|]. by left.
  - intros [Hx Hin]%IH. split; [done|]. by right.
Qed.

Lemma find_first_None {A} (p : A → bool) (l : list A) :
  find_first p l = None → Forall (λ x, p x = false) l.
Proof.
  induction l as [|y l IH]; [by constructor|]. cbn [find_first].
  destruct (p y) eqn:Hy; [done|]. intros H. constructor; [done|by apply IH].
Qed.

(** X14.  The options of the picker and the dietary values of the schema
    are the same: [getDietaryOption] finds an option exactly for the
    values that the schema accepts, the option found has the value asked
    for, and the labels are as many as the filters. *)
Theorem dietary_options_are_schema_values (f : string) :
  (is_Some (getDietaryOption f) ↔ f ∈ DietaryFilter_values) ∧
  (∀ o, getDietaryOption f = Some o → DietaryOption.value o = f ∧ o ∈ DIETARY_OPTIONS) ∧
  (∀ filters, length (getDietaryFilterLabels filters) = length filters).
Proof.
  split; [|split].
  - split.
    + intros [o Ho]. apply find_first_Some in Ho as [Hv Ho].
      apply String.eqb_eq in Hv as <-. by apply offered_value.
    + intros Hf. destruct (getDietaryOption f) as [o|] eqn:E; [by eexists|].
      apply find_first_None in E. unfold DietaryFilter_values in Hf.
      repeat (apply elem_of_cons in Hf as [->|Hf]; [by inversion E as [|? ? H0 E']|
              inversion E as [|? ? _ E']; subst; clear E; rename E' into E]).
      by apply elem_of_nil in Hf.
  - intros o Ho. apply find_first_Some in Ho as [Hv Ho].
    by apply String.eqb_eq in Hv.
  - intros filters. unfold getDietaryFilterLabels. by rewrite length_fmap.
Qed.

Lemma List_filter_sublist {A} (p : A → bool) (l : list A) : List.filter p l `sublist_of` l.
Proof.
  induction l as [|x l IH]; [done|]. cbn [List.filter].
  destruct (p x); by constructor.
Qed.

Lemma elem_of_List_filter {A} (p : A → bool) (l : list A) (x : A) :
  x ∈ List.filter p l ↔ p x = true ∧ x ∈ l.
Proof. rewrite !list_elem_of_In, List.filter_In. tauto. Qed.

Lemma elem_of_take_inv {A} (n : nat) (l : list A) (x : A) : x ∈ take n l → x ∈ l.
Proof. intros H. eapply elem_of_sublist; [done|apply sublist_take]. Qed.

(** The names of the table are in lower case, trimmed, not empty and
    pairwise distinct. *)
Lemma COMMON_INGREDIENTS_names :
  Forall (λ s, Str.toLowerCase s = s ∧ Str.trim s = s ∧ s ≠ "")
    (IngredientSuggestion.name <$> COMMON_INGREDIENTS) ∧
  NoDup (IngredientSuggestion.name <$> COMMON_INGREDIENTS).
Proof.
  split.
  - apply Forall_forall. intros s Hs.
    assert (forallb (λ s, String.eqb (Str.toLowerCase s) s && String.eqb (Str.trim s) s
                          && negb (String.eqb s ""))
              (IngredientSuggestion.name <$> COMMON_INGREDIENTS) = true) as H
      by (by vm_compute).
    rewrite forallb_forall in H. apply list_elem_of_In, H in Hs.
    apply andb_true_iff in Hs as [[H1 H2]%andb_true_iff H3].
    apply String.eqb_eq in H1, H2. apply negb_true_iff, String.eqb_neq in H3. done.
  - apply (bool_decide_unpack _). by vm_compute.
Qed.

Lemma searchIngredients_sound (query : string) :
  (searchIngredients query `sublist_of` COMMON_INGREDIENTS) ∧
  (length (searchIngredients query) ≤ 8)%nat ∧
  ∀ i, i ∈ searchIngredients query →
       Str.includes (Str.toLowerCase query)
         (Str.toLowerCase (IngredientSuggestion.name i)) = true.
Proof.
  unfold searchIngredients. generalize COMMON_INGREDIENTS. intros table.
  split; [|split].
  - etrans; [apply sublist_take|]. apply List_filter_sublist.
  - rewrite length_take. lia.
  - intros i Hi%elem_of_take_inv. by apply elem_of_List_filter in Hi as [Hi _].
Qed.

Lemma suggestions_of_found (found : list string) (excludeIngredients : list string) :
  let shown :=
    take 6 (List.filter (λ name, negb (bool_decide (name ∈ excludeIngredients))) found) in
  (length shown ≤ 6)%nat ∧ (shown `sublist_of` found) ∧
  ∀ s, s ∈ shown → s ∉ excludeIngredients.
Proof.
  intros shown. subst shown. split; [|split].
  - rewrite length_take. lia.
  - etrans; [apply sublist_take|]. apply List_filter_sublist.
  - intros s Hs%elem_of_take_inv. apply elem_of_List_filter in Hs as [Hs _].
    by apply negb_true_iff, bool_decide_eq_false in Hs.
Qed.

Lemma suggestions_in_table (value : string) (excludeIngredients : list string)
  (s : string) :
  s ∈ Suggestions.suggestions value excludeIngredients →
  s ∈ IngredientSuggestion.name <$> COMMON_INGREDIENTS ∧ s ∉ excludeIngredients.
Proof.
  unfold Suggestions.suggestions.
  destruct (2 <=? String.length value)%nat; [|by intros ?%elem_of_nil].
  destruct (suggestions_of_found
              (IngredientSuggestion.name <$> searchIngredients value) excludeIngredients)
    as (_ & Hshown & Hex).
  cbv zeta in Hshown, Hex. intros Hs. split; [|by apply Hex].
  destruct (searchIngredients_sound value) as (Hsub & _).
  eapply elem_of_sublist; [|apply fmap_sublist, Hsub].
  by eapply elem_of_sublist.
Qed.

(** X15.  The suggestions shown for an entry are at most six names of the
    ingredient table, in the order of the table and each at most once;
    none of them is an ingredient already in the list, and each contains
    the entry, compared in lower case.  Nothing is suggested for an
    entry of fewer than two characters. *)
Theorem suggestions_sound (value : string) (excludeIngredients : list string) :
  let shown := Suggestions.suggestions value excludeIngredients in
  (length shown ≤ 6)%nat ∧
  (shown `sublist_of` (IngredientSuggestion.name <$> COMMON_INGREDIENTS)) ∧
  NoDup shown ∧
  (∀ s, s ∈ shown →
        (s ∉ excludeIngredients) ∧
        Str.includes (Str.toLowerCase value) s = true ∧
        (2 ≤ String.length value)%nat) ∧
  ((String.length value < 2)%nat → shown = []).
Proof.
  intros shown. subst shown. unfold Suggestions.suggestions.
  destruct (Nat.leb_spec 2 (String.length value)) as [Hlen|Hlen].
  2:{ split; [simpl; lia|]. split; [apply sublist_nil_l|]. split; [constructor|].
      split; [|done]. by intros s ?%elem_of_nil. }
  destruct (searchIngredients_sound value) as (Hsub & _ & Hinc).
  destruct COMMON_INGREDIENTS_names as [Hnames Hnd].
  revert Hsub Hinc Hnames Hnd.
  generalize (searchIngredients value). generalize COMMON_INGREDIENTS.
  intros table found Hsub Hinc Hnames Hnd.
  destruct (suggestions_of_found (IngredientSuggestion.name <$> found) excludeIngredients)
    as (Hlen6 & Hshown & Hex).
  cbv zeta in Hlen6, Hshown, Hex.
  assert (IngredientSuggestion.name <$> found
          `sublist_of` IngredientSuggestion.name <$> table) as Hsub'
    by (by apply fmap_sublist).
  split; [done|]. split; [by etrans|].
  split; [eapply sublist_NoDup; [exact Hnd|by etrans]|].
  split; [|lia].
  intros s Hs. split; [by apply Hex|]. split; [|done].
  pose proof (elem_of_sublist _ _ _ Hs Hshown) as Hfound.
  rewrite Forall_forall in Hnames.
  destruct (Hnames s (elem_of_sublist _ _ _ Hfound Hsub')) as (Hlow & _).
  apply list_elem_of_fmap in Hfound as (i & -> & Hi).
  rewrite <- Hlow. by apply Hinc.
Qed.

(** X16.  A suggested name is never refused as a duplicate.  When it is
    the entry and is added, the duplicate check passes: the name is
    appended as it is, the entry and the message are cleared, provided
    [isValidIngredient] accepts the name and fewer than 15 ingredients
    are in the list. *)
Theorem suggestion_is_added (isValidIngredient : string → bool) (st : Form.state)
  (value s : string) :
  s ∈ Suggestions.suggestions value (Form.ingredients st) →
  isValidIngredient s = true →
  (length (Form.ingredients st) < 15)%nat →
  Form.addIngredient isValidIngredient (setCurrentIngredient s st) =
  {| Form.ingredients := Form.ingredients st ++ [s];
     Form.currentIngredient := "";
     Form.dietaryFilters := Form.dietaryFilters st;
     Form.servings := Form.servings st;
     Form.validationError := None |}.
Proof.
  intros Hs Hvalid Hlen.
  destruct (suggestions_in_table value (Form.ingredients st) s Hs) as [Htable Hex].
  destruct COMMON_INGREDIENTS_names as [Hnames _].
  rewrite Forall_forall in Hnames.
  destruct (Hnames s Htable) as (Hlow & Htrim & Hne).
  unfold Form.addIngredient.
  cbn [setCurrentIngredient Form.currentIngredient Form.ingredients Form.dietaryFilters
       Form.servings].
  rewrite Htrim, Hlow, Hvalid. cbn [negb].
  destruct (String.eqb_spec s ""); [done|].
  rewrite bool_decide_false by done.
  destruct (Nat.leb_spec 15 (length (Form.ingredients st))); [lia|done].
Qed.

Lemma suggestion_is_added_witness :
  Form.ingredients
    (Form.addIngredient matches_allow_list
       (setCurrentIngredient "chicken breast" (setCurrentIngredient "chi" form_initial)))
  = ["chicken breast"].
Proof.
  rewrite (suggestion_is_added matches_allow_list
             (setCurrentIngredient "chi" form_initial) "chi" "chicken breast").
  - reflexivity.
  - apply (bool_decide_unpack _). by vm_compute.
  - reflexivity.
  - simpl. lia.
Defined.

(** ** The keys of the suggestion list *)

Lemma handleKeyDown_index (l : list string) (st : Suggestions.nav) (k : Suggestions.key) :
  (-1 ≤ Suggestions.selectedIndex st < Z.of_nat (length l))%Z →
  (-1 ≤ Suggestions.selectedIndex (Suggestions.handleKeyDown l st k)
   < Z.of_nat (length l))%Z.
Proof.
  intros H. unfold Suggestions.handleKeyDown.
  destruct (negb (Suggestions.isVisible st)); cbn [orb]; [done|].
  destruct (Nat.eqb_spec (length l) 0) as [|Hn]; [done|].
  destruct k; cbn [Suggestions.selectedIndex Suggestions.handleSelect].
  - destruct (Z.ltb_spec (Suggestions.selectedIndex st) (Z.of_nat (length l) - 1)); lia.
  - destruct (Z.ltb_spec 0 (Suggestions.selectedIndex st)); lia.
  - destruct (Z.leb_spec 0 (Suggestions.selectedIndex st)); simpl; lia.
  - lia.
Qed.

(** X17.  Whatever keys are pressed after the list of suggestions is
    shown, the selected index is -1 or the index of a suggestion; so
    Enter, when it selects, selects a suggestion of the list and never
    an undefined value.  On a list that is shown with a suggestion
    selected, ArrowDown followed by ArrowUp comes back to it. *)
Theorem suggestion_keys_stay_in_list (l : list string) (ks : list Suggestions.key) :
  let st := Suggestions.after_keys l ks in
  (-1 ≤ Suggestions.selectedIndex st < Z.of_nat (length l))%Z ∧
  (∀ chosen, Suggestions.selection l st = Some chosen → ∃ s, chosen = Some s ∧ s ∈ l) ∧
  (Suggestions.isVisible st = true → (0 ≤ Suggestions.selectedIndex st)%Z →
   Suggestions.handleKeyDown l
     (Suggestions.handleKeyDown l st Suggestions.ArrowDown) Suggestions.ArrowUp = st).
Proof.
  intros st.
  assert (-1 ≤ Suggestions.selectedIndex st < Z.of_nat (length l))%Z as Hidx.
  { subst st. unfold Suggestions.after_keys.
    assert (-1 ≤ Suggestions.selectedIndex (Suggestions.shown l) < Z.of_nat (length l))%Z
      as H0 by (simpl; lia).
    revert H0. generalize (Suggestions.shown l).
    induction ks as [|k ks IH]; intros st0 H0; [done|].
    cbn [foldl]. apply IH. by apply handleKeyDown_index. }
  split; [done|]. split.
  - intros chosen. unfold Suggestions.selection.
    destruct (negb (Suggestions.isVisible st) || (length l =? 0)%nat); [done|].
    destruct (Z.leb_spec 0 (Suggestions.selectedIndex st)) as [Hpos|]; [|done].
    intros [= <-].
    destruct (lookup_lt_is_Some_2 l (Z.to_nat (Suggestions.selectedIndex st))) as [s Hs];
      [lia|].
    exists s. split; [done|]. by eapply list_elem_of_lookup_2.
  - intros Hvis Hpos. destruct st as [vis idx]. simpl in *. subst vis.
    unfold Suggestions.handleKeyDown. cbn [Suggestions.isVisible negb orb].
    destruct (Nat.eqb_spec (length l) 0) as [Hn|Hn]; [done|].
    cbn [Suggestions.selectedIndex Suggestions.isVisible negb orb].
    destruct (Z.ltb_spec idx (Z.of_nat (length l) - 1)).
    + destruct (Z.ltb_spec 0 (idx + 1)); [|lia]. f_equal. lia.
    + destruct (Z.ltb_spec 0 0); [lia|]. f_equal. lia.
Qed.

(** ** Reading numbers *)



(** A digit or a dot is no white space, no sign and no x. *)
Lemma digit_or_dot_plain (c : ascii) :
  digit_or_dot c = true →
  Str.is_space c = false ∧ Ascii.eqb "-" c = false ∧ Ascii.eqb "+" c = false ∧
  Ascii.eqb "x" c = false ∧ Ascii.eqb "X" c = false.
Proof.
  destruct c as [[] [] [] [] [] [] [] []]; try discriminate; intros _; by vm_compute.
Qed.

Lemma is_digit_digit_of (c : ascii) :
  is_digit c = true → digit_of c = Some (Z.of_nat (nat_of_ascii c) - 48)%Z.
Proof.
  destruct c as [[] [] [] [] [] [] [] []]; try discriminate; intros _; by vm_compute.
Qed.

(** On a text of digits and dots, [parseInt] reads the leading decimal
    digits: nothing is trimmed, there is no sign and no hexadecimal
    prefix. *)
Lemma parseInt_digits_and_dots (t : string) :
  all_chars digit_or_dot t = true → parseInt t = read_radix digit_of 10 None t.
Proof.
  intros Ht. unfold parseInt.
  destruct t as [|c r]; [done|].
  cbn [all_chars] in Ht. apply andb_true_iff in Ht as [Hc Hr].
  destruct (digit_or_dot_plain c Hc) as (Hsp & Hm & Hp & _).
  cbn [Str.trimStart]. rewrite Hsp. cbn [head_is]. rewrite Hm, Hp. cbn [orb].
  assert (∀ x, Ascii.eqb x "x" || Ascii.eqb x "X" = true →
               Str.startsWith (String "0" (String x "")) (String c r) = false) as Hno.
  { intros x Hxx. unfold Str.startsWith.
    destruct (String.prefix _ _) eqn:E; [|done].
    apply prefix_cons in E as [_ E]. destruct r as [|c2 r2]; [done|].
    apply prefix_cons in E as [<- _].
    cbn [all_chars] in Hr. apply andb_true_iff in Hr as [Hc2 _].
    destruct (digit_or_dot_plain x Hc2) as (_ & _ & _ & Hx & HX).
    rewrite (Ascii.eqb_sym x "x"), (Ascii.eqb_sym x "X"), Hx, HX in Hxx. done. }
  rewrite (Hno "x"%char), (Hno "X"%char) by done.
  cbn [orb]. destruct (read_radix digit_of 10 None (String c r)); reflexivity.
Qed.


Lemma filter_chars_app (keep : ascii → bool) (s t : string) :
  filter_chars keep (s +:+ t) = filter_chars keep s +:+ filter_chars keep t.
Proof.
  induction s as [|c r IH]; [done|]. cbn [String.append filter_chars].
  rewrite IH. by destruct (keep c).
Qed.

Lemma filter_chars_all (keep : ascii → bool) (s : string) :
  all_chars keep s = true → filter_chars keep s = s.
Proof.
  induction s as [|c r IH]; [done|]. cbn [all_chars filter_chars].
  intros [-> Hr]%andb_true_iff. by rewrite IH.
Qed.

Lemma pretty_N_char_digit (d : N) :
  (d < 10)%N →
  is_digit (pretty_N_char d) = true ∧ digit_of (pretty_N_char d) = Some (Z.of_N d).
Proof.
  intros Hd.
  assert (d = 0 ∨ d = 1 ∨ d = 2 ∨ d = 3 ∨ d = 4 ∨ d = 5 ∨ d = 6 ∨ d = 7 ∨ d = 8 ∨ d = 9)%N
    as H by lia.
  repeat (destruct H as [->|H]; [by vm_compute|]). subst. by vm_compute.
Qed.

(** The decimal digits of a positive number are read back to it. *)
Lemma read_pretty_N_go (x : N) : ∀ s,
  (0 < x)%N →
  read_radix digit_of 10 None (pretty_N_go x s)
  = read_radix digit_of 10 (Some (Z.of_N x)) s ∧
  (all_chars is_digit s = true → all_chars is_digit (pretty_N_go x s) = true).
Proof.
  induction (N.lt_wf_0 x) as [x _ IH]. intros s Hx.
  rewrite pretty_N_go_step by done.
  destruct (pretty_N_char_digit (x `mod` 10)%N) as [Hdig Hval].
  { apply N.mod_lt. lia. }
  assert (10 * Z.of_N (x `div` 10) + Z.of_N (x `mod` 10) = Z.of_N x)%Z as Hdm.
  { rewrite <- (N2Z.inj_mul 10), <- N2Z.inj_add. f_equal. symmetry. apply N.div_mod. lia. }
  destruct (decide (x `div` 10 = 0)%N) as [Hz|Hnz].
  - rewrite Hz in *. rewrite pretty_N_go_0. cbn [read_radix all_chars].
    rewrite Hval, Hdig. simpl default. split; [|done]. do 2 f_equal. lia.
  - destruct (IH (x `div` 10)%N) with (s := String (pretty_N_char (x `mod` 10)) s)
      as [E1 E2].
    { apply N.div_lt; lia. } { by apply N.neq_0_lt_0. }
    split.
    + rewrite E1. cbn [read_radix]. rewrite Hval. simpl default. by rewrite Hdm.
    + intros Hs. apply E2. cbn [all_chars]. by rewrite Hdig, Hs.
Qed.

Lemma pretty_N_digits (n : N) :
  all_chars is_digit (pretty n) = true ∧
  read_radix digit_of 10 None (pretty n) = Some (Z.of_N n).
Proof.
  unfold pretty, pretty_N. destruct (decide (n = 0)%N) as [->|Hn]; [done|].
  destruct (read_pretty_N_go n "") as [E1 E2]; [lia|].
  rewrite E1. split; [by apply E2|done].
Qed.

Lemma all_chars_impl (f g : ascii → bool) (s : string) :
  (∀ c, f c = true → g c = true) → all_chars f s = true → all_chars g s = true.
Proof.
  intros Hfg. induction s as [|c r IH]; [done|]. cbn [all_chars].
  intros [Hc Hr]%andb_true_iff. by rewrite (Hfg c Hc), IH.
Qed.

Lemma parseInt_pretty_N (n : N) : parseInt (pretty n) = Some (Z.of_N n).
Proof.
  destruct (pretty_N_digits n) as [Hd Hr].
  rewrite parseInt_digits_and_dots; [done|].
  eapply all_chars_impl; [|exact Hd]. intros c Hc. unfold digit_or_dot. by rewrite Hc.
Qed.




(** ** The result filters *)

Lemma List_filter_filter {A} (p q : A → bool) (l : list A) :
  List.filter p (List.filter q l) = List.filter (λ x, q x && p x) l.
Proof.
  induction l as [|x l IH]; [done|]. cbn [List.filter].
  destruct (q x); cbn [andb List.filter]; [|done]. by rewrite IH.
Qed.

Lemma List_filter_ext {A} (p q : A → bool) (l : list A) :
  (∀ x, p x = q x) → List.filter p l = List.filter q l.
Proof.
  intros H. induction l as [|x l IH]; [done|]. cbn [List.filter]. by rewrite H, IH.
Qed.

Lemma List_filter_true {A} (l : list A) : List.filter (λ _, true) l = l.
Proof. induction l as [|x l IH]; [done|]. cbn [List.filter]. by rewrite IH. Qed.

Lemma filter_if_filter (c : bool) (test : Recipe.t → bool) (l : list Recipe.t) :
  Filters.filter_if c test l = List.filter (λ recipe, implb c (test recipe)) l.
Proof.
  destruct c; cbn [Filters.filter_if implb]; [done|]. by rewrite List_filter_true.
Qed.

Lemma applyFilters_filter (recipes : list Recipe.t) (f : Filters.FilterState) :
  Filters.applyFilters recipes f = List.filter (Filters.passes f) recipes.
Proof.
  unfold Filters.applyFilters. cbv zeta.
  rewrite !filter_if_filter, !List_filter_filter.
  apply List_filter_ext. intros x. unfold Filters.passes. by rewrite !andb_assoc.
Qed.

(** X20.  [applyFilters] keeps exactly the recipes that pass every test
    whose condition holds: the seven conditional filters in sequence are
    one filter by the conjunction.  The result is a sublist of the
    recipes, in their order; filtering the result again with the same
    state changes nothing. *)
Theorem applyFilters_keeps_passing (recipes : list Recipe.t) (f : Filters.FilterState) :
  Filters.applyFilters recipes f = List.filter (Filters.passes f) recipes ∧
  (∀ recipe, recipe ∈ Filters.applyFilters recipes f ↔
             recipe ∈ recipes ∧ Filters.passes f recipe = true) ∧
  (Filters.applyFilters recipes f `sublist_of` recipes) ∧
  Filters.applyFilters (Filters.applyFilters recipes f) f = Filters.applyFilters recipes f.
Proof.
  rewrite !applyFilters_filter. split; [done|]. split; [|split].
  - intros recipe. rewrite elem_of_List_filter. tauto.
  - apply List_filter_sublist.
  - rewrite List_filter_filter. apply List_filter_ext. intros x. by destruct (Filters.passes f x).
Qed.

(** X21.  The badge and the filters agree: when [activeFilterCount] is 0
    no test is applied and [applyFilters] returns all the recipes; the
    count is 0 for the default state, to which [clearFilters] resets, and
    it is never more than 7. *)
Theorem no_active_filter_shows_all (recipes : list Recipe.t) (f : Filters.FilterState) :
  (Filters.activeFilterCount f = 0%nat → Filters.applyFilters recipes f = recipes) ∧
  Filters.activeFilterCount Filters.defaultFilters = 0%nat ∧
  (Filters.activeFilterCount f ≤ 7)%nat.
Proof.
  unfold Filters.activeFilterCount, Filters.count_if, Filters.applyFilters. cbv zeta.
  split; [|split; [done|]].
  - destruct (Filters.search_active f), (Filters.prepTime_active f),
      (Filters.nonempty (Filters.servings f)), (Filters.nonempty (Filters.difficulty f)),
      (Filters.nonempty (Filters.cuisine f)), (Filters.nonempty (Filters.dietary f)),
      (Filters.calories_active f); simpl; intros H0; try lia. reflexivity.
  - destruct (Filters.search_active f), (Filters.prepTime_active f),
      (Filters.nonempty (Filters.servings f)), (Filters.nonempty (Filters.difficulty f)),
      (Filters.nonempty (Filters.cuisine f)), (Filters.nonempty (Filters.dietary f)),
      (Filters.calories_active f); simpl; lia.
Qed.

Lemma no_active_filter_shows_all_witness :
  Filters.applyFilters [rice_recipe; rice_recipe] Filters.defaultFilters
  = [rice_recipe; rice_recipe].
Proof.
  apply (no_active_filter_shows_all [rice_recipe; rice_recipe] Filters.defaultFilters).
  reflexivity.
Defined.

(** X22.  The prep-time filter reads the duration text by its digits: for
    a duration written as a whole number followed by a unit without
    digits, a recipe passes the test exactly when the number is at most
    the bound. *)
Theorem prepTime_test_reads_minutes (f : Filters.FilterState) (recipe : Recipe.t)
  (n : N) (unit_ : string) :
  Recipe.prepTime recipe = pretty n +:+ unit_ →
  digits_only unit_ = "" →
  Filters.prepTime_test f recipe
  = Qle_bool (inject_Z (Z.of_N n)) (Filters.maxPrepTime f).
Proof.
  intros Hprep Hunit. unfold Filters.prepTime_test, digits_only in *. cbv zeta.
  rewrite Hprep, filter_chars_app, Hunit, app_nil_r_s.
  destruct (pretty_N_digits n) as [Hd _]. rewrite filter_chars_all by done.
  unfold parseInt_or. rewrite parseInt_pretty_N.
  destruct (Z.eqb_spec (Z.of_N n) 0) as [->|]; reflexivity.
Qed.

Lemma prepTime_test_reads_minutes_witness :
  Filters.prepTime_test Filters.defaultFilters rice_recipe = true.
Proof.
  rewrite (prepTime_test_reads_minutes Filters.defaultFilters rice_recipe 5 " minutes");
    reflexivity.
Defined.

(** ** The download name *)

Lemma download_char (c : ascii) :
  let c' := Str.toLowerCase_char (if is_letter c || is_digit c then c else "_"%char) in
  let n := nat_of_ascii c' in
  ((97 <=? n) && (n <=? 122) || is_digit c' || Ascii.eqb c' "_")%nat = true.
Proof. destruct c as [[] [] [] [] [] [] [] []]; by vm_compute. Qed.

(** X23.  The stem of the download name has as many characters as the
    recipe name, and each of them is a lower-case letter, a digit or an
    underscore: no separator of a path, no dot and no space of the recipe
    name reaches the file name. *)
Theorem download_name_is_plain (name : string) :
  String.length (download_stem name) = String.length name ∧
  all_chars (λ c, let n := nat_of_ascii c in
                  ((97 <=? n) && (n <=? 122) || is_digit c || Ascii.eqb c "_")%nat)
    (download_stem name) = true.
Proof.
  unfold download_stem. split.
  - induction name as [|c r IH]; [done|]. cbn [map_chars Str.toLowerCase String.length].
    by rewrite IH.
  - induction name as [|c r IH]; [done|]. cbn [map_chars Str.toLowerCase all_chars].
    rewrite IH, andb_true_r. apply download_char.
Qed.

(** ** The client and the route together *)

(** X24.  What the page shows after a request, whatever the body sent,
    the provider and the completion: the call of the hook completes with
    loading off and the selection untouched; either the route has
    answered 200 and the recipes of the state are those of the answer,
    with no error; or the recipes are those of before and the error is
    one of two fixed messages.  No text of the provider or of the parser
    is shown. *)
Theorem client_shows_route_outcome {G} (generateId : G → string * G)
  (JSON_parse : string → string + json) (Number_toString : Q → string)
  (model_generateContent : string → result string)
  (body : json) (w : world G) (s : UseRecipes.RecipeState json) :
  let answer := (POST_recipes generateId JSON_parse Number_toString model_generateContent
                   (Ok body) w).1 in
  ∃ s',
    Client.handleRecipeGeneration answer s = Some s' ∧
    UseRecipes.loading s' = false ∧
    UseRecipes.selectedRecipe s' = UseRecipes.selectedRecipe s ∧
    ((∃ recipes, answer = Ok (recipes_response recipes (clock w)) ∧
                 UseRecipes.recipes s' = recipes ∧ UseRecipes.error s' = None) ∨
     (UseRecipes.recipes s' = UseRecipes.recipes s ∧
      (UseRecipes.error s' = Some "Invalid input data" ∨
       UseRecipes.error s' = Some "Failed to generate recipes"))).
Proof.
  intros answer. subst answer. rewrite POST_recipes_cases.
  destruct (IngredientInputSchema_parse_cases body)
    as [(data & -> & _)|(i & rest & v & -> & _)].
  2:{ eexists. split; [reflexivity|]. simpl. split; [done|]. split; [done|].
      right. auto. }
  rewrite generateRecipes_cases.
  destruct (model_generateContent _) as [completion|e].
  - destruct (completion_recipes JSON_parse completion) as [cause|items].
    + eexists. split; [reflexivity|]. simpl. split; [done|]. split; [done|].
      right. auto.
    + eexists. split; [reflexivity|]. simpl. split; [done|]. split; [done|].
      left. eexists. split; [reflexivity|]. done.
  - eexists. split; [reflexivity|]. simpl. split; [done|]. split; [done|].
    right. auto.
Qed.
